(** * Portfolio tracker: balance resolution and portfolio aggregation

    A shallow embedding of [src/balance_fetcher.py],
    [src/portfolio_aggregator.py] and the portfolio endpoint of
    [src/main.py], and the properties of these components that the
    specification states.

    Conventions of the embedding.
    - Amounts (balance, price, USD value) are Python floats.  The
      aggregator is embedded twice.  In [PortfolioAggregator] an amount is
      the exact rational of type [Q] that the float stands for, and the
      arithmetic is exact: this model carries the properties that the
      rounding of binary floating point does not touch (which records are
      kept, grouped and counted, the order of the breakdowns, the
      warnings, signs).  In [FloatAggregator] an amount is an IEEE 754
      binary64 number with the operations of [Float], and an [int] price
      is converted as Python converts it: this model carries the relations
      between sums that the code accumulates separately, which rounding
      does touch.
    - A balance dict is the record [Balance]: one optional field per key the
      two files read or write.  [None] stands for a key that is absent or
      holds Python's [None]; the code itself stores [None] only under
      [contract_address] and [price_usd], which it reads with [.get(k)].
    - A Python [str] is a [string] whose characters are the code points
      below 256.
    - An [int] is a [Z]; a [len] or a count is a [nat]. *)

From Stdlib Require Import QArith Qround Qabs Qpower Lqa Ascii DecimalString Sorted
  SpecFloat.
From stdpp Require Import gmap strings list.

Local Open Scope string_scope.

(** ** Python values *)

Module Py.

(** Exceptions, by the class the code raises or may receive. *)
Inductive exn : Type :=
| ValueError (msg : string)
| KeyError (key : string)
| Exception (msg : string).

(** [str(e)] *)
Definition str_exn (e : exn) : string :=
  match e with
  | ValueError msg => msg
  | KeyError key => "'" +:+ key +:+ "'"
  | Exception msg => msg
  end.

(** [str(n)] for an [int] and for a length *)
Definition str_int (z : Z) : string := NilZero.string_of_int (Z.to_int z).
Definition str_len (n : nat) : string := NilZero.string_of_uint (Nat.to_uint n).

(** Truth value of an optional string: [None] and the empty string are falsy. *)
Definition truthy_str (o : option string) : bool :=
  match o with
  | Some s => negb (String.eqb s "")
  | None => false
  end.

(** Truth value of an optional number: [None] and zero are falsy. *)
Definition truthy_num (o : option Q) : bool :=
  match o with
  | Some q => negb (Qeq_bool q 0)
  | None => false
  end.

(** [sum(xs)]: a left fold from 0. *)
Definition sum (xs : list Q) : Q := fold_left Qplus xs 0%Q.

(** [max(xs)] on a non-empty sequence given as head and tail: the running
    maximum is replaced only by a strictly larger element. *)
Definition max_from (x : Q) (xs : list Q) : Q :=
  fold_left (fun m y => if Qlt_le_dec m y then y else m) xs x.

(** [round(x)] to an integer, ties to the even neighbour. *)
Definition round_half_even (x : Q) : Z :=
  let f := Qfloor x in
  match (x - inject_Z f ?= 1 # 2)%Q with
  | Lt => f
  | Gt => (f + 1)%Z
  | Eq => if Z.even f then f else (f + 1)%Z
  end.

(** [round(x, 2)] *)
Definition round2 (x : Q) : Q := (inject_Z (round_half_even (x * 100)) / 100)%Q.

(** [sorted(xs, key=key, reverse=True)]: the stable sort by descending key.
    An element is inserted in front of the sorted rest and moves past the
    elements whose key is strictly larger, so that it stays before the
    elements of equal key that followed it in the input. *)
Fixpoint insert_desc {A} (key : A -> Q) (x : A) (l : list A) : list A :=
  match l with
  | [] => [x]
  | y :: l' =>
      if Qlt_le_dec (key x) (key y) then y :: insert_desc key x l' else x :: y :: l'
  end.

Definition sorted_reverse {A} (key : A -> Q) (l : list A) : list A :=
  fold_right (insert_desc key) [] l.

(** An insertion-ordered [dict] (and [defaultdict]) is an association list
    in insertion order.  [upsert k dflt f d] is [d[k] = f(d[k])] on a
    [defaultdict] whose factory yields [dflt]: an existing entry is updated
    in place, a new key is appended. *)
Fixpoint upsert {K V} `{EqDecision K} (k : K) (dflt : V) (f : V -> V)
    (d : list (K * V)) : list (K * V) :=
  match d with
  | [] => [(k, f dflt)]
  | (k', v) :: d' =>
      if decide (k = k') then (k', f v) :: d' else (k', v) :: upsert k dflt f d'
  end.

(** [list(d.values())] *)
Definition values {K V} (d : list (K * V)) : list V := map snd d.

End Py.

(** ** Python floats *)

(** A Python [float] is an IEEE 754 binary64 number: the library's
    [spec_float] at precision 53 and maximal exponent 1024, with its
    operations, which round to nearest, ties to even. *)
Module Float.

Local Open Scope list_scope.

Definition float : Type := spec_float.

Definition prec : Z := 53.
Definition emax : Z := 1024.

Definition add : float -> float -> float := SFadd prec emax.
Definition sub : float -> float -> float := SFsub prec emax.
Definition mul : float -> float -> float := SFmul prec emax.
Definition div : float -> float -> float := SFdiv prec emax.
Definition abs : float -> float := SFabs.
Definition ltb : float -> float -> bool := SFltb.
Definition leb : float -> float -> bool := SFleb.
Definition eqb : float -> float -> bool := SFeqb.

(** [0.0], which is also what the [int] 0 of the code becomes in every
    operation with a float. *)
Definition zero : float := S754_zero false.

(** [float(z)] for an [int] that converts without overflow. *)
Definition of_Z (z : Z) : float := binary_normalize prec emax z 0 false.

(** The conversion of an [int] operand of a float operation. *)
Definition of_int (z : Z) : Py.exn + float :=
  match of_Z z with
  | S754_infinity _ => inl (Py.Exception "int too large to convert to float")
  | f => inr f
  end.

(** [math.isfinite(x)] *)
Definition is_finite (x : float) : bool :=
  match x with
  | S754_zero _ | S754_finite _ _ _ => true
  | S754_infinity _ | S754_nan => false
  end.

(** The rational that a finite float stands for (0 for the others). *)
Definition value (x : float) : Q :=
  match x with
  | S754_finite s m e => inject_Z (cond_Zopp s (Zpos m)) * 2 ^ e
  | _ => 0
  end.

(** [sys.float_info.max], the largest finite float. *)
Definition largest : Q := ((2 ^ 53 - 1) * 2 ^ 971)%Q.

(** Truth value: every float but the two zeros is truthy. *)
Definition truthy (x : float) : bool := negb (eqb x zero).

(** The hundredths of the decimal with two places that is nearest to the
    exact value of [x], ties to the even last digit. *)
Definition hundredths (x : float) : Z := Py.round_half_even (value x * 100).

(** [round(x, 2)]: that decimal, converted back to the nearest float;
    zeros, infinities and NaN round to themselves. *)
Definition round2 (x : float) : float :=
  match x with
  | S754_finite s m e =>
      match hundredths x with
      | Z0 => S754_zero s
      | Zpos k => div (S754_finite false k 0) (of_Z 100)
      | Zneg k => div (S754_finite true k 0) (of_Z 100)
      end
  | _ => x
  end.

(** The interpreter: CPython adds floats one after the other in [sum]
    before version 3.12 and with Neumaier's compensation from 3.12 on. *)
Inductive CPython : Type := before_3_12 | from_3_12.

(** One float item in the compensated loop of [sum]. *)
Definition compensated_step (fc : float * float) (x : float) : float * float :=
  let '(f, c) := fc in
  let t := add f x in
  (t, if leb (abs x) (abs f) then add c (add (sub f t) x) else add c (add (sub x t) f)).

(** [sum(xs)] for floats, from the [int] 0. *)
Definition sum (python : CPython) (xs : list float) : float :=
  match python with
  | before_3_12 => fold_left add xs zero
  | from_3_12 =>
      match xs with
      | [] => zero
      | x :: xs' =>
          let '(f, c) := fold_left compensated_step xs' (add zero x, zero) in
          if truthy c && is_finite c then add f c else f
      end
  end.

(** [max(xs)] on a non-empty sequence. *)
Definition max_from (x : float) (xs : list float) : float :=
  fold_left (fun m y => if ltb m y then y else m) xs x.

(** [sorted(xs, key=key, reverse=True)] for float keys that are comparable
    (none is NaN): the stable sort by descending key. *)
Fixpoint insert_desc {A} (key : A -> float) (x : A) (l : list A) : list A :=
  match l with
  | [] => [x]
  | y :: l' => if ltb (key x) (key y) then y :: insert_desc key x l' else x :: y :: l'
  end.

Definition sorted_reverse {A} (key : A -> float) (l : list A) : list A :=
  fold_right (insert_desc key) [] l.

End Float.

(** ** Data model *)

(** A balance dict, as produced by the fetcher and enriched by the
    aggregator. *)
Record Balance : Type := mkBalance {
  chain_id : option Z;
  chain_name : option string;
  token_type : option string;
  contract_address : option string;
  symbol : option string;
  name : option string;
  balance : option Q;
  balance_wei : option Z;
  balance_raw : option Z;
  decimals : option Z;
  error : option string;
  price_usd : option Q;
  value_usd : option Q
}.

(** The dict with no key. *)
Definition empty_dict : Balance :=
  mkBalance None None None None None None None None None None None None None.

(** [b.get("error")] is truthy: the record is a failed one. *)
Definition failed (b : Balance) : bool := Py.truthy_str (error b).

(** ** Balance fetcher ([src/balance_fetcher.py]) *)

Module BalanceFetcher.

Local Open Scope list_scope.

(** *** Strings *)

(** [c.isspace()] for a code point below 256. *)
Definition is_space (c : ascii) : bool :=
  let n := N_of_ascii c in
  ((9 <=? n) && (n <=? 13) || (28 <=? n) && (n <=? 32)
   || (n =? 133) || (n =? 160))%N.

Fixpoint lstrip (s : string) : string :=
  match s with
  | String c s' => if is_space c then lstrip s' else s
  | EmptyString => EmptyString
  end.

Fixpoint rstrip (s : string) : string :=
  match s with
  | String c s' =>
      match rstrip s' with
      | EmptyString => if is_space c then EmptyString else String c EmptyString
      | r => String c r
      end
  | EmptyString => EmptyString
  end.

(** [s.strip()] *)
Definition strip (s : string) : string := rstrip (lstrip s).

(** [s.lower()] for code points below 256: the letters A-Z and the
    upper-case letters of the Latin-1 supplement move up by 32. *)
Definition lower_char (c : ascii) : ascii :=
  let n := N_of_ascii c in
  if ((65 <=? n) && (n <=? 90)
      || (192 <=? n) && (n <=? 222) && negb (n =? 215))%N
  then ascii_of_N (n + 32) else c.

Fixpoint lower (s : string) : string :=
  match s with
  | String c s' => String (lower_char c) (lower s')
  | EmptyString => EmptyString
  end.

(** *** Configuration and network *)

Record ChainInfo : Type := mkChainInfo {
  ci_name : string;
  ci_symbol : string;
  ci_decimals : Z
}.

Definition CHAIN_CONFIG : gmap Z ChainInfo :=
  list_to_map
    [(1, mkChainInfo "Ethereum" "ETH" 18);
     (56, mkChainInfo "BNB Chain" "BNB" 18);
     (137, mkChainInfo "Polygon" "MATIC" 18);
     (42161, mkChainInfo "Arbitrum" "ETH" 18);
     (10, mkChainInfo "Optimism" "ETH" 18);
     (8453, mkChainInfo "Base" "ETH" 18);
     (43114, mkChainInfo "Avalanche" "AVAX" 18)]%Z.

(** A [Web3] instance, known by the URL of its HTTP provider. *)
Record Web3 : Type := mkWeb3 { provider : string }.

(** The requests the fetcher sends to a node. *)
Inductive Request : Type :=
| EthGetBalance (w3 : Web3) (address : string)
| CallBalanceOf (w3 : Web3) (token wallet : string)
| CallDecimals (w3 : Web3) (token : string)
| CallSymbol (w3 : Web3) (token : string)
| CallName (w3 : Web3) (token : string).

(** The environment of a fetcher.  The two constructors work locally and
    may raise; a request is answered, with a value decoded by the ABI type
    of its output or with an exception, depending on the requests sent
    before it. *)
Record Network : Type := mkNetwork {
  web3_new : string -> Py.exn + Web3;
  eth_contract : Web3 -> string -> option Py.exn;
  answer_uint : list Request -> Request -> Py.exn + N;
  answer_string : list Request -> Request -> Py.exn + string
}.

(** The mutable part: the cache [self.w3_instances] and the requests sent
    so far. *)
Record State : Type := mkState {
  w3_instances : gmap Z Web3;
  sent : list Request
}.

(** *** Computations that read and write the state and may raise *)

Definition M (A : Type) : Type := State -> (Py.exn + A) * State.

#[export] Instance M_ret : MRet M := fun A (a : A) st => (inr a, st).

#[export] Instance M_bind : MBind M := fun A B (f : A -> M B) (m : M A) st =>
  match m st with
  | (inr a, st') => f a st'
  | (inl e, st') => (inl e, st')
  end.

(** [raise e], and the lifting of a pure computation that may raise. *)
Definition lift {A} (r : Py.exn + A) : M A := fun st => (r, st).

(** [try: body except Exception as e: handler(e)]; what the body did to
    the state before it raised stays done. *)
Definition try_except {A} (body : M A) (handler : Py.exn -> M A) : M A :=
  fun st =>
    match body st with
    | (inr a, st') => (inr a, st')
    | (inl e, st') => handler e st'
    end.

(** [try: body except: dflt] *)
Definition try_default {A} (body : M A) (dflt : A) : M A :=
  try_except body (fun _ => mret dflt).

(** Sending a request: it joins the requests sent, and its answer is
    returned or raised. *)
Definition send {A} (answer : list Request -> Request -> Py.exn + A)
    (r : Request) : M A :=
  fun st => (answer (sent st) r, mkState (w3_instances st) (sent st ++ [r])).

(** *** The fetcher *)

Section Fetcher.

Variable net : Network.
(** [self.rpc_urls] *)
Variable rpc_urls : gmap Z string.

(** [_get_w3] *)
Definition _get_w3 (chain : Z) : M (option Web3) := fun st =>
  match w3_instances st !! chain with
  | Some w3 => (inr (Some w3), st)
  | None =>
      match rpc_urls !! chain with
      | Some rpc_url =>
          if Py.truthy_str (Some rpc_url) then
            match web3_new net rpc_url with
            | inr w3 =>
                (inr (Some w3), mkState (<[chain := w3]> (w3_instances st)) (sent st))
            | inl _ => (inr None, st)
            end
          else (inr None, st)
      | None => (inr None, st)
      end
  end.

(** [_normalize_address] *)
Definition _normalize_address (address : string) : Py.exn + string :=
  let address := strip address in
  if negb (String.prefix "0x" address) || negb (String.length address =? 42)%nat
  then inl (Py.ValueError ("Invalid address: " +:+ address))
  else inr address.

Definition not_supported_msg (chain : Z) : string :=
  "Chain " +:+ Py.str_int chain +:+ " not supported or failed to initialize".

(** [{"chain_id": chain_id, "error": msg}] *)
Definition chain_error (chain : Z) (msg : string) : Balance :=
  mkBalance (Some chain) None None None None None None None None None
    (Some msg) None None.

(** [{"chain_id": chain_id, "contract_address": address, "error": msg}] *)
Definition token_error (chain : Z) (address msg : string) : Balance :=
  mkBalance (Some chain) None None (Some address) None None None None None None
    (Some msg) None None.

(** [Decimal(raw) / Decimal(10 ** decimals)], then [float] *)
Definition scaled (raw : N) (decimals : Z) : Q :=
  (inject_Z (Z.of_N raw) / (10 ^ decimals))%Q.

Definition generic_name (chain : Z) : string := "Chain " +:+ Py.str_int chain.

(** [get_native_balance]: the body of its [try], then the function. *)
Definition get_native_balance_try (wallet_address : string) (chain : Z) : M Balance :=
  w3 ← _get_w3 chain;
  match w3 with
  | None => mret (chain_error chain (not_supported_msg chain))
  | Some w3 =>
      let chain_info := CHAIN_CONFIG !! chain in
      address ← lift (_normalize_address wallet_address);
      balance_wei ← send (answer_uint net) (EthGetBalance w3 address);
      let dec := default 18%Z (ci_decimals <$> chain_info) in
      let balance := scaled balance_wei dec in
      mret {| chain_id := Some chain;
              chain_name := Some (default (generic_name chain) (ci_name <$> chain_info));
              token_type := Some "native";
              symbol := Some (default "UNKNOWN" (ci_symbol <$> chain_info));
              balance := Some balance;
              balance_wei := Some (Z.of_N balance_wei);
              decimals := Some dec;
              contract_address := None;
              name := None; balance_raw := None; error := None;
              price_usd := None; value_usd := None |}
  end.

Definition get_native_balance (wallet_address : string) (chain : Z) : M Balance :=
  try_except (get_native_balance_try wallet_address chain)
    (fun e => mret (chain_error chain (Py.str_exn e))).

(** [w3.eth.contract(address=token, abi=self.ERC20_ABI)] *)
Definition new_contract (w3 : Web3) (token : string) : M () :=
  lift (match eth_contract net w3 token with
        | Some e => inl e
        | None => inr ()
        end).

(** [get_token_balance]: the body of its [try], then the function. *)
Definition get_token_balance_try (wallet_address token_address : string) (chain : Z)
    : M Balance :=
  w3 ← _get_w3 chain;
  match w3 with
  | None => mret (chain_error chain (not_supported_msg chain))
  | Some w3 =>
      wallet ← lift (_normalize_address wallet_address);
      token ← lift (_normalize_address token_address);
      _ ← new_contract w3 token;
      balance_raw ← send (answer_uint net) (CallBalanceOf w3 token wallet);
      dec ← try_default
              (d ← send (answer_uint net) (CallDecimals w3 token); mret (Z.of_N d))
              18%Z;
      sym ← try_default (send (answer_string net) (CallSymbol w3 token)) "UNKNOWN";
      nam ← try_default (send (answer_string net) (CallName w3 token)) "Unknown Token";
      let balance := scaled balance_raw dec in
      mret {| chain_id := Some chain;
              chain_name :=
                Some (default (generic_name chain) (ci_name <$> CHAIN_CONFIG !! chain));
              token_type := Some "erc20";
              contract_address := Some (lower token_address);
              symbol := Some sym;
              name := Some nam;
              balance := Some balance;
              balance_raw := Some (Z.of_N balance_raw);
              decimals := Some dec;
              balance_wei := None; error := None;
              price_usd := None; value_usd := None |}
  end.

Definition get_token_balance (wallet_address token_address : string) (chain : Z)
    : M Balance :=
  try_except (get_token_balance_try wallet_address token_address chain)
    (fun e => mret (token_error chain (lower token_address) (Py.str_exn e))).

(** [token_balance.get("balance", 0) > 0] *)
Definition positive_balance (b : Balance) : bool :=
  if Qlt_le_dec 0 (default 0%Q (balance b)) then true else false.

(** The body of the loop of [get_wallet_tokens]. *)
Definition add_token (wallet_address : string) (chain : Z) (balances : list Balance)
    (token_address : string) : M (list Balance) :=
  token_balance ← get_token_balance wallet_address token_address chain;
  if negb (failed token_balance) then
    if positive_balance token_balance
    then mret (balances ++ [token_balance]) else mret balances
  else mret balances.

Fixpoint for_each_token (wallet_address : string) (chain : Z)
    (balances : list Balance) (token_addresses : list string) : M (list Balance) :=
  match token_addresses with
  | [] => mret balances
  | token_address :: rest =>
      balances' ← add_token wallet_address chain balances token_address;
      for_each_token wallet_address chain balances' rest
  end.

(** [get_wallet_tokens]; [token_addresses] is [None] by default, and the
    loop is entered on a list that is neither [None] nor empty. *)
Definition get_wallet_tokens (wallet_address : string) (chain : Z)
    (token_addresses : option (list string)) : M (list Balance) :=
  let balances := [] in
  native_balance ← get_native_balance wallet_address chain;
  let balances :=
    if negb (failed native_balance) then balances ++ [native_balance] else balances in
  match token_addresses with
  | Some ((_ :: _) as addresses) => for_each_token wallet_address chain balances addresses
  | _ => mret balances
  end.

End Fetcher.

End BalanceFetcher.

(** ** Portfolio aggregator ([src/portfolio_aggregator.py]) *)

Module PortfolioAggregator.

Local Open Scope list_scope.
Local Open Scope Q_scope.

(** One entry of a chain group's ["tokens"] list. *)
Record TokenEntry : Type := mkTokenEntry {
  te_symbol : option string;
  te_balance : option Q;
  te_value_usd : Q
}.

(** A value of [by_chain]. *)
Record ChainGroup : Type := mkChainGroup {
  cg_chain_id : Z;
  cg_chain_name : string;
  cg_value_usd : Q;
  cg_tokens : list TokenEntry
}.

(** A value of [by_token]. *)
Record TokenGroup : Type := mkTokenGroup {
  tg_symbol : string;
  tg_balance : Q;
  tg_value_usd : Q;
  tg_chains : list (option string)
}.

Record PortfolioSummary : Type := mkPortfolioSummary {
  wallet_address : string;
  total_value_usd : Q;
  chains_count : nat;
  tokens_count : nat;
  native_value_usd : Q;
  erc20_value_usd : Q;
  breakdown_by_chain : list ChainGroup;
  breakdown_by_token : list TokenGroup;
  warnings : list string;
  timestamp : string
}.

(** What the POST to the price oracle does: the request raises (transport
    error, timeout, undecodable body), or a response arrives with a status
    and, in its JSON body, [data.get("price_usd")]. *)
Inductive OracleReply : Type :=
| OracleRaises
| OracleResponse (status : Z) (price : option Q).

(** [self] and the HTTP capability behind [aiohttp]. *)
Record Aggregator : Type := mkAggregator {
  price_oracle_url : option string;
  oracle_post : string -> string -> option Z -> OracleReply
}.

(** [_get_fallback_price] *)
Definition fallback_prices : gmap string Q :=
  list_to_map
    [("ETH", 3000); ("BNB", 600); ("MATIC", 1); ("AVAX", 40); ("USDC", 1);
     ("USDT", 1); ("DAI", 1); ("WETH", 3000); ("WBNB", 600); ("WMATIC", 1)].

Definition _get_fallback_price (symbol : option string) : option Q :=
  match symbol with
  | Some s => fallback_prices !! s
  | None => None
  end.

(** [_get_token_price]: the oracle is asked only when a URL is configured
    and the token is not native; a 200 response returns its [price_usd]
    whatever it is; every other outcome falls through to the table. *)
Definition _get_token_price (self : Aggregator) (token_address : string)
    (chain : option Z) (symbol : option string) : option Q :=
  match price_oracle_url self with
  | Some url =>
      if Py.truthy_str (Some url) && negb (String.eqb token_address "native") then
        match oracle_post self url token_address chain with
        | OracleResponse 200 price => price
        | _ => _get_fallback_price symbol
        end
      else _get_fallback_price symbol
  | None => _get_fallback_price symbol
  end.

(** [balance.get("contract_address") or "native"] *)
Definition address_or_native (b : Balance) : string :=
  match contract_address b with
  | Some a => if Py.truthy_str (Some a) then a else "native"
  | None => "native"
  end.

(** [balance_copy] with the two keys set. *)
Definition with_price (b : Balance) (price value : option Q) : Balance :=
  {| chain_id := chain_id b; chain_name := chain_name b;
     token_type := token_type b; contract_address := contract_address b;
     symbol := symbol b; name := name b; balance := balance b;
     balance_wei := balance_wei b; balance_raw := balance_raw b;
     decimals := decimals b; error := error b;
     price_usd := price; value_usd := value |}.

(** The price that [_enrich_with_prices] resolves for one record. *)
Definition resolved_price (self : Aggregator) (b : Balance) : option Q :=
  _get_token_price self (address_or_native b) (chain_id b) (symbol b).

(** The body of the loop of [_enrich_with_prices]. *)
Definition enrich (self : Aggregator) (b : Balance) : Balance :=
  match resolved_price self b with
  | Some price =>
      if Py.truthy_num (balance b)
      then with_price b (Some price) (Some (price * default 0 (balance b)))
      else with_price b None (Some 0)
  | None => with_price b None (Some 0)
  end.

Definition _enrich_with_prices (self : Aggregator) (balances : list Balance)
    : list Balance :=
  map (enrich self) balances.

(** [b.get("value_usd", 0)] *)
Definition get_value (b : Balance) : Q := default 0 (value_usd b).

Definition is_type (t : string) (b : Balance) : bool :=
  bool_decide (token_type b = Some t).

Definition missing_price_msg (n : nat) : string :=
  "ℹ️ " +:+ Py.str_len n +:+ " token(s) missing price data - using fallback estimates".
Definition low_value_msg : string := "ℹ️ Portfolio value below $1 USD".
Definition concentration_msg : string :=
  "⚠️ Portfolio highly concentrated in single asset".
Definition no_valid_msg : string := "🚫 No valid balances found".
Definition failed_chains_msg (n : nat) : string :=
  "ℹ️ " +:+ Py.str_len n +:+ " chain(s) failed to fetch".

(** [b.get("price_usd") is None] *)
Definition no_price (b : Balance) : bool :=
  match price_usd b with None => true | Some _ => false end.

(** [_generate_warnings]: [warnings] starts empty and each of the three
    checks appends to it. *)
Definition _generate_warnings (balances : list Balance) (total_value : Q)
    : list string :=
  let warnings := [] in
  let no_price_count := length (List.filter no_price balances) in
  let warnings :=
    if (0 <? no_price_count)%nat
    then warnings ++ [missing_price_msg no_price_count] else warnings in
  let warnings :=
    if Qlt_le_dec total_value 1 then warnings ++ [low_value_msg] else warnings in
  let warnings :=
    match map get_value balances with
    | [] => warnings
    | v :: vs =>
        let max_value := Py.max_from v vs in
        if Qlt_le_dec 0 total_value then
          if Qlt_le_dec (9 # 10) (max_value / total_value)
          then warnings ++ [concentration_msg] else warnings
        else warnings
    end in
  warnings.

(** [_create_empty_portfolio] *)
Definition _create_empty_portfolio (wallet : string) (balances : list Balance)
    : PortfolioSummary :=
  let errors := map error (List.filter failed balances) in
  let warnings := [no_valid_msg] in
  let warnings :=
    match errors with
    | [] => warnings
    | _ :: _ => warnings ++ [failed_chains_msg (length errors)]
    end in
  {| wallet_address := wallet; total_value_usd := 0; chains_count := 0%nat;
     tokens_count := 0%nat; native_value_usd := 0; erc20_value_usd := 0;
     breakdown_by_chain := []; breakdown_by_token := [];
     warnings := warnings; timestamp := "" |}.

(** One iteration of the chain-grouping loop.  [balance["chain_id"]] raises
    [KeyError] on a dict without the key. *)
Definition default_chain_group : ChainGroup := mkChainGroup 0 "" 0 [].

Definition add_to_chain (b : Balance) (c : Z) (g : ChainGroup) : ChainGroup :=
  {| cg_chain_id := c;
     cg_chain_name := default ("Chain " +:+ Py.str_int c) (chain_name b);
     cg_value_usd := cg_value_usd g + get_value b;
     cg_tokens := cg_tokens g ++ [mkTokenEntry (symbol b) (balance b) (get_value b)] |}.

Definition chain_step (by_chain : list (Z * ChainGroup)) (b : Balance)
    : Py.exn + list (Z * ChainGroup) :=
  match chain_id b with
  | None => inl (Py.KeyError "chain_id")
  | Some c => inr (Py.upsert c default_chain_group (add_to_chain b c) by_chain)
  end.

Fixpoint group_by_chain (by_chain : list (Z * ChainGroup)) (bs : list Balance)
    : Py.exn + list (Z * ChainGroup) :=
  match bs with
  | [] => inr by_chain
  | b :: bs' =>
      match chain_step by_chain b with
      | inl e => inl e
      | inr by_chain' => group_by_chain by_chain' bs'
      end
  end.

(** One iteration of the token-grouping loop. *)
Definition default_token_group : TokenGroup := mkTokenGroup "" 0 0 [].

Definition symbol_key (b : Balance) : string := default "UNKNOWN" (symbol b).

Definition add_to_token (b : Balance) (g : TokenGroup) : TokenGroup :=
  {| tg_symbol := symbol_key b;
     tg_balance := tg_balance g + default 0 (balance b);
     tg_value_usd := tg_value_usd g + get_value b;
     tg_chains := tg_chains g ++ [chain_name b] |}.

Definition group_by_token (bs : list Balance) : list (string * TokenGroup) :=
  fold_left
    (fun by_token b => Py.upsert (symbol_key b) default_token_group (add_to_token b) by_token)
    bs [].

(** [len(set(b["chain_id"] for b in valid_balances))]; every valid record
    has the key where this line is reached, the grouping loop having read
    it before. *)
Definition count_chains (bs : list Balance) : nat :=
  size (list_to_set (omap chain_id bs) : gset Z).

(** [aggregate_portfolio] *)
Definition aggregate_portfolio (self : Aggregator) (wallet : string)
    (balances : list Balance) : Py.exn + PortfolioSummary :=
  let valid_balances := List.filter (fun b => negb (failed b)) balances in
  match valid_balances with
  | [] => inr (_create_empty_portfolio wallet balances)
  | _ :: _ =>
      let balances_with_prices := _enrich_with_prices self valid_balances in
      let total_value := Py.sum (map get_value balances_with_prices) in
      let native_value :=
        Py.sum (map get_value (List.filter (is_type "native") balances_with_prices)) in
      let erc20_value :=
        Py.sum (map get_value (List.filter (is_type "erc20") balances_with_prices)) in
      match group_by_chain [] balances_with_prices with
      | inl e => inl e
      | inr by_chain =>
          let breakdown_by_chain := Py.sorted_reverse cg_value_usd (Py.values by_chain) in
          let by_token := group_by_token balances_with_prices in
          let breakdown_by_token := Py.sorted_reverse tg_value_usd (Py.values by_token) in
          let warnings := _generate_warnings balances_with_prices total_value in
          inr {| wallet_address := wallet;
                 total_value_usd := Py.round2 total_value;
                 chains_count := count_chains valid_balances;
                 tokens_count := length valid_balances;
                 native_value_usd := Py.round2 native_value;
                 erc20_value_usd := Py.round2 erc20_value;
                 breakdown_by_chain := breakdown_by_chain;
                 breakdown_by_token := breakdown_by_token;
                 warnings := warnings;
                 timestamp := "" |}
      end
  end.

End PortfolioAggregator.

(** ** The aggregator on floats *)

(** [src/portfolio_aggregator.py] once more, with the amounts as the floats
    that they are: the model on which the relations between separately
    accumulated sums are settled. *)
Module FloatAggregator.

Import Float.

Local Open Scope list_scope.

(** A number of a JSON body or of a Python expression: an [int] or a
    [float]. *)
Inductive Number : Type :=
| PyInt (z : Z)
| PyFloat (f : float).

(** A balance dict, with the keys that the aggregator reads or writes;
    the other keys of a record are copied and never read. *)
Record Balance : Type := mkBalance {
  chain_id : option Z;
  chain_name : option string;
  token_type : option string;
  contract_address : option string;
  symbol : option string;
  balance : option float;
  error : option string;
  price_usd : option Number;
  value_usd : option float
}.

Definition failed (b : Balance) : bool := Py.truthy_str (error b).

Record TokenEntry : Type := mkTokenEntry {
  te_symbol : option string;
  te_balance : option float;
  te_value_usd : float
}.

Record ChainGroup : Type := mkChainGroup {
  cg_chain_id : Z;
  cg_chain_name : string;
  cg_value_usd : float;
  cg_tokens : list TokenEntry
}.

Record TokenGroup : Type := mkTokenGroup {
  tg_symbol : string;
  tg_balance : float;
  tg_value_usd : float;
  tg_chains : list (option string)
}.

Record PortfolioSummary : Type := mkPortfolioSummary {
  wallet_address : string;
  total_value_usd : float;
  chains_count : nat;
  tokens_count : nat;
  native_value_usd : float;
  erc20_value_usd : float;
  breakdown_by_chain : list ChainGroup;
  breakdown_by_token : list TokenGroup;
  warnings : list string;
  timestamp : string
}.

(** The outcome of the POST to the price oracle; [price] is the
    [price_usd] of the JSON body, a number or [null]. *)
Inductive OracleReply : Type :=
| OracleRaises
| OracleResponse (status : Z) (price : option Number).

(** [self], the HTTP capability behind [aiohttp], and the interpreter. *)
Record Aggregator : Type := mkAggregator {
  python : CPython;
  price_oracle_url : option string;
  oracle_post : string -> string -> option Z -> OracleReply
}.

(** [_get_fallback_price] *)
Definition fallback_prices : gmap string float :=
  list_to_map
    [("ETH", of_Z 3000); ("BNB", of_Z 600); ("MATIC", of_Z 1); ("AVAX", of_Z 40);
     ("USDC", of_Z 1); ("USDT", of_Z 1); ("DAI", of_Z 1); ("WETH", of_Z 3000);
     ("WBNB", of_Z 600); ("WMATIC", of_Z 1)].

Definition _get_fallback_price (symbol : option string) : option Number :=
  match symbol with
  | Some s => PyFloat <$> fallback_prices !! s
  | None => None
  end.

(** [_get_token_price] *)
Definition _get_token_price (self : Aggregator) (token_address : string)
    (chain : option Z) (symbol : option string) : option Number :=
  match price_oracle_url self with
  | Some url =>
      if Py.truthy_str (Some url) && negb (String.eqb token_address "native") then
        match oracle_post self url token_address chain with
        | OracleResponse 200 price => price
        | _ => _get_fallback_price symbol
        end
      else _get_fallback_price symbol
  | None => _get_fallback_price symbol
  end.

(** [balance.get("contract_address") or "native"] *)
Definition address_or_native (b : Balance) : string :=
  match contract_address b with
  | Some a => if Py.truthy_str (Some a) then a else "native"
  | None => "native"
  end.

(** [balance_copy] with the two keys set. *)
Definition with_price (b : Balance) (price : option Number) (value : float)
    : Balance :=
  {| chain_id := chain_id b; chain_name := chain_name b;
     token_type := token_type b; contract_address := contract_address b;
     symbol := symbol b; balance := balance b; error := error b;
     price_usd := price; value_usd := Some value |}.

Definition resolved_price (self : Aggregator) (b : Balance) : option Number :=
  _get_token_price self (address_or_native b) (chain_id b) (symbol b).

(** [balance.get("balance")] is truthy. *)
Definition has_balance (b : Balance) : bool :=
  match balance b with
  | Some x => truthy x
  | None => false
  end.

(** [price_usd * x]: an [int] price is converted to a float first, which
    raises [OverflowError] when it is too large. *)
Definition times (price : Number) (x : float) : Py.exn + float :=
  match price with
  | PyFloat p => inr (mul p x)
  | PyInt z =>
      match of_int z with
      | inl e => inl e
      | inr p => inr (mul p x)
      end
  end.

(** The body of the loop of [_enrich_with_prices]. *)
Definition enrich (self : Aggregator) (b : Balance) : Py.exn + Balance :=
  match resolved_price self b with
  | Some price =>
      if has_balance b then
        match times price (default zero (balance b)) with
        | inl e => inl e
        | inr value => inr (with_price b (Some price) value)
        end
      else inr (with_price b None zero)
  | None => inr (with_price b None zero)
  end.

Fixpoint _enrich_with_prices (self : Aggregator) (balances : list Balance)
    : Py.exn + list Balance :=
  match balances with
  | [] => inr []
  | b :: balances' =>
      match enrich self b with
      | inl e => inl e
      | inr b' =>
          match _enrich_with_prices self balances' with
          | inl e => inl e
          | inr enriched => inr (b' :: enriched)
          end
      end
  end.

(** [b.get("value_usd", 0)] *)
Definition get_value (b : Balance) : float := default zero (value_usd b).

(** [b.get("balance", 0)] *)
Definition get_balance (b : Balance) : float := default zero (balance b).

Definition is_type (t : string) (b : Balance) : bool :=
  bool_decide (token_type b = Some t).

Definition no_price (b : Balance) : bool :=
  match price_usd b with None => true | Some _ => false end.

(** The literal [0.9] *)
Definition nine_tenths : float := div (of_Z 9) (of_Z 10).

(** [_generate_warnings] *)
Definition _generate_warnings (balances : list Balance) (total_value : float)
    : list string :=
  let warnings := [] in
  let no_price_count := length (List.filter no_price balances) in
  let warnings :=
    if (0 <? no_price_count)%nat
    then warnings ++ [PortfolioAggregator.missing_price_msg no_price_count]
    else warnings in
  let warnings :=
    if ltb total_value (of_Z 1)
    then warnings ++ [PortfolioAggregator.low_value_msg] else warnings in
  let warnings :=
    match map get_value balances with
    | [] => warnings
    | v :: vs =>
        let max_value := max_from v vs in
        if ltb zero total_value && ltb nine_tenths (div max_value total_value)
        then warnings ++ [PortfolioAggregator.concentration_msg] else warnings
    end in
  warnings.

(** [_create_empty_portfolio] *)
Definition _create_empty_portfolio (wallet : string) (balances : list Balance)
    : PortfolioSummary :=
  let errors := map error (List.filter failed balances) in
  let warnings := [PortfolioAggregator.no_valid_msg] in
  let warnings :=
    match errors with
    | [] => warnings
    | _ :: _ => warnings ++ [PortfolioAggregator.failed_chains_msg (length errors)]
    end in
  {| wallet_address := wallet; total_value_usd := zero; chains_count := 0%nat;
     tokens_count := 0%nat; native_value_usd := zero; erc20_value_usd := zero;
     breakdown_by_chain := []; breakdown_by_token := [];
     warnings := warnings; timestamp := "" |}.

(** The loop that groups by chain; [balance["chain_id"]] raises [KeyError]
    on a dict without the key, and [+=] is the float addition. *)
Definition default_chain_group : ChainGroup := mkChainGroup 0 "" zero [].

Definition add_to_chain (b : Balance) (c : Z) (g : ChainGroup) : ChainGroup :=
  {| cg_chain_id := c;
     cg_chain_name := default ("Chain " +:+ Py.str_int c) (chain_name b);
     cg_value_usd := add (cg_value_usd g) (get_value b);
     cg_tokens := cg_tokens g ++ [mkTokenEntry (symbol b) (balance b) (get_value b)] |}.

Definition chain_step (by_chain : list (Z * ChainGroup)) (b : Balance)
    : Py.exn + list (Z * ChainGroup) :=
  match chain_id b with
  | None => inl (Py.KeyError "chain_id")
  | Some c => inr (Py.upsert c default_chain_group (add_to_chain b c) by_chain)
  end.

Fixpoint group_by_chain (by_chain : list (Z * ChainGroup)) (bs : list Balance)
    : Py.exn + list (Z * ChainGroup) :=
  match bs with
  | [] => inr by_chain
  | b :: bs' =>
      match chain_step by_chain b with
      | inl e => inl e
      | inr by_chain' => group_by_chain by_chain' bs'
      end
  end.

(** The loop that groups by symbol. *)
Definition default_token_group : TokenGroup := mkTokenGroup "" zero zero [].

Definition symbol_key (b : Balance) : string := default "UNKNOWN" (symbol b).

Definition add_to_token (b : Balance) (g : TokenGroup) : TokenGroup :=
  {| tg_symbol := symbol_key b;
     tg_balance := add (tg_balance g) (get_balance b);
     tg_value_usd := add (tg_value_usd g) (get_value b);
     tg_chains := tg_chains g ++ [chain_name b] |}.

Definition token_step (by_token : list (string * TokenGroup)) (b : Balance)
    : list (string * TokenGroup) :=
  Py.upsert (symbol_key b) default_token_group (add_to_token b) by_token.

Definition group_by_token (bs : list Balance) : list (string * TokenGroup) :=
  fold_left token_step bs [].

Definition count_chains (bs : list Balance) : nat :=
  size (list_to_set (omap chain_id bs) : gset Z).

(** [aggregate_portfolio] *)
Definition aggregate_portfolio (self : Aggregator) (wallet : string)
    (balances : list Balance) : Py.exn + PortfolioSummary :=
  let valid_balances := List.filter (fun b => negb (failed b)) balances in
  match valid_balances with
  | [] => inr (_create_empty_portfolio wallet balances)
  | _ :: _ =>
      match _enrich_with_prices self valid_balances with
      | inl e => inl e
      | inr balances_with_prices =>
          let total_value := sum (python self) (map get_value balances_with_prices) in
          let native_value :=
            sum (python self)
              (map get_value (List.filter (is_type "native") balances_with_prices)) in
          let erc20_value :=
            sum (python self)
              (map get_value (List.filter (is_type "erc20") balances_with_prices)) in
          match group_by_chain [] balances_with_prices with
          | inl e => inl e
          | inr by_chain =>
              let breakdown_by_chain :=
                sorted_reverse cg_value_usd (Py.values by_chain) in
              let by_token := group_by_token balances_with_prices in
              let breakdown_by_token :=
                sorted_reverse tg_value_usd (Py.values by_token) in
              let warnings := _generate_warnings balances_with_prices total_value in
              inr {| wallet_address := wallet;
                     total_value_usd := round2 total_value;
                     chains_count := count_chains valid_balances;
                     tokens_count := length valid_balances;
                     native_value_usd := round2 native_value;
                     erc20_value_usd := round2 erc20_value;
                     breakdown_by_chain := breakdown_by_chain;
                     breakdown_by_token := breakdown_by_token;
                     warnings := warnings;
                     timestamp := "" |}
          end
      end
  end.

End FloatAggregator.

(** ** The portfolio endpoint ([src/main.py]) *)

Module Main.

Import BalanceFetcher.

Local Open Scope list_scope.

(** [os.getenv(name, default)] on the environment of the process. *)
Definition getenv (env : gmap string string) (name dflt : string) : string :=
  default dflt (env !! name).

(** [RPC_URLS], a dict in the order of its literal. *)
Definition RPC_URLS (env : gmap string string) : list (Z * string) :=
  [(1, getenv env "ETHEREUM_RPC_URL" "https://eth.llamarpc.com");
   (56, getenv env "BSC_RPC_URL" "https://bsc-dataseed1.binance.org");
   (137, getenv env "POLYGON_RPC_URL" "https://polygon-rpc.com");
   (42161, getenv env "ARBITRUM_RPC_URL" "https://arb1.arbitrum.io/rpc");
   (10, getenv env "OPTIMISM_RPC_URL" "https://mainnet.optimism.io");
   (8453, getenv env "BASE_RPC_URL" "https://mainnet.base.org");
   (43114, getenv env "AVALANCHE_RPC_URL" "https://api.avax.network/ext/bc/C/rpc")]%Z.

Definition PRICE_ORACLE_URL (env : gmap string string) : string :=
  getenv env "PRICE_ORACLE_URL" "https://price-oracle-production-9e7c.up.railway.app".

(** What the process runs in: its environment variables, the nodes, the
    price oracle, and the reading [datetime.utcnow().isoformat()] of the
    clock. *)
Record World : Type := mkWorld {
  env : gmap string string;
  net : Network;
  oracle : string -> string -> option Z -> PortfolioAggregator.OracleReply;
  utcnow : string
}.

(** [balance_fetcher = BalanceFetcher(RPC_URLS)]: its [rpc_urls]. *)
Definition rpc_urls (w : World) : gmap Z string := list_to_map (RPC_URLS (env w)).

(** [portfolio_aggregator = PortfolioAggregator(PRICE_ORACLE_URL)] *)
Definition portfolio_aggregator (w : World) : PortfolioAggregator.Aggregator :=
  PortfolioAggregator.mkAggregator (Some (PRICE_ORACLE_URL (env w))) (oracle w).

(** [PortfolioRequest] *)
Record PortfolioRequest : Type := mkPortfolioRequest {
  wallet_address : string;
  chains : option (list Z);
  tokens : option (list string)
}.

(** [HTTPException(status_code=..., detail=...)] *)
Record HTTPException : Type := mkHTTPException {
  status_code : Z;
  detail : string
}.

(** [request.chains if request.chains else list(RPC_URLS.keys())] *)
Definition chains_to_check (w : World) (request : PortfolioRequest) : list Z :=
  match chains request with
  | Some ((_ :: _) as requested) => requested
  | _ => map fst (RPC_URLS (env w))
  end.

(** [chain_id in RPC_URLS] *)
Definition in_RPC_URLS (w : World) (chain : Z) : bool :=
  bool_decide (chain ∈ map fst (RPC_URLS (env w))).

(** The loop that builds [tasks]: one [get_wallet_tokens] per chain to
    check that is a key of [RPC_URLS]. *)
Definition tasks (w : World) (request : PortfolioRequest) : list (M (list Balance)) :=
  map (fun chain =>
         get_wallet_tokens (net w) (rpc_urls w) (wallet_address request) chain
           (tokens request))
      (List.filter (in_RPC_URLS w) (chains_to_check w request)).

(** [asyncio.gather] of the tasks, with [return_exceptions=True].  The
    coroutines of the fetcher never suspend (the calls of [web3] are
    synchronous), so that each task runs to its end when the loop first
    steps it, and the loop steps the tasks in the order in which [gather]
    created them.  What a task raises is its result. *)
Fixpoint gather {A} (ts : list (M A)) (st : State) : list (Py.exn + A) * State :=
  match ts with
  | [] => ([], st)
  | t :: ts' =>
      let '(result, st1) := t st in
      let '(results, st2) := gather ts' st1 in
      (result :: results, st2)
  end.

(** The loop that flattens [results] into [all_balances]. *)
Definition flatten (results : list (Py.exn + list Balance)) : list Balance :=
  fold_left
    (fun all_balances result =>
       match result with
       | inl _ => all_balances
       | inr balances => all_balances ++ balances
       end)
    results [].

(** [PortfolioResponse] has the fields of [PortfolioSummary]. *)
Definition PortfolioResponse : Type := PortfolioAggregator.PortfolioSummary.

(** [get_portfolio]: the body of the [try] returns the response; what it
    raises becomes the [HTTPException] of status 500. *)
Definition get_portfolio (w : World) (request : PortfolioRequest) (st : State)
    : (HTTPException + PortfolioResponse) * State :=
  let '(results, st') := gather (tasks w request) st in
  let all_balances := flatten results in
  match PortfolioAggregator.aggregate_portfolio (portfolio_aggregator w)
          (wallet_address request) all_balances with
  | inr portfolio =>
      let timestamp := utcnow w +:+ "Z" in
      (inr {| PortfolioAggregator.wallet_address :=
                PortfolioAggregator.wallet_address portfolio;
              PortfolioAggregator.total_value_usd :=
                PortfolioAggregator.total_value_usd portfolio;
              PortfolioAggregator.chains_count :=
                PortfolioAggregator.chains_count portfolio;
              PortfolioAggregator.tokens_count :=
                PortfolioAggregator.tokens_count portfolio;
              PortfolioAggregator.native_value_usd :=
                PortfolioAggregator.native_value_usd portfolio;
              PortfolioAggregator.erc20_value_usd :=
                PortfolioAggregator.erc20_value_usd portfolio;
              PortfolioAggregator.breakdown_by_chain :=
                PortfolioAggregator.breakdown_by_chain portfolio;
              PortfolioAggregator.breakdown_by_token :=
                PortfolioAggregator.breakdown_by_token portfolio;
              PortfolioAggregator.warnings := PortfolioAggregator.warnings portfolio;
              PortfolioAggregator.timestamp := timestamp |}, st')
  | inl e =>
      (inl (mkHTTPException 500 ("Portfolio fetch failed: " +:+ Py.str_exn e)), st')
  end.

End Main.

(** ** Vocabulary of the properties *)

(** *** Orders and first occurrences *)

Module Order.

Local Open Scope list_scope.
Local Open Scope Q_scope.

Section Keys.

Context {A : Type} (key : A -> Q).

(** [desc a b]: [a] may stand before [b] in a descending arrangement. *)
Definition desc (a b : A) : Prop := key b <= key a.

(** The elements of key [v], in the order in which the list has them. *)
Definition with_key (v : Q) (l : list A) : list A :=
  List.filter (fun a => Qeq_bool (key a) v) l.

End Keys.

Section Seen.

Context {K : Type} `{EqDecision K}.

(** The keys in the order in which a sequence first shows them, after the
    keys [seen] before. *)
Definition see (seen : list K) (k : K) : list K :=
  if decide (k ∈ seen) then seen else seen ++ [k].

Definition first_seen_from (seen : list K) (ks : list K) : list K :=
  fold_left see ks seen.

Definition first_seen (ks : list K) : list K := first_seen_from [] ks.

End Seen.

End Order.

(** *** The aggregator *)

Module AggregatorTerms.

Import PortfolioAggregator.

Local Open Scope list_scope.
Local Open Scope Q_scope.

(** The valid records of an input. *)
Definition valid_of (balances : list Balance) : list Balance :=
  List.filter (fun b => negb (failed b)) balances.

(** The enriched records that [aggregate_portfolio] works on. *)
Definition enriched_of (self : Aggregator) (balances : list Balance) : list Balance :=
  _enrich_with_prices self (valid_of balances).



(** [b] is a record of the largest value. *)
Definition largest (balances : list Balance) (b : Balance) : Prop :=
  In b balances /\ forall b', In b' balances -> get_value b' <= get_value b.

Definition chain_value_sum (d : list (Z * ChainGroup)) : Q :=
  Py.sum (map cg_value_usd (Py.values d)).

Definition chain_entries (d : list (Z * ChainGroup)) : nat :=
  list_sum (map (fun g => length (cg_tokens g)) (Py.values d)).

(** The entry that a record leaves in its chain group. *)
Definition entry_of (b : Balance) : TokenEntry :=
  mkTokenEntry (symbol b) (balance b) (get_value b).

(** [d] has the entry [e] in the group of chain [c]. *)
Definition has_entry (d : list (Z * ChainGroup)) (c : Z) (e : TokenEntry) : Prop :=
  exists g, In (c, g) d /\ In e (cg_tokens g).

Definition token_step (by_token : list (string * TokenGroup)) (b : Balance)
    : list (string * TokenGroup) :=
  Py.upsert (symbol_key b) default_token_group (add_to_token b) by_token.

Definition token_value_sum (d : list (string * TokenGroup)) : Q :=
  Py.sum (map tg_value_usd (Py.values d)).

Definition token_entries (d : list (string * TokenGroup)) : nat :=
  list_sum (map (fun g => length (tg_chains g)) (Py.values d)).

(** [d] lists the chain name [n] in the group of symbol [k]. *)
Definition has_chain (d : list (string * TokenGroup)) (k : string)
    (n : option string) : Prop :=
  exists g, In (k, g) d /\ In n (tg_chains g).

(** The groups of the two breakdowns before their sort, in the order in
    which the loops created them. *)
Definition chain_groups_of (self : Aggregator) (balances : list Balance)
    : list ChainGroup :=
  match group_by_chain [] (enriched_of self balances) with
  | inr by_chain => Py.values by_chain
  | inl _ => []
  end.

Definition token_groups_of (self : Aggregator) (balances : list Balance)
    : list TokenGroup :=
  Py.values (group_by_token (enriched_of self balances)).

End AggregatorTerms.

(** *** The fetcher *)

Module FetcherTerms.

Import BalanceFetcher.

Local Open Scope list_scope.

(** The shape that [_normalize_address] refuses. *)
Definition malformed (address : string) : Prop :=
  String.prefix "0x" (strip address) = false \/ String.length (strip address) <> 42%nat.

Definition invalid_address_msg (address : string) : string :=
  "Invalid address: " +:+ strip address.

(** The value of a metadata query: its answer, or the default when the
    query fails. *)
Definition answered {A} (dflt : A) (answer : Py.exn + A) : A :=
  match answer with
  | inr v => v
  | inl _ => dflt
  end.

(** A record with all the fields of a token balance and no error. *)
Definition populated (r : Balance) : Prop :=
  error r = None /\ token_type r = Some "erc20" /\ is_Some (balance r) /\
  is_Some (balance_raw r) /\ is_Some (decimals r) /\ is_Some (symbol r) /\
  is_Some (name r).

(** A record with an error and none of the balance fields. *)
Definition error_only (r : Balance) : Prop :=
  is_Some (error r) /\ token_type r = None /\ balance r = None /\
  balance_raw r = None /\ decimals r = None /\ symbol r = None /\ name r = None.

(** The token records that the loop appends. *)
Definition kept (r : Balance) : bool := negb (failed r) && positive_balance r.

Section Fetcher.

Variable net : Network.
Variable rpc_urls : gmap Z string.

(** The instance that [_get_w3] hands out, if any. *)
Definition w3_of (chain : Z) (st : State) : option Web3 :=
  match fst (_get_w3 net rpc_urls chain st) with
  | inr w3 => w3
  | inl _ => None
  end.

(** The message of the error record for a chain in state [st], when the
    first address to be normalized is [address] and is malformed. *)
Definition refusal (chain : Z) (st : State) (address : string) : string :=
  match w3_of chain st with
  | Some _ => invalid_address_msg address
  | None => not_supported_msg chain
  end.

(** [resolved wallet chain addresses st results st']: resolving the
    addresses one after the other from the state [st] yields the records
    [results], in that order, and the state [st']. *)
Inductive resolved (wallet_address : string) (chain : Z)
    : list string -> State -> list Balance -> State -> Prop :=
| resolved_nil (st : State) : resolved wallet_address chain [] st [] st
| resolved_cons (token_address : string) (rest : list string) (st st' st'' : State)
    (r : Balance) (rs : list Balance) :
    get_token_balance net rpc_urls wallet_address token_address chain st = (inr r, st') ->
    resolved wallet_address chain rest st' rs st'' ->
    resolved wallet_address chain (token_address :: rest) st (r :: rs) st''.

End Fetcher.

End FetcherTerms.

(** *** Outcomes of a resolution *)

Module ResolutionTerms.

Import BalanceFetcher.

Local Open Scope list_scope.

(** The record that [get_native_balance] builds for a balance of [wei]. *)
Definition native_record (chain : Z) (wei : N) : Balance :=
  {| chain_id := Some chain;
     chain_name :=
       Some (default (generic_name chain) (ci_name <$> CHAIN_CONFIG !! chain));
     token_type := Some "native";
     contract_address := None;
     symbol := Some (default "UNKNOWN" (ci_symbol <$> CHAIN_CONFIG !! chain));
     name := None;
     balance :=
       Some (scaled wei (default 18%Z (ci_decimals <$> CHAIN_CONFIG !! chain)));
     balance_wei := Some (Z.of_N wei);
     balance_raw := None;
     decimals := Some (default 18%Z (ci_decimals <$> CHAIN_CONFIG !! chain));
     error := None; price_usd := None; value_usd := None |}.

(** The record that [get_token_balance] builds for a raw balance and the
    three metadata values. *)
Definition token_record (chain : Z) (token_address : string) (raw : N) (dec : Z)
    (sym nam : string) : Balance :=
  {| chain_id := Some chain;
     chain_name :=
       Some (default (generic_name chain) (ci_name <$> CHAIN_CONFIG !! chain));
     token_type := Some "erc20";
     contract_address := Some (lower token_address);
     symbol := Some sym;
     name := Some nam;
     balance := Some (scaled raw dec);
     balance_wei := None;
     balance_raw := Some (Z.of_N raw);
     decimals := Some dec;
     error := None; price_usd := None; value_usd := None |}.

(** A state with the requests [new] sent after those of [st]. *)
Definition after (st : State) (new : list Request) : State :=
  mkState (w3_instances st) (sent st ++ new).

(** [cache_kept chain st st']: from [st] to [st'] no cached instance is
    lost or replaced, and no entry appears but, possibly, that of [chain]. *)
Definition cache_kept (chain : Z) (st st' : State) : Prop :=
  (forall c w, w3_instances st !! c = Some w -> w3_instances st' !! c = Some w) /\
  (forall c, c <> chain -> w3_instances st' !! c = w3_instances st !! c).

(** The four queries of a token resolution, in the order of the code. *)
Definition token_queries (w3 : Web3) (token wallet : string) : list Request :=
  [CallBalanceOf w3 token wallet; CallDecimals w3 token; CallSymbol w3 token;
   CallName w3 token].

(** A string of whitespace only. *)
Fixpoint all_space (s : string) : bool :=
  match s with
  | String c s' => is_space c && all_space s'
  | EmptyString => true
  end.

(** A string that does not start with whitespace. *)
Definition starts_clean (s : string) : Prop :=
  match s with
  | String c _ => is_space c = false
  | EmptyString => True
  end.

End ResolutionTerms.

(** *** The content of a group *)

Module GroupTerms.

Import PortfolioAggregator.

Local Open Scope list_scope.
Local Open Scope Q_scope.

(** The records of chain [c], in the order of the list. *)
Definition records_of_chain (c : Z) (bs : list Balance) : list Balance :=
  List.filter (fun b => bool_decide (chain_id b = Some c)) bs.

(** The records grouped under the symbol [k], in the order of the list. *)
Definition records_of_symbol (k : string) (bs : list Balance) : list Balance :=
  List.filter (fun b => bool_decide (symbol_key b = k)) bs.

(** [balance.get("balance", 0)] *)
Definition get_balance (b : Balance) : Q := default 0 (balance b).

(** The chain name that a record gives to its group. *)
Definition name_for (c : Z) (b : Balance) : string :=
  default ("Chain " +:+ Py.str_int c) (chain_name b).

(** What the group of chain [c] holds once the records [bs] are grouped. *)
Definition chain_group_of (c : Z) (bs : list Balance) (g : ChainGroup) : Prop :=
  let rs := records_of_chain c bs in
  cg_chain_id g = c /\
  cg_tokens g
  = map (fun b => mkTokenEntry (symbol b) (balance b) (get_value b)) rs /\
  cg_value_usd g == Py.sum (map get_value rs) /\
  (exists b, last rs = Some b /\ cg_chain_name g = name_for c b).

(** What the group of symbol [k] holds once the records [bs] are grouped. *)
Definition token_group_of (k : string) (bs : list Balance) (g : TokenGroup) : Prop :=
  let rs := records_of_symbol k bs in
  tg_symbol g = k /\ rs <> [] /\
  tg_chains g = map chain_name rs /\
  tg_balance g == Py.sum (map get_balance rs) /\
  tg_value_usd g == Py.sum (map get_value rs).

End GroupTerms.

(** *** Sums that do not round *)

Module FloatTerms.

Import Float FloatAggregator.

Local Open Scope list_scope.
Local Open Scope Q_scope.








(** The valid records of an input, and the enriched records that
    [aggregate_portfolio] works on. *)
Definition valid_of (balances : list Balance) : list Balance :=
  List.filter (fun b => negb (failed b)) balances.

Definition enriched_of (self : Aggregator) (balances : list Balance) : list Balance :=
  match _enrich_with_prices self (valid_of balances) with
  | inr enriched => enriched
  | inl _ => []
  end.



(** The records of a chain and of a symbol, in the order of the list. *)
Definition records_of_chain (c : Z) (bs : list Balance) : list Balance :=
  List.filter (fun b => bool_decide (chain_id b = Some c)) bs.

Definition records_of_symbol (k : string) (bs : list Balance) : list Balance :=
  List.filter (fun b => bool_decide (symbol_key b = k)) bs.

(** The entry that a record leaves in its chain group. *)
Definition entry_of (b : Balance) : TokenEntry :=
  mkTokenEntry (symbol b) (balance b) (get_value b).

(** What the group of chain [c] holds once the records [bs] are grouped:
    its value is what [+=] accumulated over the records of the chain. *)
Definition chain_group_of (c : Z) (bs : list Balance) (g : ChainGroup) : Prop :=
  let rs := records_of_chain c bs in
  cg_chain_id g = c /\
  cg_tokens g = map entry_of rs /\
  cg_value_usd g = fold_left add (map get_value rs) zero.

(** What the group of symbol [k] holds once the records [bs] are grouped. *)
Definition token_group_of (k : string) (bs : list Balance) (g : TokenGroup) : Prop :=
  let rs := records_of_symbol k bs in
  tg_symbol g = k /\
  tg_chains g = map chain_name rs /\
  tg_balance g = fold_left add (map get_balance rs) zero /\
  tg_value_usd g = fold_left add (map get_value rs) zero.



End FloatTerms.

(** ** Sample inputs *)

Module Samples.

Import PortfolioAggregator.

Local Open Scope list_scope.
Local Open Scope Q_scope.

(** An aggregator without a price oracle: prices come from the table. *)
Definition table_only : Aggregator := mkAggregator None (fun _ _ _ => OracleRaises).

Definition wallet : string := "0x1234567890123456789012345678901234567890".

(** A native record of chain 1, as [get_native_balance] builds it. *)
Definition eth (amount : Q) : Balance :=
  {| chain_id := Some 1%Z; chain_name := Some "Ethereum";
     token_type := Some "native"; contract_address := None;
     symbol := Some "ETH"; name := None; balance := Some amount;
     balance_wei := None; balance_raw := None; decimals := Some 18%Z;
     error := None; price_usd := None; value_usd := None |}.

(** A token record, as [get_token_balance] builds it. *)
Definition token (chain : Z) (chain_label sym : string) (amount : Q) : Balance :=
  {| chain_id := Some chain; chain_name := Some chain_label;
     token_type := Some "erc20";
     contract_address := Some "0xabcdef7890123456789012345678901234567890";
     symbol := Some sym; name := Some sym; balance := Some amount;
     balance_wei := None; balance_raw := None; decimals := Some 18%Z;
     error := None; price_usd := None; value_usd := None |}.

(** A failed record. *)
Definition timed_out (chain : Z) : Balance :=
  mkBalance (Some chain) None None None None None None None None None
    (Some "timed out") None None.

Definition holdings : list Balance :=
  [eth 2; timed_out 10; token 56 "BNB Chain" "USDC" (1 # 3);
   token 1 "Ethereum" "FOO" 5; token 56 "BNB Chain" "DAI" (1 # 3)].

Definition summary_of (balances : list Balance) : PortfolioSummary :=
  match aggregate_portfolio table_only wallet balances with
  | inr s => s
  | inl _ => _create_empty_portfolio wallet []
  end.

Definition holdings_summary : PortfolioSummary :=
  Eval vm_compute in summary_of holdings.

(** A node that answers the balance queries and the symbol query, and
    fails the other metadata queries. *)
Definition node : BalanceFetcher.Network :=
  BalanceFetcher.mkNetwork
    (fun url => inr (BalanceFetcher.mkWeb3 url))
    (fun _ _ => None)
    (fun _ r =>
       match r with
       | BalanceFetcher.EthGetBalance _ _ => inr 2500000000000000000%N
       | BalanceFetcher.CallBalanceOf _ _ _ => inr 1500000%N
       | _ => inl (Py.Exception "execution reverted")
       end)
    (fun _ r =>
       match r with
       | BalanceFetcher.CallSymbol _ _ => inr "USDC"
       | _ => inl (Py.Exception "execution reverted")
       end).

(** A node that fails every query. *)
Definition dead_node : BalanceFetcher.Network :=
  BalanceFetcher.mkNetwork
    (fun url => inr (BalanceFetcher.mkWeb3 url))
    (fun _ _ => None)
    (fun _ _ => inl (Py.Exception "connection refused"))
    (fun _ _ => inl (Py.Exception "connection refused")).

Definition endpoints : gmap Z string := {[ 1%Z := "https://eth.example" ]}.

Definition fresh : BalanceFetcher.State := BalanceFetcher.mkState ∅ [].

Definition usdc : string := "0xABCDEF7890123456789012345678901234567890".

(** The state of a fetcher that has connected to chain 1 and sent nothing. *)
Definition connected : BalanceFetcher.State :=
  BalanceFetcher.mkState {[ 1%Z := BalanceFetcher.mkWeb3 "https://eth.example" ]} [].

(** A node whose balance query fails with an exception without message. *)
Definition silent_node : BalanceFetcher.Network :=
  BalanceFetcher.mkNetwork
    (fun url => inr (BalanceFetcher.mkWeb3 url))
    (fun _ _ => None)
    (fun _ _ => inl (Py.Exception EmptyString))
    (fun _ _ => inl (Py.Exception EmptyString)).

End Samples.

(** ** Further sample inputs *)

Module Scenarios.

Import PortfolioAggregator.

Local Open Scope list_scope.
Local Open Scope Q_scope.

(** An aggregator whose oracle answers every request with status 200 and
    no price. *)
Definition priceless : Aggregator :=
  mkAggregator (Some "https://oracle.example")
    (fun _ _ _ => OracleResponse 200 None).

Definition usdc_address : string := "0xabcdef7890123456789012345678901234567890".

(** A stablecoin record on chain 56. *)
Definition usdc_on_bnb : Balance := Samples.token 56 "BNB Chain" "USDC" (1 # 3).

(** The first group of each breakdown of the sample holdings. *)
Definition first_chain_group : ChainGroup :=
  Eval vm_compute in
    hd default_chain_group (breakdown_by_chain Samples.holdings_summary).

Definition first_token_group : TokenGroup :=
  Eval vm_compute in
    hd default_token_group (breakdown_by_token Samples.holdings_summary).

(** The wallet address with whitespace around it. *)
Definition padded_wallet : string := "  " +:+ Samples.wallet +:+ " ".

(** The state after a native resolution on the sample node. *)
Definition asked_once : BalanceFetcher.State :=
  BalanceFetcher.mkState
    {[ 1%Z := BalanceFetcher.mkWeb3 "https://eth.example" ]}
    [BalanceFetcher.EthGetBalance (BalanceFetcher.mkWeb3 "https://eth.example")
       Samples.wallet].

(** The state after a token resolution on the sample node. *)
Definition asked_token : BalanceFetcher.State :=
  BalanceFetcher.mkState
    {[ 1%Z := BalanceFetcher.mkWeb3 "https://eth.example" ]}
    (ResolutionTerms.token_queries (BalanceFetcher.mkWeb3 "https://eth.example")
       Samples.usdc Samples.wallet).

(** A process with the default environment, the sample node, an oracle
    that is down, and a clock. *)
Definition world : Main.World :=
  Main.mkWorld ∅ Samples.node (fun _ _ _ => OracleRaises) "2024-01-01T00:00:00".

(** A request for a chain that is not configured. *)
Definition unknown_chain_request : Main.PortfolioRequest :=
  Main.mkPortfolioRequest Samples.wallet (Some [999%Z]) None.



End Scenarios.

(** ** Sample inputs with float amounts *)

Module FloatSamples.

Import Float FloatAggregator.

Local Open Scope list_scope.

(** An aggregator without a price oracle, on either interpreter. *)
Definition table_only (python : CPython) : Aggregator :=
  mkAggregator python None (fun _ _ _ => OracleRaises).

(** A native record, as [get_native_balance] builds it. *)
Definition native (chain : Z) (chain_label sym : string) (amount : float) : Balance :=
  {| chain_id := Some chain; chain_name := Some chain_label;
     token_type := Some "native"; contract_address := None;
     symbol := Some sym; balance := Some amount; error := None;
     price_usd := None; value_usd := None |}.

(** A token record, as [get_token_balance] builds it. *)
Definition token (chain : Z) (chain_label sym : string) (amount : float) : Balance :=
  {| chain_id := Some chain; chain_name := Some chain_label;
     token_type := Some "erc20";
     contract_address := Some "0xabcdef7890123456789012345678901234567890";
     symbol := Some sym; balance := Some amount; error := None;
     price_usd := None; value_usd := None |}.

(** The floats 1.0, 1.5 and 0.25, and the float [2^42]. *)
Definition one : float := of_Z 1.
Definition three_halves : float := div (of_Z 3) (of_Z 2).
Definition quarter : float := div (of_Z 1) (of_Z 4).



(** Holdings whose values add up without rounding. *)
Definition holdings : list Balance :=
  [native 1 "Ethereum" "ETH" three_halves; token 1 "Ethereum" "USDC" quarter;
   native 137 "Polygon" "MATIC" one; token 137 "Polygon" "USDC" three_halves].

(** The summary of the aggregator without oracle. *)
Definition summary_of (python : CPython) (balances : list Balance) : PortfolioSummary :=
  match aggregate_portfolio (table_only python) Samples.wallet balances with
  | inr s => s
  | inl _ => _create_empty_portfolio Samples.wallet []
  end.

Definition holdings_summary : PortfolioSummary :=
  Eval vm_compute in summary_of from_3_12 holdings.

End FloatSamples.

(** * Properties *)

(** ** Sums, maxima, rounding and sorting *)

Module PyFacts.

Import Order.

Local Open Scope list_scope.
Local Open Scope Q_scope.

Lemma fold_left_Qplus (xs : list Q) (a : Q) :
  fold_left Qplus xs a == a + fold_right Qplus 0 xs.
Proof.
  revert a. induction xs as [|x xs IH]; intros a; simpl.
  - lra.
  - rewrite IH. lra.
Qed.

Lemma sum_nil : Py.sum [] == 0.
Proof. reflexivity. Qed.

Lemma sum_cons (x : Q) (xs : list Q) : Py.sum (x :: xs) == x + Py.sum xs.
Proof.
  unfold Py.sum. simpl. rewrite !fold_left_Qplus. lra.
Qed.


(** A sum splits along any boolean test. *)
Lemma sum_partition {A} (f : A -> Q) (p : A -> bool) (l : list A) :
  Py.sum (map f l)
  == Py.sum (map f (List.filter p l))
     + Py.sum (map f (List.filter (fun a => negb (p a)) l)).
Proof.
  induction l as [|a l IH]; simpl.
  - rewrite sum_nil. lra.
  - destruct (p a); simpl; rewrite !sum_cons, IH; lra.
Qed.




(** [round] moves its argument by at most one half. *)
Lemma round_half_even_close (x : Q) :
  Qabs (inject_Z (Py.round_half_even x) - x) <= 1 # 2.
Proof.
  unfold Py.round_half_even.
  pose proof (Qfloor_le x) as Hlo.
  pose proof (Qlt_floor x) as Hhi.
  rewrite inject_Z_plus in Hhi. change (inject_Z 1) with 1 in Hhi.
  apply Qabs_Qle_condition.
  destruct (x - inject_Z (Qfloor x) ?= 1 # 2) eqn:Hc.
  - apply Qeq_alt in Hc.
    destruct (Z.even (Qfloor x)); rewrite ?inject_Z_plus;
      change (inject_Z 1) with 1; lra.
  - apply Qlt_alt in Hc. lra.
  - apply Qgt_alt in Hc. rewrite inject_Z_plus. change (inject_Z 1) with 1. lra.
Qed.

Lemma round2_cents (x : Q) :
  Py.round2 x * 100 == inject_Z (Py.round_half_even (x * 100)).
Proof. unfold Py.round2. field. Qed.

Lemma round2_close (x : Q) : Qabs (Py.round2 x - x) <= 1 # 200.
Proof.
  pose proof (round_half_even_close (x * 100)) as H.
  rewrite <- round2_cents in H.
  apply Qabs_Qle_condition in H. apply Qabs_Qle_condition. lra.
Qed.


(** *** The stable descending sort *)

Section Sorting.

Context {A : Type} (key : A -> Q).

Lemma insert_desc_Permutation (x : A) (l : list A) :
  Permutation (x :: l) (Py.insert_desc key x l).
Proof.
  induction l as [|y l IH]; simpl.
  - reflexivity.
  - destruct (Qlt_le_dec (key x) (key y)).
    + rewrite perm_swap. apply perm_skip. exact IH.
    + reflexivity.
Qed.

Lemma sorted_reverse_Permutation (l : list A) :
  Permutation l (Py.sorted_reverse key l).
Proof.
  induction l as [|x l IH]; simpl.
  - reflexivity.
  - rewrite <- insert_desc_Permutation. apply perm_skip. exact IH.
Qed.

Lemma insert_desc_sorted (x : A) (l : list A) :
  StronglySorted (desc key) l -> StronglySorted (desc key) (Py.insert_desc key x l).
Proof.
  induction 1 as [|y l Hl IH Hy]; simpl.
  - repeat constructor.
  - destruct (Qlt_le_dec (key x) (key y)) as [Hlt|Hle].
    + constructor; [exact IH|].
      rewrite <- insert_desc_Permutation. constructor; [|exact Hy].
      unfold desc. lra.
    + constructor; [constructor; assumption|].
      constructor; [exact Hle|].
      eapply Forall_impl; [exact Hy|].
      unfold desc. intros z Hz. simpl in Hz. lra.
Qed.

Lemma sorted_reverse_sorted (l : list A) :
  StronglySorted (desc key) (Py.sorted_reverse key l).
Proof.
  induction l as [|x l IH]; simpl.
  - constructor.
  - apply insert_desc_sorted. exact IH.
Qed.

Lemma insert_desc_with_key (v : Q) (x : A) (l : list A) :
  with_key key v (Py.insert_desc key x l) = with_key key v (x :: l).
Proof.
  unfold with_key. induction l as [|y l IH]; simpl.
  - reflexivity.
  - destruct (Qlt_le_dec (key x) (key y)) as [Hlt|Hle]; [|reflexivity].
    simpl in *. rewrite IH.
    destruct (Qeq_bool (key x) v) eqn:Hx; [|reflexivity].
    destruct (Qeq_bool (key y) v) eqn:Hy; [|reflexivity].
    apply Qeq_bool_iff in Hx, Hy. lra.
Qed.

Lemma sorted_reverse_stable (v : Q) (l : list A) :
  with_key key v (Py.sorted_reverse key l) = with_key key v l.
Proof.
  induction l as [|x l IH]; simpl.
  - reflexivity.
  - rewrite insert_desc_with_key. unfold with_key in *. simpl.
    rewrite IH. reflexivity.
Qed.

Lemma with_key_In (v : Q) (a : A) (l : list A) :
  In a (with_key key v l) <-> In a l /\ key a == v.
Proof.
  unfold with_key. rewrite filter_In, Qeq_bool_iff. reflexivity.
Qed.

(** A descending arrangement that keeps, for every key, the elements of
    that key in their order is determined: there is one stable sort. *)
Lemma stable_sorted_unique (l1 l2 : list A) :
  StronglySorted (desc key) l1 -> StronglySorted (desc key) l2 ->
  (forall v, with_key key v l1 = with_key key v l2) -> l1 = l2.
Proof.
  intros H1. revert l2.
  induction H1 as [|a l1 Hs1 IH Ha]; intros l2 H2 Hst.
  - destruct l2 as [|b l2]; [reflexivity|].
    specialize (Hst (key b)). unfold with_key in Hst. simpl in Hst.
    rewrite (proj2 (Qeq_bool_iff _ _) (Qeq_refl (key b))) in Hst. discriminate.
  - destruct H2 as [|b l2 Hs2 Hb].
    + specialize (Hst (key a)). unfold with_key in Hst. simpl in Hst.
      rewrite (proj2 (Qeq_bool_iff _ _) (Qeq_refl (key a))) in Hst. discriminate.
    + assert (Hab : a = b).
      { pose proof (Hst (key a)) as Ea. pose proof (Hst (key b)) as Eb.
        unfold with_key in Ea, Eb. simpl in Ea, Eb.
        rewrite (proj2 (Qeq_bool_iff _ _) (Qeq_refl (key a))) in Ea.
        rewrite (proj2 (Qeq_bool_iff _ _) (Qeq_refl (key b))) in Eb.
        destruct (Qeq_bool (key b) (key a)) eqn:Hba.
        - congruence.
        - destruct (Qeq_bool (key a) (key b)) eqn:Hab.
          { apply Qeq_bool_iff in Hab. apply Qeq_bool_neq in Hba.
            exfalso. apply Hba. symmetry. exact Hab. }
          assert (Hin_a : In a l2).
          { apply (proj1 (with_key_In (key a) a l2)). unfold with_key.
            rewrite <- Ea. left. reflexivity. }
          assert (Hin_b : In b l1).
          { apply (proj1 (with_key_In (key b) b l1)). unfold with_key.
            rewrite Eb. left. reflexivity. }
          rewrite Forall_forall in Ha, Hb.
          pose proof (Ha b ltac:(apply list_elem_of_In; exact Hin_b)) as Hle1.
          pose proof (Hb a ltac:(apply list_elem_of_In; exact Hin_a)) as Hle2.
          unfold desc in Hle1, Hle2. apply Qeq_bool_neq in Hba.
          exfalso. apply Hba. lra. }
      subst b. f_equal. apply IH; [exact Hs2|].
      intros v. specialize (Hst v). unfold with_key in *. simpl in Hst.
      destruct (Qeq_bool (key a) v); congruence.
Qed.

(** Hence [Py.sorted_reverse] is the stable sort, however it is computed. *)
Lemma sorted_reverse_characterised (l l' : list A) :
  StronglySorted (desc key) l' -> (forall v, with_key key v l' = with_key key v l) ->
  l' = Py.sorted_reverse key l.
Proof.
  intros Hs Hst. apply stable_sorted_unique.
  - exact Hs.
  - apply sorted_reverse_sorted.
  - intros v. rewrite sorted_reverse_stable. apply Hst.
Qed.

End Sorting.

(** *** Insertion-ordered dictionaries *)

Section Upsert.

Context {K V : Type} `{EqDecision K}.

Lemma upsert_keys (k : K) (dflt : V) (f : V -> V) (d : list (K * V)) :
  map fst (Py.upsert k dflt f d) = see (map fst d) k.
Proof.
  unfold see. induction d as [|[k' v] d IH]; simpl.
  - destruct (decide (k ∈ [])) as [Hin|_]; [inversion Hin | reflexivity].
  - destruct (decide (k = k')) as [->|Hne]; simpl.
    + destruct (decide (k' ∈ k' :: map fst d)) as [_|Hn];
        [reflexivity | exfalso; apply Hn; left].
    + rewrite IH.
      destruct (decide (k ∈ map fst d)) as [Hin|Hnin];
        destruct (decide (k ∈ k' :: map fst d)) as [Hin'|Hnin'];
        try reflexivity.
      * exfalso. apply Hnin'. right. exact Hin.
      * apply elem_of_cons in Hin'. destruct Hin' as [->|Hin']; [congruence | contradiction].
Qed.

Lemma see_NoDup (seen : list K) (k : K) : NoDup seen -> NoDup (see seen k).
Proof.
  intros Hnd. unfold see. destruct (decide (k ∈ seen)) as [Hin|Hnin]; [exact Hnd|].
  apply NoDup_app. split; [exact Hnd|]. split.
  - intros x Hx Hx'. apply list_elem_of_singleton in Hx'. subst x. contradiction.
  - apply NoDup_singleton.
Qed.

Lemma first_seen_from_NoDup (ks seen : list K) :
  NoDup seen -> NoDup (first_seen_from seen ks).
Proof.
  unfold first_seen_from. revert seen.
  induction ks as [|k ks IH]; intros seen Hnd; simpl; [exact Hnd|].
  apply IH, see_NoDup, Hnd.
Qed.

Lemma see_elem_of (seen : list K) (k x : K) : x ∈ see seen k <-> x ∈ seen \/ x = k.
Proof.
  unfold see. destruct (decide (k ∈ seen)) as [Hin|Hnin].
  - split; [auto|]. intros [H| ->]; assumption.
  - rewrite elem_of_app, list_elem_of_singleton. reflexivity.
Qed.

Lemma first_seen_from_elem_of (ks seen : list K) (x : K) :
  x ∈ first_seen_from seen ks <-> x ∈ seen \/ x ∈ ks.
Proof.
  unfold first_seen_from. revert seen.
  induction ks as [|k ks IH]; intros seen; simpl.
  - split; [auto|]. intros [H|H]; [exact H | inversion H].
  - rewrite IH, see_elem_of, elem_of_cons. intuition congruence.
Qed.

(** A quantity [m] of the values that an update raises by [x], and that
    is zero on the default value, has its sum raised by [x]. *)
Lemma upsert_sum (m : V -> Q) (k : K) (dflt : V) (f : V -> V) (x : Q)
    (d : list (K * V)) :
  m dflt == 0 -> (forall v, m (f v) == m v + x) ->
  Py.sum (map m (Py.values (Py.upsert k dflt f d)))
  == Py.sum (map m (Py.values d)) + x.
Proof.
  intros Hd Hf. unfold Py.values. induction d as [|[k' v] d IH]; simpl.
  - rewrite sum_cons, !sum_nil, Hf, Hd. lra.
  - destruct (decide (k = k')) as [->|Hne]; simpl.
    + rewrite !sum_cons, Hf. lra.
    + rewrite !sum_cons, IH. lra.
Qed.

(** The same for a size, such as the length of a list in the value. *)
Lemma upsert_size (m : V -> nat) (k : K) (dflt : V) (f : V -> V)
    (d : list (K * V)) :
  m dflt = 0%nat -> (forall v, m (f v) = S (m v)) ->
  list_sum (map m (Py.values (Py.upsert k dflt f d)))
  = S (list_sum (map m (Py.values d))).
Proof.
  intros Hd Hf. unfold Py.values. induction d as [|[k' v] d IH]; simpl.
  - rewrite Hf, Hd. reflexivity.
  - destruct (decide (k = k')) as [->|Hne]; simpl.
    + rewrite Hf. reflexivity.
    + rewrite IH. lia.
Qed.

(** After the update the key is bound, to an updated value. *)
Lemma upsert_bound (k : K) (dflt : V) (f : V -> V) (d : list (K * V)) :
  exists v, In (k, f v) (Py.upsert k dflt f d).
Proof.
  induction d as [|[k' v] d IH]; simpl.
  - exists dflt. left. reflexivity.
  - destruct (decide (k = k')) as [->|Hne].
    + exists v. left. reflexivity.
    + destruct IH as [v' Hv']. exists v'. right. exact Hv'.
Qed.

(** An invariant of all values that the default has and the update keeps
    holds after the update of every value under [k], and an invariant of
    the bindings is kept when the update keeps it for [k]. *)
Lemma upsert_Forall (P : K -> V -> Prop) (k : K) (dflt : V) (f : V -> V)
    (d : list (K * V)) :
  (forall v, (v = dflt \/ P k v) -> P k (f v)) ->
  Forall (fun kv => P (fst kv) (snd kv)) d ->
  Forall (fun kv => P (fst kv) (snd kv)) (Py.upsert k dflt f d).
Proof.
  intros Hf. induction 1 as [|[k' v] d Hkv Hd IH]; simpl.
  - constructor; [|constructor]. simpl. apply Hf. left. reflexivity.
  - destruct (decide (k = k')) as [->|Hne].
    + constructor; [|exact Hd]. simpl in *. apply Hf. right. exact Hkv.
    + constructor; [exact Hkv | exact IH].
Qed.

(** A binding survives an update, with its value kept or, under the
    updated key, updated. *)
Lemma upsert_preserves (k k' : K) (dflt v : V) (f : V -> V) (d : list (K * V)) :
  In (k', v) d ->
  exists v', In (k', v') (Py.upsert k dflt f d) /\ (v' = v \/ v' = f v).
Proof.
  induction d as [|[k0 v0] d IH]; simpl; [intros []|].
  intros [Heq|Hin].
  - injection Heq as -> ->. destruct (decide (k = k')) as [->|Hne].
    + exists (f v). split; [left; reflexivity | right; reflexivity].
    + exists v. split; [left; reflexivity | left; reflexivity].
  - destruct (decide (k = k0)) as [->|Hne].
    + exists v. split; [right; exact Hin | left; reflexivity].
    + destruct (IH Hin) as (v' & Hv' & Hor). exists v'. split; [right; exact Hv' | exact Hor].
Qed.

End Upsert.

End PyFacts.

(** ** The aggregator *)

Module AggregatorProofs.

Import PortfolioAggregator Order AggregatorTerms PyFacts.

Local Open Scope list_scope.
Local Open Scope Q_scope.

(** *** Enrichment *)

Lemma enrich_token_type (self : Aggregator) (b : Balance) :
  token_type (enrich self b) = token_type b.
Proof.
  unfold enrich. destruct (resolved_price self b); [destruct (Py.truthy_num _)|];
    reflexivity.
Qed.

Lemma enrich_chain_id (self : Aggregator) (b : Balance) :
  chain_id (enrich self b) = chain_id b.
Proof.
  unfold enrich. destruct (resolved_price self b); [destruct (Py.truthy_num _)|];
    reflexivity.
Qed.

Lemma enrich_symbol (self : Aggregator) (b : Balance) :
  symbol (enrich self b) = symbol b.
Proof.
  unfold enrich. destruct (resolved_price self b); [destruct (Py.truthy_num _)|];
    reflexivity.
Qed.

Lemma enrich_balance (self : Aggregator) (b : Balance) :
  balance (enrich self b) = balance b.
Proof.
  unfold enrich. destruct (resolved_price self b); [destruct (Py.truthy_num _)|];
    reflexivity.
Qed.

Lemma enrich_chain_name (self : Aggregator) (b : Balance) :
  chain_name (enrich self b) = chain_name b.
Proof.
  unfold enrich. destruct (resolved_price self b); [destruct (Py.truthy_num _)|];
    reflexivity.
Qed.

Lemma enrich_with_prices_length (self : Aggregator) (bs : list Balance) :
  length (_enrich_with_prices self bs) = length bs.
Proof. unfold _enrich_with_prices. apply length_map. Qed.

(** *** The shape of a returned summary *)

(** Without a valid record the summary is the empty one. *)
Lemma aggregate_no_valid (self : Aggregator) (wallet : string)
    (balances : list Balance) :
  valid_of balances = [] ->
  aggregate_portfolio self wallet balances
  = inr (_create_empty_portfolio wallet balances).
Proof.
  unfold aggregate_portfolio, valid_of. intros ->. reflexivity.
Qed.

(** With one, a returned summary is built from the grouping of the
    enriched records. *)
Lemma aggregate_some_valid (self : Aggregator) (wallet : string)
    (balances : list Balance) (s : PortfolioSummary) :
  valid_of balances <> [] ->
  aggregate_portfolio self wallet balances = inr s ->
  exists by_chain,
    group_by_chain [] (enriched_of self balances) = inr by_chain /\
    s = {| wallet_address := wallet;
           total_value_usd :=
             Py.round2 (Py.sum (map get_value (enriched_of self balances)));
           chains_count := count_chains (valid_of balances);
           tokens_count := length (valid_of balances);
           native_value_usd :=
             Py.round2 (Py.sum (map get_value
               (List.filter (is_type "native") (enriched_of self balances))));
           erc20_value_usd :=
             Py.round2 (Py.sum (map get_value
               (List.filter (is_type "erc20") (enriched_of self balances))));
           breakdown_by_chain :=
             Py.sorted_reverse cg_value_usd (Py.values by_chain);
           breakdown_by_token :=
             Py.sorted_reverse tg_value_usd
               (Py.values (group_by_token (enriched_of self balances)));
           warnings :=
             _generate_warnings (enriched_of self balances)
               (Py.sum (map get_value (enriched_of self balances)));
           timestamp := "" |}.
Proof.
  unfold aggregate_portfolio, enriched_of, valid_of. intros Hne Hs.
  destruct (List.filter _ balances) as [|b bs] eqn:Hv; [congruence|].
  destruct (group_by_chain [] _) as [e|by_chain] eqn:Hg; [discriminate|].
  exists by_chain. split; [reflexivity|]. congruence.
Qed.



(** *** Totals *)

Lemma valid_of_In (balances : list Balance) (b : Balance) :
  In b (valid_of balances) <-> In b balances /\ failed b = false.
Proof.
  unfold valid_of. rewrite filter_In. destruct (failed b); simpl; intuition congruence.
Qed.

(** *** No valid record *)

Lemma all_failed_no_valid (balances : list Balance) :
  (forall b, In b balances -> failed b = true) -> valid_of balances = [].
Proof.
  intros H. unfold valid_of. induction balances as [|b bs IH]; simpl; [reflexivity|].
  rewrite (H b) by (left; reflexivity). simpl. apply IH.
  intros b' Hb'. apply H. right. exact Hb'.
Qed.

(** C3. On an input without a valid record, the empty list included, a
    summary is returned: the three totals and the two counts are zero, the
    breakdowns are empty, and the warnings are the no-valid-balances
    message, followed by the message with the count of failed records
    exactly when there is a failed record. *)
Theorem no_valid_record_gives_empty_summary (self : Aggregator) (wallet : string)
    (balances : list Balance) :
  (forall b, In b balances -> failed b = true) ->
  exists s,
    aggregate_portfolio self wallet balances = inr s /\
    total_value_usd s = 0 /\ native_value_usd s = 0 /\ erc20_value_usd s = 0 /\
    chains_count s = 0%nat /\ tokens_count s = 0%nat /\
    breakdown_by_chain s = [] /\ breakdown_by_token s = [] /\
    In "🚫 No valid balances found" (warnings s) /\
    warnings s
    = "🚫 No valid balances found"
      :: match length (List.filter failed balances) with
         | O => []
         | S _ as n => ["ℹ️ " +:+ Py.str_len n +:+ " chain(s) failed to fetch"]
         end.
Proof.
  intros Hall. exists (_create_empty_portfolio wallet balances).
  split; [apply aggregate_no_valid, all_failed_no_valid, Hall|].
  unfold _create_empty_portfolio. cbn [total_value_usd native_value_usd
    erc20_value_usd chains_count tokens_count breakdown_by_chain
    breakdown_by_token warnings].
  repeat (split; [reflexivity|]).
  rewrite length_map.
  destruct (List.filter failed balances) as [|b bs]; simpl.
  - split; [left; reflexivity | reflexivity].
  - split; [left; reflexivity | reflexivity].
Qed.

(** *** Warnings *)





(** *** Grouping by chain *)

Lemma chain_step_inv (acc acc' : list (Z * ChainGroup)) (b : Balance) :
  chain_step acc b = inr acc' ->
  exists c, chain_id b = Some c /\
    acc' = Py.upsert c default_chain_group (add_to_chain b c) acc.
Proof.
  unfold chain_step. destruct (chain_id b) as [c|]; [|discriminate].
  intros [= <-]. eauto.
Qed.

Lemma has_entry_step (acc : list (Z * ChainGroup)) (b : Balance) (c c' : Z)
    (e : TokenEntry) :
  has_entry acc c' e ->
  has_entry (Py.upsert c default_chain_group (add_to_chain b c) acc) c' e.
Proof.
  intros (g & Hin & He).
  destruct (upsert_preserves c c' default_chain_group g (add_to_chain b c) acc Hin)
    as (g' & Hin' & [-> | ->]).
  - exists g. auto.
  - exists (add_to_chain b c g). split; [exact Hin'|].
    simpl. apply in_or_app. left. exact He.
Qed.

Lemma has_entry_new (acc : list (Z * ChainGroup)) (b : Balance) (c : Z) :
  has_entry (Py.upsert c default_chain_group (add_to_chain b c) acc) c (entry_of b).
Proof.
  destruct (upsert_bound c default_chain_group (add_to_chain b c) acc) as (g & Hg).
  exists (add_to_chain b c g). split; [exact Hg|].
  simpl. apply in_or_app. right. left. reflexivity.
Qed.

Lemma group_by_chain_spec (bs : list Balance) (acc by_chain : list (Z * ChainGroup)) :
  group_by_chain acc bs = inr by_chain ->
  Forall (fun b => chain_id b <> None) bs /\
  map fst by_chain = first_seen_from (map fst acc) (omap chain_id bs) /\
  chain_value_sum by_chain == chain_value_sum acc + Py.sum (map get_value bs) /\
  chain_entries by_chain = (chain_entries acc + length bs)%nat /\
  (Forall (fun kv => cg_chain_id (snd kv) = fst kv) acc ->
   Forall (fun kv => cg_chain_id (snd kv) = fst kv) by_chain) /\
  (forall c e, has_entry acc c e -> has_entry by_chain c e) /\
  (forall b c, In b bs -> chain_id b = Some c -> has_entry by_chain c (entry_of b)).
Proof.
  revert acc. induction bs as [|b bs IH]; intros acc; simpl.
  - intros [= <-]. repeat split; auto.
    + rewrite sum_nil. lra.
    + intros b c [].
  - destruct (chain_step acc b) as [e|acc'] eqn:Hstep; [discriminate|].
    intros Hg. apply chain_step_inv in Hstep. destruct Hstep as (c & Hc & ->).
    destruct (IH _ Hg) as (Hall & Hkeys & Hsum & Hcnt & Hinv & Hkeep & Hnew).
    rewrite Hc. simpl. repeat split.
    + constructor; [congruence | exact Hall].
    + rewrite Hkeys, upsert_keys. reflexivity.
    + rewrite Hsum, sum_cons. unfold chain_value_sum.
      rewrite (upsert_sum cg_value_usd c default_chain_group (add_to_chain b c)
                 (get_value b)); [lra | reflexivity | intros v; reflexivity].
    + rewrite Hcnt. unfold chain_entries.
      rewrite (upsert_size (fun g => length (cg_tokens g)) c default_chain_group
                 (add_to_chain b c)); [lia | reflexivity |].
      intros v. simpl. rewrite length_app. simpl. lia.
    + intros Hacc. apply Hinv.
      apply (upsert_Forall (fun k g => cg_chain_id g = k)); [|exact Hacc].
      intros v _. reflexivity.
    + intros c' e He. apply Hkeep, has_entry_step, He.
    + intros b' c' [<-|Hin] Hc'.
      * assert (c' = c) by congruence. subst c'. apply Hkeep, has_entry_new.
      * apply (Hnew b' c' Hin Hc').
Qed.

(** *** Grouping by symbol *)

Lemma has_chain_step (acc : list (string * TokenGroup)) (b : Balance) (k : string)
    (n : option string) :
  has_chain acc k n -> has_chain (token_step acc b) k n.
Proof.
  intros (g & Hin & Hn). unfold token_step.
  destruct (upsert_preserves (symbol_key b) k default_token_group g (add_to_token b)
              acc Hin) as (g' & Hin' & [-> | ->]).
  - exists g. auto.
  - exists (add_to_token b g). split; [exact Hin'|].
    simpl. apply in_or_app. left. exact Hn.
Qed.

Lemma has_chain_new (acc : list (string * TokenGroup)) (b : Balance) :
  has_chain (token_step acc b) (symbol_key b) (chain_name b).
Proof.
  unfold token_step.
  destruct (upsert_bound (symbol_key b) default_token_group (add_to_token b) acc)
    as (g & Hg).
  exists (add_to_token b g). split; [exact Hg|].
  simpl. apply in_or_app. right. left. reflexivity.
Qed.

Lemma group_by_token_fold (bs : list Balance) :
  group_by_token bs = fold_left token_step bs [].
Proof. reflexivity. Qed.

Lemma group_by_token_spec (bs : list Balance) (acc : list (string * TokenGroup)) :
  let by_token := fold_left token_step bs acc in
  map fst by_token = first_seen_from (map fst acc) (map symbol_key bs) /\
  token_value_sum by_token == token_value_sum acc + Py.sum (map get_value bs) /\
  token_entries by_token = (token_entries acc + length bs)%nat /\
  (Forall (fun kv => tg_symbol (snd kv) = fst kv) acc ->
   Forall (fun kv => tg_symbol (snd kv) = fst kv) by_token) /\
  (forall k n, has_chain acc k n -> has_chain by_token k n) /\
  (forall b, In b bs -> has_chain by_token (symbol_key b) (chain_name b)).
Proof.
  revert acc. induction bs as [|b bs IH]; intros acc; simpl.
  - repeat split; auto.
    + rewrite sum_nil. lra.
    + intros b [].
  - destruct (IH (token_step acc b)) as (Hkeys & Hsum & Hcnt & Hinv & Hkeep & Hnew).
    repeat split.
    + rewrite Hkeys. unfold token_step. rewrite upsert_keys. reflexivity.
    + rewrite Hsum, sum_cons. unfold token_value_sum, token_step.
      rewrite (upsert_sum tg_value_usd (symbol_key b) default_token_group
                 (add_to_token b) (get_value b));
        [lra | reflexivity | intros v; reflexivity].
    + rewrite Hcnt. unfold token_entries, token_step.
      rewrite (upsert_size (fun g => length (tg_chains g)) (symbol_key b)
                 default_token_group (add_to_token b)); [lia | reflexivity |].
      intros v. simpl. rewrite length_app. simpl. lia.
    + intros Hacc. apply Hinv. unfold token_step.
      apply (upsert_Forall (fun k g => tg_symbol g = k)); [|exact Hacc].
      intros v _. reflexivity.
    + intros k n Hn. apply Hkeep, has_chain_step, Hn.
    + intros b' [<-|Hin].
      * apply Hkeep, has_chain_new.
      * apply (Hnew b' Hin).
Qed.

(** *** The breakdowns of a summary *)

Lemma enriched_chain_ids (self : Aggregator) (bs : list Balance) :
  omap chain_id (_enrich_with_prices self bs) = omap chain_id bs.
Proof.
  unfold _enrich_with_prices. induction bs as [|b bs IH]; [reflexivity|].
  cbn [map]. cbn [omap list_omap]. rewrite enrich_chain_id, IH. reflexivity.
Qed.

Lemma enriched_symbol_keys (self : Aggregator) (bs : list Balance) :
  map symbol_key (_enrich_with_prices self bs) = map symbol_key bs.
Proof.
  unfold _enrich_with_prices. rewrite map_map. apply map_ext.
  intros b. unfold symbol_key. rewrite enrich_symbol. reflexivity.
Qed.


Lemma aggregate_breakdowns (self : Aggregator) (wallet : string)
    (balances : list Balance) (s : PortfolioSummary) :
  aggregate_portfolio self wallet balances = inr s ->
  exists by_chain,
    group_by_chain [] (enriched_of self balances) = inr by_chain /\
    breakdown_by_chain s = Py.sorted_reverse cg_value_usd (chain_groups_of self balances) /\
    breakdown_by_token s = Py.sorted_reverse tg_value_usd (token_groups_of self balances) /\
    total_value_usd s == Py.round2 (Py.sum (map get_value (enriched_of self balances))).
Proof.
  intros Hs. unfold chain_groups_of, token_groups_of.
  destruct (valid_of balances) as [|b0 bs0] eqn:Hv.
  - rewrite (aggregate_no_valid _ _ _ Hv) in Hs. injection Hs as <-.
    unfold enriched_of. rewrite Hv. simpl. exists []. repeat split; reflexivity.
  - destruct (aggregate_some_valid self wallet balances s) as (g & Hg & ->);
      [rewrite Hv; discriminate | exact Hs |].
    exists g. rewrite Hg. simpl. repeat split; reflexivity.
Qed.


(** Each enriched record has its entry in the chain group of its chain
    and its chain name in the symbol group of its symbol. *)
Lemma record_in_both_breakdowns (self : Aggregator) (wallet : string)
    (balances : list Balance) (s : PortfolioSummary) (b : Balance) :
  aggregate_portfolio self wallet balances = inr s ->
  In b (enriched_of self balances) ->
  (exists g, In g (breakdown_by_chain s) /\ Some (cg_chain_id g) = chain_id b /\
             In (entry_of b) (cg_tokens g)) /\
  (exists g, In g (breakdown_by_token s) /\ tg_symbol g = symbol_key b /\
             In (chain_name b) (tg_chains g)).
Proof.
  intros Hs H.
  destruct (aggregate_breakdowns self wallet balances s Hs) as (g & Hg & Hbc & Hbt & Ht).
  pose proof (group_by_chain_spec _ _ _ Hg)
    as (Hids & _ & _ & _ & Hinv & _ & Hentry).
  pose proof (group_by_token_spec (enriched_of self balances) [])
    as (_ & _ & _ & Htinv & _ & Hchain).
  specialize (Hinv (Forall_nil_2 _)). specialize (Htinv (Forall_nil_2 _)).
  rewrite <- group_by_token_fold in Htinv, Hchain.
  assert (Pc : Permutation (chain_groups_of self balances) (breakdown_by_chain s))
    by (rewrite Hbc; apply sorted_reverse_Permutation).
  assert (Pt : Permutation (token_groups_of self balances) (breakdown_by_token s))
    by (rewrite Hbt; apply sorted_reverse_Permutation).
  assert (Ec : chain_groups_of self balances = Py.values g)
    by (unfold chain_groups_of; rewrite Hg; reflexivity).
  split.
  - rewrite Forall_forall in Hids.
    pose proof (Hids b (proj2 (list_elem_of_In _ _) H)) as Hb.
    destruct (chain_id b) as [c|] eqn:Hc; [|congruence].
    destruct (Hentry b c H Hc) as (grp & Hin & He).
    exists grp. split; [|split; [|exact He]].
    + apply (Permutation_in _ Pc). rewrite Ec. unfold Py.values.
      apply (in_map snd) in Hin. exact Hin.
    + rewrite Forall_forall in Hinv.
      specialize (Hinv (c, grp) (proj2 (list_elem_of_In _ _) Hin)). simpl in Hinv.
      congruence.
  - destruct (Hchain b H) as (grp & Hin & Hn).
    exists grp. split; [|split; [|exact Hn]].
    + apply (Permutation_in _ Pt). unfold token_groups_of, Py.values.
      apply (in_map snd) in Hin. exact Hin.
    + rewrite Forall_forall in Htinv.
      specialize (Htinv (symbol_key b, grp) (proj2 (list_elem_of_In _ _) Hin)).
      exact Htinv.
Qed.

(** *** Price enrichment *)

(** C2, as stated, fails: for a native record of balance zero the table
    resolves the price 3000, and the enriched record has no price. *)
Lemma zero_balance_loses_its_price :
  failed (Samples.eth 0) = false /\
  resolved_price Samples.table_only (Samples.eth 0) = Some 3000 /\
  price_usd (enrich Samples.table_only (Samples.eth 0)) = None.
Proof. repeat split; reflexivity. Qed.

(** C2, amended.  A valid record whose price resolves to [p] and whose
    balance [q] is present and not zero is enriched with the price [p] and
    the value [p * q]; a valid record without a resolved price, or whose
    balance is absent or zero, is enriched with no price and the value 0.
    Either way the record is kept: its enriched copy is among the enriched
    records, it counts in [tokens_count], and it has its entry in the chain
    breakdown and its chain name in the token breakdown. *)
Theorem enrichment_prices_nonzero_balances (self : Aggregator) (wallet : string)
    (balances : list Balance) (s : PortfolioSummary) (b : Balance) :
  aggregate_portfolio self wallet balances = inr s ->
  In b balances -> failed b = false ->
  let e := enrich self b in
  (forall p q, resolved_price self b = Some p -> balance b = Some q -> ~ q == 0 ->
     price_usd e = Some p /\ value_usd e = Some (p * q)) /\
  (resolved_price self b = None \/ balance b = None \/
   (exists q, balance b = Some q /\ q == 0) ->
     price_usd e = None /\ value_usd e = Some 0) /\
  In e (enriched_of self balances) /\
  tokens_count s = length (valid_of balances) /\
  length (enriched_of self balances) = length (valid_of balances) /\
  (exists g, In g (breakdown_by_chain s) /\ Some (cg_chain_id g) = chain_id b /\
     In (mkTokenEntry (symbol b) (balance b) (get_value e)) (cg_tokens g)) /\
  (exists g, In g (breakdown_by_token s) /\ tg_symbol g = symbol_key b /\
     In (chain_name b) (tg_chains g)).
Proof.
  intros Hs Hin Hvalid e.
  assert (Hv : In b (valid_of balances)) by (apply valid_of_In; auto).
  assert (He : In e (enriched_of self balances)).
  { unfold enriched_of, _enrich_with_prices. apply in_map. exact Hv. }
  split; [|split; [|split; [exact He|split; [|split]]]].
  - intros p q Hp Hq Hq0. subst e. unfold enrich. rewrite Hp, Hq. simpl.
    destruct (Qeq_bool q 0) eqn:Hz; [apply Qeq_bool_iff in Hz; contradiction|].
    simpl. split; reflexivity.
  - intros Hcase. subst e. unfold enrich.
    destruct (resolved_price self b) as [p|]; [|split; reflexivity].
    destruct Hcase as [Hnone | [Hnone | (q & Hq & Hq0)]].
    + discriminate.
    + rewrite Hnone. simpl. split; reflexivity.
    + rewrite Hq. simpl. apply Qeq_bool_iff in Hq0. rewrite Hq0. simpl.
      split; reflexivity.
  - destruct (aggregate_some_valid self wallet balances s) as (g & _ & ->);
      [intros Hnil; rewrite Hnil in Hv; destruct Hv | exact Hs | reflexivity].
  - apply enrich_with_prices_length.
  - destruct (record_in_both_breakdowns self wallet balances s e Hs He) as (Hc & Ht).
    subst e. unfold entry_of, symbol_key in *.
    rewrite ?enrich_symbol, ?enrich_balance, ?enrich_chain_id, ?enrich_chain_name in *.
    split; assumption.
Qed.

(** *** The properties on the sample holdings *)

Lemma holdings_aggregate :
  aggregate_portfolio Samples.table_only Samples.wallet Samples.holdings
  = inr Samples.holdings_summary.
Proof. vm_compute. reflexivity. Defined.

Lemma enrichment_prices_nonzero_balances_witness :
  aggregate_portfolio Samples.table_only Samples.wallet Samples.holdings
  = inr Samples.holdings_summary /\
  In (Samples.eth 2) Samples.holdings /\ failed (Samples.eth 2) = false /\
  price_usd (enrich Samples.table_only (Samples.eth 2)) = Some 3000 /\
  value_usd (enrich Samples.table_only (Samples.eth 2)) = Some (3000 * 2) /\
  tokens_count Samples.holdings_summary = 4%nat.
Proof.
  assert (Hin : In (Samples.eth 2) Samples.holdings) by (left; reflexivity).
  split; [exact holdings_aggregate|]. split; [exact Hin|]. split; [reflexivity|].
  destruct (enrichment_prices_nonzero_balances Samples.table_only Samples.wallet
              Samples.holdings Samples.holdings_summary (Samples.eth 2)
              holdings_aggregate Hin eq_refl) as (Hpriced & _ & _ & Hcount & _).
  destruct (Hpriced 3000 2 eq_refl eq_refl) as (Hp & Hv); [discriminate|].
  split; [exact Hp|]. split; [exact Hv|]. exact Hcount.
Defined.

Lemma no_valid_record_gives_empty_summary_witness :
  (forall b, In b [Samples.timed_out 10; Samples.timed_out 1] -> failed b = true) /\
  exists s,
    aggregate_portfolio Samples.table_only Samples.wallet
      [Samples.timed_out 10; Samples.timed_out 1] = inr s /\
    total_value_usd s = 0 /\
    warnings s = ["🚫 No valid balances found"; "ℹ️ 2 chain(s) failed to fetch"].
Proof.
  assert (H : forall b, In b [Samples.timed_out 10; Samples.timed_out 1] ->
                        failed b = true).
  { intros b [<-|[<-|[]]]; reflexivity. }
  split; [exact H|].
  destruct (no_valid_record_gives_empty_summary Samples.table_only Samples.wallet
              [Samples.timed_out 10; Samples.timed_out 1] H)
    as (s & Hs & Ht & _ & _ & _ & _ & _ & _ & _ & Hw).
  exists s. split; [exact Hs|]. split; [exact Ht|]. exact Hw.
Defined.


(** *** The examples of the specification *)

(** One native record of 2 ETH, priced 3000 by the table. *)
Example two_eth :
  match aggregate_portfolio Samples.table_only Samples.wallet [Samples.eth 2] with
  | inr s =>
      total_value_usd s == 6000 /\ native_value_usd s == 6000 /\
      erc20_value_usd s == 0 /\ chains_count s = 1%nat /\
      map (fun g => (cg_chain_id g, cg_value_usd g)) (breakdown_by_chain s)
      = [(1%Z, 6000)]
  | inl _ => False
  end.
Proof. vm_compute. repeat split; reflexivity. Qed.

(** A value of 33000 beside one of 3000 is a concentrated portfolio. *)
Example concentration_is_reported :
  _generate_warnings
    [with_price (Samples.eth 1) (Some 3000) (Some 3000);
     with_price (Samples.token 1 "Ethereum" "TOKENX" 1) (Some 33000) (Some 33000)]
    36000
  = [concentration_msg].
Proof. vm_compute. reflexivity. Qed.

(** A symbol without a price: no price, value zero, one missing price,
    and the record is counted. *)
Example unknown_symbol :
  match aggregate_portfolio Samples.table_only Samples.wallet
          [Samples.token 1 "Ethereum" "FOO" 5] with
  | inr s =>
      tokens_count s = 1%nat /\ total_value_usd s == 0 /\
      warnings s = [missing_price_msg 1; low_value_msg]
  | inl _ => False
  end.
Proof. vm_compute. repeat split; reflexivity. Qed.

(** A valid record without chain identifier makes the grouping raise. *)
Example missing_chain_id_raises :
  aggregate_portfolio Samples.table_only Samples.wallet [empty_dict]
  = inl (Py.KeyError "chain_id").
Proof. vm_compute. reflexivity. Qed.

End AggregatorProofs.
(** ** The fetcher *)

Module FetcherProofs.

Import BalanceFetcher FetcherTerms.

Local Open Scope list_scope.

Section Fetcher.

Variable net : Network.
Variable rpc_urls : gmap Z string.

(** *** Running a computation *)

Lemma run_bind {A B} (m : M A) (f : A -> M B) (st : State) :
  (m ≫= f) st
  = match m st with
    | (inr a, st') => f a st'
    | (inl e, st') => (inl e, st')
    end.
Proof. reflexivity. Qed.

Lemma run_try_default {A} (body : M A) (dflt : A) (st : State) :
  try_default body dflt st
  = match body st with
    | (inr a, st') => (inr a, st')
    | (inl _, st') => (inr dflt, st')
    end.
Proof. unfold try_default, try_except. destruct (body st) as [[e|a] st']; reflexivity. Qed.

(** A [try] whose handler returns a value never raises, and turns what
    its body raises into that value. *)
Lemma try_except_returns {A} (body : M A) (h : Py.exn -> A) (st : State) :
  exists a st',
    try_except body (fun e => mret (h e)) st = (inr a, st') /\
    (forall e st1, body st = (inl e, st1) -> a = h e /\ st' = st1) /\
    (forall r st1, body st = (inr r, st1) -> a = r /\ st' = st1).
Proof.
  unfold try_except. destruct (body st) as [[e|a] st'] eqn:Hb.
  - exists (h e), st'. repeat split; congruence.
  - exists a, st'. repeat split; congruence.
Qed.

(** *** The connection cache *)

(** [_get_w3] returns, and sends nothing. *)
Lemma get_w3_returns (chain : Z) (st : State) :
  exists w3 st', _get_w3 net rpc_urls chain st = (inr w3, st') /\ sent st' = sent st.
Proof.
  unfold _get_w3.
  destruct (w3_instances st !! chain) as [w3|]; [eauto|].
  destruct (rpc_urls !! chain) as [url|]; [|eauto].
  destruct (Py.truthy_str (Some url)); [|eauto].
  destruct (web3_new net url) as [e|w3]; eauto.
Qed.

(** *** Address normalization *)

Lemma normalize_malformed (address : string) :
  malformed address ->
  _normalize_address address = inl (Py.ValueError (invalid_address_msg address)).
Proof.
  unfold malformed, _normalize_address, invalid_address_msg. intros [Hp|Hl].
  - rewrite Hp. reflexivity.
  - apply Nat.eqb_neq in Hl. rewrite Hl. rewrite orb_true_r. reflexivity.
Qed.

Lemma normalize_wellformed (address : string) :
  ~ malformed address -> _normalize_address address = inr (strip address).
Proof.
  unfold malformed, _normalize_address. intros H.
  destruct (String.prefix "0x" (strip address)) eqn:Hp; simpl.
  - destruct (String.length (strip address) =? 42)%nat eqn:Hl; [reflexivity|].
    exfalso. apply H. right. apply Nat.eqb_neq. exact Hl.
  - exfalso. apply H. left. reflexivity.
Qed.

(** *** Malformed addresses *)

Lemma refusal_truthy (chain : Z) (st : State) (address : string) :
  Py.truthy_str (Some (refusal net rpc_urls chain st address)) = true.
Proof. unfold refusal. destruct (w3_of net rpc_urls chain st); reflexivity. Qed.

Lemma native_malformed (address : string) (chain : Z) (st : State) :
  malformed address ->
  exists st',
    get_native_balance net rpc_urls address chain st
    = (inr (chain_error chain (refusal net rpc_urls chain st address)), st') /\
    sent st' = sent st.
Proof.
  intros Hbad. unfold refusal, w3_of.
  destruct (get_w3_returns chain st) as (w3 & st' & Hw3 & Hsent).
  exists st'. split; [|exact Hsent].
  unfold get_native_balance, try_except, get_native_balance_try.
  rewrite run_bind, Hw3. simpl. destruct w3 as [w3|]; [|reflexivity].
  rewrite run_bind. unfold lift. rewrite (normalize_malformed _ Hbad). reflexivity.
Qed.

Lemma token_malformed_wallet (wallet_address token_address : string) (chain : Z)
    (st : State) :
  malformed wallet_address ->
  exists st',
    get_token_balance net rpc_urls wallet_address token_address chain st
    = (inr (match w3_of net rpc_urls chain st with
            | Some _ => token_error chain (lower token_address)
                          (invalid_address_msg wallet_address)
            | None => chain_error chain (not_supported_msg chain)
            end), st') /\
    sent st' = sent st.
Proof.
  intros Hbad. unfold w3_of.
  destruct (get_w3_returns chain st) as (w3 & st' & Hw3 & Hsent).
  exists st'. split; [|exact Hsent].
  unfold get_token_balance, try_except, get_token_balance_try.
  rewrite run_bind, Hw3. simpl. destruct w3 as [w3|]; [|reflexivity].
  rewrite run_bind. unfold lift. rewrite (normalize_malformed _ Hbad). reflexivity.
Qed.

Lemma token_malformed_token (wallet_address token_address : string) (chain : Z)
    (st : State) :
  ~ malformed wallet_address -> malformed token_address ->
  exists st',
    get_token_balance net rpc_urls wallet_address token_address chain st
    = (inr (match w3_of net rpc_urls chain st with
            | Some _ => token_error chain (lower token_address)
                          (invalid_address_msg token_address)
            | None => chain_error chain (not_supported_msg chain)
            end), st') /\
    sent st' = sent st.
Proof.
  intros Hok Hbad. unfold w3_of.
  destruct (get_w3_returns chain st) as (w3 & st' & Hw3 & Hsent).
  exists st'. split; [|exact Hsent].
  unfold get_token_balance, try_except, get_token_balance_try.
  rewrite run_bind, Hw3. simpl. destruct w3 as [w3|]; [|reflexivity].
  rewrite run_bind. unfold lift at 1. rewrite (normalize_wellformed _ Hok).
  rewrite run_bind. unfold lift. rewrite (normalize_malformed _ Hbad). reflexivity.
Qed.

(** C5, amended.  An address that, once trimmed, does not start with
    [0x] or does not have 42 characters makes [_normalize_address] raise the
    invalid-address error to its caller.  A resolution call is that caller
    and catches it: the call returns a failed record with the chain
    identifier and no balance, whose error is the invalid-address message
    on an available chain and the not-supported message otherwise, and it
    sends no request to the node. *)
Theorem malformed_address_gives_error_record (address other : string) (chain : Z)
    (st : State) :
  malformed address ->
  _normalize_address address = inl (Py.ValueError (invalid_address_msg address)) /\
  (exists r st',
     get_native_balance net rpc_urls address chain st = (inr r, st') /\
     sent st' = sent st /\ failed r = true /\ chain_id r = Some chain /\
     balance r = None /\ error r = Some (refusal net rpc_urls chain st address)) /\
  (exists r st',
     get_token_balance net rpc_urls address other chain st = (inr r, st') /\
     sent st' = sent st /\ failed r = true /\ chain_id r = Some chain /\
     balance r = None /\ error r = Some (refusal net rpc_urls chain st address)) /\
  (exists r st',
     get_token_balance net rpc_urls other address chain st = (inr r, st') /\
     sent st' = sent st /\ failed r = true /\ chain_id r = Some chain /\
     balance r = None /\
     (error r = Some (refusal net rpc_urls chain st address) \/
      malformed other /\ error r = Some (refusal net rpc_urls chain st other))).
Proof.
  intros Hbad. split; [apply normalize_malformed, Hbad|].
  pose proof (refusal_truthy chain st address) as Htruthy.
  split; [|split].
  - destruct (native_malformed address chain st Hbad) as (st' & Hrun & Hsent).
    exists (chain_error chain (refusal net rpc_urls chain st address)), st'.
    repeat split; try assumption; reflexivity.
  - destruct (token_malformed_wallet address other chain st Hbad) as (st' & Hrun & Hsent).
    eexists _, st'. split; [exact Hrun|]. split; [exact Hsent|].
    unfold refusal in *. destruct (w3_of net rpc_urls chain st); repeat split; assumption || reflexivity.
  - assert (Hdec : malformed other \/ ~ malformed other).
    { unfold malformed.
      destruct (String.prefix "0x" (strip other)); [|left; left; reflexivity].
      destruct (decide (String.length (strip other) = 42%nat)) as [He|Hne].
      - right. intros [H|H]; [discriminate | contradiction].
      - left. right. exact Hne. }
    destruct Hdec as [Hother|Hother].
    + destruct (token_malformed_wallet other address chain st Hother)
        as (st' & Hrun & Hsent).
      pose proof (refusal_truthy chain st other) as Htruthy'.
      eexists _, st'. split; [exact Hrun|]. split; [exact Hsent|].
      unfold refusal in *. destruct (w3_of net rpc_urls chain st).
      * repeat split; try assumption || reflexivity.
        right. split; [exact Hother | reflexivity].
      * repeat split; try assumption || reflexivity. left. reflexivity.
    + destruct (token_malformed_token other address chain st Hother Hbad)
        as (st' & Hrun & Hsent).
      eexists _, st'. split; [exact Hrun|]. split; [exact Hsent|].
      unfold refusal in *. destruct (w3_of net rpc_urls chain st);
        repeat split; try assumption || reflexivity; left; reflexivity.
Qed.

(** *** No resolution raises *)

Lemma native_returns (wallet_address : string) (chain : Z) (st : State) :
  exists r st',
    get_native_balance net rpc_urls wallet_address chain st = (inr r, st') /\
    (forall e st1,
       get_native_balance_try net rpc_urls wallet_address chain st = (inl e, st1) ->
       r = chain_error chain (Py.str_exn e) /\ st' = st1).
Proof.
  unfold get_native_balance.
  destruct (try_except_returns (get_native_balance_try net rpc_urls wallet_address chain)
              (fun e => chain_error chain (Py.str_exn e)) st) as (r & st' & Hrun & Hexn & _).
  exists r, st'. split; [exact Hrun | exact Hexn].
Qed.

Lemma token_returns (wallet_address token_address : string) (chain : Z) (st : State) :
  exists r st',
    get_token_balance net rpc_urls wallet_address token_address chain st = (inr r, st') /\
    (forall e st1,
       get_token_balance_try net rpc_urls wallet_address token_address chain st
       = (inl e, st1) ->
       r = token_error chain (lower token_address) (Py.str_exn e) /\ st' = st1).
Proof.
  unfold get_token_balance.
  destruct (try_except_returns
              (get_token_balance_try net rpc_urls wallet_address token_address chain)
              (fun e => token_error chain (lower token_address) (Py.str_exn e)) st)
    as (r & st' & Hrun & Hexn & _).
  exists r, st'. split; [exact Hrun | exact Hexn].
Qed.

(** *** The tokens of a wallet *)

Lemma kept_iff (r : Balance) :
  kept r = true <-> failed r = false /\ (0 < default 0 (balance r))%Q.
Proof.
  unfold kept, positive_balance. rewrite andb_true_iff, negb_true_iff.
  destruct (Qlt_le_dec 0 (default 0%Q (balance r))) as [Hlt|Hle].
  - tauto.
  - split; [intros [_ H]; discriminate | intros [_ H]; lra].
Qed.

Lemma add_token_run (wallet_address : string) (chain : Z) (balances : list Balance)
    (token_address : string) (st st' : State) (r : Balance) :
  get_token_balance net rpc_urls wallet_address token_address chain st = (inr r, st') ->
  add_token net rpc_urls wallet_address chain balances token_address st
  = (inr (balances ++ List.filter kept [r]), st').
Proof.
  intros Hr. unfold add_token. rewrite run_bind, Hr. simpl. unfold kept.
  destruct (failed r); simpl; [rewrite app_nil_r; reflexivity|].
  destruct (positive_balance r); simpl; [reflexivity | rewrite app_nil_r; reflexivity].
Qed.

Lemma for_each_token_spec (wallet_address : string) (chain : Z)
    (addresses : list string) (balances : list Balance) (st : State) :
  exists results st',
    resolved net rpc_urls wallet_address chain addresses st results st' /\
    length results = length addresses /\
    for_each_token net rpc_urls wallet_address chain balances addresses st
    = (inr (balances ++ List.filter kept results), st').
Proof.
  revert balances st. induction addresses as [|a rest IH]; intros balances st.
  - exists [], st. split; [constructor|]. split; [reflexivity|].
    simpl. rewrite app_nil_r. reflexivity.
  - destruct (token_returns wallet_address a chain st) as (r & st1 & Hr & _).
    destruct (IH (balances ++ List.filter kept [r]) st1) as (rs & st2 & Hrs & Hlen & Hrun).
    exists (r :: rs), st2. split; [econstructor; eassumption|].
    split; [simpl; rewrite Hlen; reflexivity|].
    cbn [for_each_token]. rewrite run_bind, (add_token_run _ _ _ _ _ _ _ Hr), Hrun.
    rewrite <- app_assoc. change (r :: rs) with ([r] ++ rs).
    rewrite List.filter_app. reflexivity.
Qed.

Lemma wallet_tokens_spec (wallet_address : string) (chain : Z)
    (token_addresses : option (list string)) (st : State) :
  exists native st1 results st2,
    get_native_balance net rpc_urls wallet_address chain st = (inr native, st1) /\
    resolved net rpc_urls wallet_address chain (default [] token_addresses) st1 results st2 /\
    length results = length (default [] token_addresses) /\
    get_wallet_tokens net rpc_urls wallet_address chain token_addresses st
    = (inr ((if failed native then [] else [native]) ++ List.filter kept results), st2).
Proof.
  destruct (native_returns wallet_address chain st) as (native & st1 & Hn & _).
  exists native, st1. unfold get_wallet_tokens. rewrite run_bind, Hn.
  destruct token_addresses as [[|a rest]|]; cbv beta match.
  - exists [], st1. split; [reflexivity|]. split; [constructor|].
    split; [reflexivity|]. destruct (failed native); reflexivity.
  - destruct (for_each_token_spec wallet_address chain (a :: rest)
                (if negb (failed native) then [] ++ [native] else []) st1)
      as (rs & st2 & Hrs & Hlen & Hrun).
    exists rs, st2. split; [reflexivity|]. split; [exact Hrs|]. split; [exact Hlen|].
    rewrite Hrun. destruct (failed native); reflexivity.
  - exists [], st1. split; [reflexivity|]. split; [constructor|].
    split; [reflexivity|]. destruct (failed native); reflexivity.
Qed.

(** X19. [get_wallet_tokens] resolves the native balance first, whatever
    the arguments, and then every address of the token list in order.  It
    returns the native record exactly when that record is not a failed one
    (its error is absent or empty), followed by the token records that are
    not failed and whose balance is strictly positive; a token record of
    balance zero is left out. *)
Theorem wallet_tokens_native_then_positive_tokens (wallet_address : string)
    (chain : Z) (token_addresses : option (list string)) (st : State) :
  exists native st1 results st2,
    get_native_balance net rpc_urls wallet_address chain st = (inr native, st1) /\
    resolved net rpc_urls wallet_address chain (default [] token_addresses) st1 results st2 /\
    length results = length (default [] token_addresses) /\
    get_wallet_tokens net rpc_urls wallet_address chain token_addresses st
    = (inr ((if failed native then [] else [native]) ++ List.filter kept results), st2) /\
    (forall r, In r (List.filter kept results) <->
               In r results /\ failed r = false /\ (0 < default 0 (balance r))%Q).
Proof.
  destruct (wallet_tokens_spec wallet_address chain token_addresses st)
    as (native & st1 & results & st2 & Hn & Hrs & Hlen & Hrun).
  exists native, st1, results, st2.
  split; [exact Hn|]. split; [exact Hrs|]. split; [exact Hlen|]. split; [exact Hrun|].
  intros r. rewrite filter_In, kept_iff. reflexivity.
Qed.


(** *** Token metadata *)

Lemma run_send {A} (answer : list Request -> Request -> Py.exn + A) (q : Request)
    (st : State) :
  send answer q st = (answer (sent st) q, mkState (w3_instances st) (sent st ++ [q])).
Proof. reflexivity. Qed.

(** The run of [get_token_balance] on an available chain, with
    well-formed addresses and a contract object, once [balanceOf] is
    answered. *)
Lemma token_run_answered (wallet_address token_address : string) (chain : Z)
    (st st1 : State) (w3 : Web3) (wallet token : string) (raw : N) :
  _get_w3 net rpc_urls chain st = (inr (Some w3), st1) ->
  _normalize_address wallet_address = inr wallet ->
  _normalize_address token_address = inr token ->
  eth_contract net w3 token = None ->
  answer_uint net (sent st1) (CallBalanceOf w3 token wallet) = inr raw ->
  let t1 := sent st1 ++ [CallBalanceOf w3 token wallet] in
  let t2 := t1 ++ [CallDecimals w3 token] in
  let t3 := t2 ++ [CallSymbol w3 token] in
  let dec :=
    answered 18%Z
      (match answer_uint net t1 (CallDecimals w3 token) with
       | inr d => inr (Z.of_N d)
       | inl e => inl e
       end) in
  let sym := answered "UNKNOWN" (answer_string net t2 (CallSymbol w3 token)) in
  let nam := answered "Unknown Token" (answer_string net t3 (CallName w3 token)) in
  get_token_balance net rpc_urls wallet_address token_address chain st
  = (inr {| chain_id := Some chain;
            chain_name :=
              Some (default (generic_name chain) (ci_name <$> CHAIN_CONFIG !! chain));
            token_type := Some "erc20";
            contract_address := Some (lower token_address);
            symbol := Some sym; name := Some nam;
            balance := Some (scaled raw dec);
            balance_wei := None;
            balance_raw := Some (Z.of_N raw);
            decimals := Some dec;
            error := None; price_usd := None; value_usd := None |},
     mkState (w3_instances st1) (t3 ++ [CallName w3 token])).
Proof.
  intros Hw3 Hwallet Htoken Hcontract Hraw t1 t2 t3 dec sym nam.
  unfold get_token_balance, try_except, get_token_balance_try.
  rewrite run_bind, Hw3. cbv beta match.
  rewrite run_bind. unfold lift at 1. rewrite Hwallet. cbv beta match.
  rewrite run_bind. unfold lift at 1. rewrite Htoken. cbv beta match.
  rewrite run_bind. unfold new_contract, lift. rewrite Hcontract. cbv beta match.
  rewrite run_bind, run_send, Hraw. cbv beta match.
  subst dec sym nam t3 t2 t1.
  destruct (answer_uint net _ (CallDecimals w3 token)) as [e1|d] eqn:Hd;
    destruct (answer_string net _ (CallSymbol w3 token)) as [e2|sy] eqn:Hs;
    destruct (answer_string net _ (CallName w3 token)) as [e3|na] eqn:Hn;
    repeat (rewrite ?run_bind, ?run_try_default, ?run_send;
            cbn [sent w3_instances]; rewrite ?Hd, ?Hs, ?Hn;
            cbv beta match; unfold mret, M_ret);
    reflexivity.
Qed.

(** The same run, once [balanceOf] fails. *)
Lemma token_run_failed (wallet_address token_address : string) (chain : Z)
    (st st1 : State) (w3 : Web3) (wallet token : string) (e : Py.exn) :
  _get_w3 net rpc_urls chain st = (inr (Some w3), st1) ->
  _normalize_address wallet_address = inr wallet ->
  _normalize_address token_address = inr token ->
  eth_contract net w3 token = None ->
  answer_uint net (sent st1) (CallBalanceOf w3 token wallet) = inl e ->
  get_token_balance net rpc_urls wallet_address token_address chain st
  = (inr (token_error chain (lower token_address) (Py.str_exn e)),
     mkState (w3_instances st1) (sent st1 ++ [CallBalanceOf w3 token wallet])).
Proof.
  intros Hw3 Hwallet Htoken Hcontract Hraw.
  unfold get_token_balance, try_except, get_token_balance_try.
  rewrite run_bind, Hw3. cbv beta match.
  rewrite run_bind. unfold lift at 1. rewrite Hwallet. cbv beta match.
  rewrite run_bind. unfold lift at 1. rewrite Htoken. cbv beta match.
  rewrite run_bind. unfold new_contract, lift. rewrite Hcontract. cbv beta match.
  rewrite run_bind, run_send, Hraw. reflexivity.
Qed.

(** Whatever happens, the record is whole or is an error record. *)
Lemma token_record_whole_or_error (wallet_address token_address : string) (chain : Z)
    (st : State) :
  exists r st',
    get_token_balance net rpc_urls wallet_address token_address chain st = (inr r, st') /\
    (populated r \/ error_only r).
Proof.
  destruct (get_w3_returns chain st) as ([w3|] & st1 & Hw3 & _).
  - destruct (_normalize_address wallet_address) as [e|wallet] eqn:Hwallet.
    { eexists _, _. split.
      - unfold get_token_balance, try_except, get_token_balance_try.
        rewrite run_bind, Hw3. cbv beta match.
        rewrite run_bind. unfold lift at 1. rewrite Hwallet. reflexivity.
      - right. unfold error_only. simpl. eauto 10. }
    destruct (_normalize_address token_address) as [e|token] eqn:Htoken.
    { eexists _, _. split.
      - unfold get_token_balance, try_except, get_token_balance_try.
        rewrite run_bind, Hw3. cbv beta match.
        rewrite run_bind. unfold lift at 1. rewrite Hwallet. cbv beta match.
        rewrite run_bind. unfold lift at 1. rewrite Htoken. reflexivity.
      - right. unfold error_only. simpl. eauto 10. }
    destruct (eth_contract net w3 token) as [e|] eqn:Hcontract.
    { eexists _, _. split.
      - unfold get_token_balance, try_except, get_token_balance_try.
        rewrite run_bind, Hw3. cbv beta match.
        rewrite run_bind. unfold lift at 1. rewrite Hwallet. cbv beta match.
        rewrite run_bind. unfold lift at 1. rewrite Htoken. cbv beta match.
        rewrite run_bind. unfold new_contract, lift. rewrite Hcontract. reflexivity.
      - right. unfold error_only. simpl. eauto 10. }
    destruct (answer_uint net (sent st1) (CallBalanceOf w3 token wallet))
      as [e|raw] eqn:Hraw.
    + eexists _, _. split.
      * apply (token_run_failed _ _ _ _ _ _ _ _ _ Hw3 Hwallet Htoken Hcontract Hraw).
      * right. unfold error_only. simpl. eauto 10.
    + eexists _, _. split.
      * apply (token_run_answered _ _ _ _ _ _ _ _ _ Hw3 Hwallet Htoken Hcontract Hraw).
      * left. unfold populated. simpl. eauto 10.
  - eexists _, _. split.
    + unfold get_token_balance, try_except, get_token_balance_try.
      rewrite run_bind, Hw3. reflexivity.
    + right. unfold error_only. simpl. eauto 10.
Qed.

(** C9. On an available chain, with well-formed addresses and a contract
    object: once [balanceOf] is answered with [raw], the record is
    populated whatever the three metadata queries do, each of them giving
    its answer or, when it fails, its own default (18, ["UNKNOWN"],
    ["Unknown Token"]), and the balance is [raw / 10^decimals]; once
    [balanceOf] fails, the record is the error record, without any balance
    field.  From every state and for every argument the record returned is
    whole or is an error record. *)
Theorem token_metadata_defaults_balance_does_not (wallet_address token_address : string)
    (chain : Z) (st st1 : State) (w3 : Web3) (wallet token : string) :
  _get_w3 net rpc_urls chain st = (inr (Some w3), st1) ->
  _normalize_address wallet_address = inr wallet ->
  _normalize_address token_address = inr token ->
  eth_contract net w3 token = None ->
  let t1 := sent st1 ++ [CallBalanceOf w3 token wallet] in
  let t2 := t1 ++ [CallDecimals w3 token] in
  let t3 := t2 ++ [CallSymbol w3 token] in
  (forall raw,
     answer_uint net (sent st1) (CallBalanceOf w3 token wallet) = inr raw ->
     exists r st',
       get_token_balance net rpc_urls wallet_address token_address chain st
       = (inr r, st') /\
       populated r /\
       decimals r
       = Some (match answer_uint net t1 (CallDecimals w3 token) with
               | inr d => Z.of_N d
               | inl _ => 18%Z
               end) /\
       symbol r = Some (answered "UNKNOWN" (answer_string net t2 (CallSymbol w3 token))) /\
       name r
       = Some (answered "Unknown Token" (answer_string net t3 (CallName w3 token))) /\
       balance_raw r = Some (Z.of_N raw) /\
       (forall d, decimals r = Some d ->
          balance r = Some (inject_Z (Z.of_N raw) / 10 ^ d)%Q)) /\
  (forall e,
     answer_uint net (sent st1) (CallBalanceOf w3 token wallet) = inl e ->
     exists r st',
       get_token_balance net rpc_urls wallet_address token_address chain st
       = (inr r, st') /\
       error_only r /\ error r = Some (Py.str_exn e) /\
       sent st' = sent st1 ++ [CallBalanceOf w3 token wallet]) /\
  (forall wallet_address' token_address' chain' st0,
     exists r st',
       get_token_balance net rpc_urls wallet_address' token_address' chain' st0
       = (inr r, st') /\
       (populated r \/ error_only r)).
Proof.
  intros Hw3 Hwallet Htoken Hcontract t1 t2 t3. split; [|split].
  - intros raw Hraw. eexists _, _. split.
    + apply (token_run_answered _ _ _ _ _ _ _ _ _ Hw3 Hwallet Htoken Hcontract Hraw).
    + split; [unfold populated; simpl; eauto 10|].
      cbn [decimals symbol name balance_raw balance]. fold t1 t2 t3.
      split; [|split; [reflexivity|split; [reflexivity|split; [reflexivity|]]]].
      * destruct (answer_uint net t1 (CallDecimals w3 token)); reflexivity.
      * intros d [= <-]. reflexivity.
  - intros e He. eexists _, _. split.
    + apply (token_run_failed _ _ _ _ _ _ _ _ _ Hw3 Hwallet Htoken Hcontract He).
    + split; [unfold error_only; simpl; eauto 10|]. split; reflexivity.
  - intros. apply token_record_whole_or_error.
Qed.

End Fetcher.

(** *** The properties on the sample node *)

(** C5, as stated, fails: on an available chain a malformed wallet address
    does not make [get_native_balance] raise; the call returns the error
    record.  The same holds for [get_token_balance]. *)
Lemma malformed_wallet_is_returned_not_raised :
  malformed "abc" /\
  fst (get_native_balance Samples.node Samples.endpoints "abc" 1 Samples.fresh)
  <> inl (Py.ValueError "Invalid address: abc") /\
  fst (get_native_balance Samples.node Samples.endpoints "abc" 1 Samples.fresh)
  = inr (chain_error 1 "Invalid address: abc") /\
  fst (get_token_balance Samples.node Samples.endpoints "abc" Samples.usdc 1
         Samples.fresh)
  = inr (token_error 1 (lower Samples.usdc) "Invalid address: abc").
Proof.
  split; [left; reflexivity|]. split; [vm_compute; discriminate|].
  split; vm_compute; reflexivity.
Qed.

Lemma malformed_address_gives_error_record_witness :
  malformed "abc" /\
  _normalize_address "abc" = inl (Py.ValueError "Invalid address: abc") /\
  exists r st',
    get_native_balance Samples.node Samples.endpoints "abc" 1 Samples.fresh
    = (inr r, st') /\
    sent st' = sent Samples.fresh /\ failed r = true /\
    error r = Some "Invalid address: abc".
Proof.
  assert (Hbad : malformed "abc") by (left; reflexivity).
  split; [exact Hbad|].
  destruct (malformed_address_gives_error_record Samples.node Samples.endpoints
              "abc" Samples.wallet 1 Samples.fresh Hbad)
    as (Hraise & (r & st' & Hrun & Hsent & Hfailed & _ & _ & Herr) & _).
  split; [exact Hraise|]. exists r, st'.
  split; [exact Hrun|]. split; [exact Hsent|]. split; [exact Hfailed|]. exact Herr.
Defined.

Lemma token_metadata_defaults_balance_does_not_witness :
  _get_w3 Samples.node Samples.endpoints 1 Samples.fresh
  = (inr (Some (mkWeb3 "https://eth.example")), Samples.connected) /\
  _normalize_address Samples.wallet = inr Samples.wallet /\
  _normalize_address Samples.usdc = inr Samples.usdc /\
  eth_contract Samples.node (mkWeb3 "https://eth.example") Samples.usdc = None /\
  exists r st',
    get_token_balance Samples.node Samples.endpoints Samples.wallet Samples.usdc 1
      Samples.fresh = (inr r, st') /\
    decimals r = Some 18%Z /\ symbol r = Some "USDC" /\
    name r = Some "Unknown Token" /\
    balance r = Some (inject_Z 1500000 / 10 ^ 18)%Q /\
  exists r' st'',
    get_token_balance Samples.dead_node Samples.endpoints Samples.wallet Samples.usdc 1
      Samples.fresh = (inr r', st'') /\
    error r' = Some "connection refused" /\ balance r' = None.
Proof.
  assert (H1 : _get_w3 Samples.node Samples.endpoints 1 Samples.fresh
               = (inr (Some (mkWeb3 "https://eth.example")), Samples.connected))
    by reflexivity.
  assert (H1' : _get_w3 Samples.dead_node Samples.endpoints 1 Samples.fresh
                = (inr (Some (mkWeb3 "https://eth.example")), Samples.connected))
    by reflexivity.
  assert (H2 : _normalize_address Samples.wallet = inr Samples.wallet) by reflexivity.
  assert (H3 : _normalize_address Samples.usdc = inr Samples.usdc) by reflexivity.
  split; [exact H1|]. split; [exact H2|]. split; [exact H3|]. split; [reflexivity|].
  destruct (token_metadata_defaults_balance_does_not Samples.node Samples.endpoints
              Samples.wallet Samples.usdc 1 Samples.fresh Samples.connected
              (mkWeb3 "https://eth.example") Samples.wallet Samples.usdc
              H1 H2 H3 eq_refl) as (Hok & _ & _).
  destruct (Hok 1500000%N eq_refl)
    as (r & st' & Hrun & _ & Hdec & Hsym & Hname & _ & Hbal).
  exists r, st'. split; [exact Hrun|]. split; [exact Hdec|]. split; [exact Hsym|].
  split; [exact Hname|]. split; [exact (Hbal 18%Z Hdec)|].
  destruct (token_metadata_defaults_balance_does_not Samples.dead_node
              Samples.endpoints Samples.wallet Samples.usdc 1 Samples.fresh Samples.connected
              (mkWeb3 "https://eth.example") Samples.wallet Samples.usdc
              H1' H2 H3 eq_refl) as (_ & Hfail & _).
  destruct (Hfail (Py.Exception "connection refused") eq_refl)
    as (r' & st'' & Hrun' & (_ & _ & Hnobal & _) & Herr & _).
  exists r', st''. split; [exact Hrun'|]. split; [exact Herr | exact Hnobal].
Defined.

(** C4.  The code does not do what the claim says when the native
    resolution fails with an exception without message.  On the node whose
    balance query raises such an exception the body of the [try] of
    [get_native_balance] raises, the handler returns the record with the
    keys [chain_id] and [error], the error being the empty string, and
    [get_wallet_tokens], whose test is the truth value of the error,
    returns this record of a resolution that has failed.  The aggregator,
    whose filter is the same test, then counts it as a token. *)
Theorem failed_native_resolution_is_returned :
  fst (get_native_balance_try Samples.silent_node Samples.endpoints Samples.wallet 1
         Samples.fresh)
  = inl (Py.Exception EmptyString) /\
  fst (get_native_balance Samples.silent_node Samples.endpoints Samples.wallet 1
         Samples.fresh)
  = inr (chain_error 1 EmptyString) /\
  error (chain_error 1 EmptyString) = Some EmptyString /\
  balance (chain_error 1 EmptyString) = None /\
  fst (get_wallet_tokens Samples.silent_node Samples.endpoints Samples.wallet 1 None
         Samples.fresh)
  = inr [chain_error 1 EmptyString] /\
  exists s,
    PortfolioAggregator.aggregate_portfolio Samples.table_only Samples.wallet
      [chain_error 1 EmptyString] = inr s /\
    PortfolioAggregator.tokens_count s = 1%nat.
Proof.
  repeat (split; [vm_compute; reflexivity|]).
  eexists. split; [vm_compute; reflexivity | reflexivity].
Qed.

(** The native record comes first, a token of balance zero is left out. *)
Example wallet_tokens_of_sample_node :
  match fst (get_wallet_tokens Samples.node Samples.endpoints Samples.wallet 1
               (Some [Samples.usdc; "0x0"; Samples.usdc]) Samples.fresh) with
  | inr balances => map symbol balances = [Some "ETH"; Some "USDC"; Some "USDC"]
  | inl _ => False
  end.
Proof. vm_compute. reflexivity. Qed.

End FetcherProofs.

(** * Further properties *)

(** ** The fetcher: cache, requests and records *)

Module FetcherExtras.

Import BalanceFetcher FetcherTerms ResolutionTerms FetcherProofs.

Local Open Scope list_scope.

Section Fetcher.

Variable net : Network.
Variable rpc_urls : gmap Z string.

(** *** The connection cache *)

Lemma cache_kept_refl (chain : Z) (st : State) : cache_kept chain st st.
Proof. split; auto. Qed.

Lemma cache_kept_trans (chain : Z) (st1 st2 st3 : State) :
  cache_kept chain st1 st2 -> cache_kept chain st2 st3 -> cache_kept chain st1 st3.
Proof.
  intros [H1 H1'] [H2 H2']. split.
  - auto.
  - intros c Hc. rewrite H2', H1' by exact Hc. reflexivity.
Qed.

Lemma cache_kept_after (chain : Z) (st st' : State) (new : list Request) :
  cache_kept chain st st' -> cache_kept chain st (after st' new).
Proof. intros H. exact H. Qed.

(** What [_get_w3] returns and what it does to the state. *)
Lemma get_w3_spec (chain : Z) (st : State) :
  exists o st1,
    _get_w3 net rpc_urls chain st = (inr o, st1) /\
    sent st1 = sent st /\ cache_kept chain st st1 /\
    (o = None -> st1 = st /\ w3_instances st !! chain = None) /\
    (forall w3, o = Some w3 -> w3_instances st1 !! chain = Some w3).
Proof.
  unfold _get_w3.
  destruct (w3_instances st !! chain) as [w3|] eqn:Hc.
  { exists (Some w3), st. repeat split; auto; try discriminate. congruence. }
  assert (Hmiss : exists (o : option Web3) (st1 : State),
            (inr None, st) = (@inr Py.exn _ o, st1) /\
            sent st1 = sent st /\ cache_kept chain st st1 /\
            (o = None -> st1 = st /\ w3_instances st !! chain = None) /\
            (forall w3, o = Some w3 -> w3_instances st1 !! chain = Some w3)).
  { exists None, st. split; [reflexivity|]. split; [reflexivity|].
    split; [apply cache_kept_refl|]. split; [auto | discriminate]. }
  rewrite Hc in Hmiss.
  destruct (rpc_urls !! chain) as [url|]; [|exact Hmiss].
  destruct (Py.truthy_str (Some url)); [|exact Hmiss].
  destruct (web3_new net url) as [e|w3]; [exact Hmiss|].
  exists (Some w3), (mkState (<[chain := w3]> (w3_instances st)) (sent st)).
  split; [reflexivity|]. split; [reflexivity|]. split; [|split].
  - split; simpl.
    + intros c w Hw. destruct (decide (c = chain)) as [->|Hne]; [congruence|].
      rewrite lookup_insert_ne by congruence. exact Hw.
    + intros c Hne. apply lookup_insert_ne. congruence.
  - discriminate.
  - intros w Hw. injection Hw as Hw. subst w. simpl. apply lookup_insert_eq.
Qed.

(** *** The outcome of a resolution, case by case *)

Lemma native_outcome (wallet_address : string) (chain : Z) (st : State) :
  exists o st1,
    _get_w3 net rpc_urls chain st = (inr o, st1) /\
    get_native_balance net rpc_urls wallet_address chain st
    = match o with
      | None => (inr (chain_error chain (not_supported_msg chain)), st1)
      | Some w3 =>
          match _normalize_address wallet_address with
          | inl e => (inr (chain_error chain (Py.str_exn e)), st1)
          | inr address =>
              match answer_uint net (sent st1) (EthGetBalance w3 address) with
              | inl e =>
                  (inr (chain_error chain (Py.str_exn e)),
                   after st1 [EthGetBalance w3 address])
              | inr wei =>
                  (inr (native_record chain wei), after st1 [EthGetBalance w3 address])
              end
          end
      end.
Proof.
  destruct (get_w3_returns net rpc_urls chain st) as (o & st1 & Hw3 & _).
  exists o, st1. split; [exact Hw3|].
  unfold get_native_balance, try_except, get_native_balance_try.
  rewrite run_bind, Hw3. cbv beta match. destruct o as [w3|]; [|reflexivity].
  rewrite run_bind. unfold lift at 1.
  destruct (_normalize_address wallet_address) as [e|address]; [reflexivity|].
  cbv beta match. rewrite run_bind, run_send.
  destruct (answer_uint net (sent st1) (EthGetBalance w3 address)) as [e|wei];
    reflexivity.
Qed.

Lemma token_outcome (wallet_address token_address : string) (chain : Z) (st : State) :
  exists o st1,
    _get_w3 net rpc_urls chain st = (inr o, st1) /\
    get_token_balance net rpc_urls wallet_address token_address chain st
    = match o with
      | None => (inr (chain_error chain (not_supported_msg chain)), st1)
      | Some w3 =>
          let refuse e st' :=
            (inr (token_error chain (lower token_address) (Py.str_exn e)), st') in
          match _normalize_address wallet_address with
          | inl e => refuse e st1
          | inr wallet =>
              match _normalize_address token_address with
              | inl e => refuse e st1
              | inr token =>
                  match eth_contract net w3 token with
                  | Some e => refuse e st1
                  | None =>
                      let q := CallBalanceOf w3 token wallet in
                      let t1 := sent st1 ++ [q] in
                      let t2 := t1 ++ [CallDecimals w3 token] in
                      let t3 := t2 ++ [CallSymbol w3 token] in
                      match answer_uint net (sent st1) q with
                      | inl e => refuse e (after st1 [q])
                      | inr raw =>
                          (inr (token_record chain token_address raw
                                  (match answer_uint net t1 (CallDecimals w3 token) with
                                   | inr d => Z.of_N d
                                   | inl _ => 18%Z
                                   end)
                                  (answered "UNKNOWN"
                                     (answer_string net t2 (CallSymbol w3 token)))
                                  (answered "Unknown Token"
                                     (answer_string net t3 (CallName w3 token)))),
                           mkState (w3_instances st1) (t3 ++ [CallName w3 token]))
                      end
                  end
              end
          end
      end.
Proof.
  destruct (get_w3_returns net rpc_urls chain st) as (o & st1 & Hw3 & _).
  exists o, st1. split; [exact Hw3|]. destruct o as [w3|].
  - cbv zeta.
    destruct (_normalize_address wallet_address) as [e|wallet] eqn:Hwallet.
    { unfold get_token_balance, try_except, get_token_balance_try.
      rewrite run_bind, Hw3. cbv beta match.
      rewrite run_bind. unfold lift at 1. rewrite Hwallet. reflexivity. }
    destruct (_normalize_address token_address) as [e|token] eqn:Htoken.
    { unfold get_token_balance, try_except, get_token_balance_try.
      rewrite run_bind, Hw3. cbv beta match.
      rewrite run_bind. unfold lift at 1. rewrite Hwallet. cbv beta match.
      rewrite run_bind. unfold lift at 1. rewrite Htoken. reflexivity. }
    destruct (eth_contract net w3 token) as [e|] eqn:Hcontract.
    { unfold get_token_balance, try_except, get_token_balance_try.
      rewrite run_bind, Hw3. cbv beta match.
      rewrite run_bind. unfold lift at 1. rewrite Hwallet. cbv beta match.
      rewrite run_bind. unfold lift at 1. rewrite Htoken. cbv beta match.
      rewrite run_bind. unfold new_contract, lift. rewrite Hcontract. reflexivity. }
    destruct (answer_uint net (sent st1) (CallBalanceOf w3 token wallet))
      as [e|raw] eqn:Hraw.
    + apply (token_run_failed net rpc_urls _ _ _ _ _ _ _ _ _
               Hw3 Hwallet Htoken Hcontract Hraw).
    + rewrite (token_run_answered net rpc_urls _ _ _ _ _ _ _ _ _
                 Hw3 Hwallet Htoken Hcontract Hraw).
      unfold token_record, answered.
      destruct (answer_uint net _ (CallDecimals w3 token)); reflexivity.
  - unfold get_token_balance, try_except, get_token_balance_try.
    rewrite run_bind, Hw3. reflexivity.
Qed.

(** *** What one resolution does *)

Lemma chain_error_only (chain : Z) (msg : string) : error_only (chain_error chain msg).
Proof. unfold error_only. simpl. eauto 10. Qed.

Lemma token_error_only (chain : Z) (address msg : string) :
  error_only (token_error chain address msg).
Proof. unfold error_only. simpl. eauto 10. Qed.

(** A native resolution returns a record of its chain, keeps the cache,
    and sends nothing or the one balance query; without a query, and when
    the query fails, the record is an error record. *)
Lemma native_effect (wallet_address : string) (chain : Z) (st : State) :
  exists r st' new,
    get_native_balance net rpc_urls wallet_address chain st = (inr r, st') /\
    chain_id r = Some chain /\ cache_kept chain st st' /\
    sent st' = sent st ++ new /\
    ((new = [] /\ error_only r) \/
     (exists w3, new = [EthGetBalance w3 (strip wallet_address)] /\
        w3_instances st' !! chain = Some w3 /\
        (error_only r \/ exists wei, r = native_record chain wei))).
Proof.
  destruct (get_w3_spec chain st) as (o & st1 & Hw3 & Hsent & Hcache & _ & Hin).
  destruct (native_outcome wallet_address chain st) as (o' & st1' & Hw3' & Hrun).
  rewrite Hw3 in Hw3'. injection Hw3' as <- <-.
  destruct o as [w3|].
  - unfold _normalize_address in Hrun.
    destruct (negb _ || negb _).
    + eexists _, st1, []. split; [exact Hrun|]. split; [reflexivity|].
      split; [exact Hcache|]. split; [rewrite app_nil_r; exact Hsent|].
      left. split; [reflexivity | apply chain_error_only].
    + destruct (answer_uint net (sent st1) _) as [e|wei].
      * eexists _, _, _. split; [exact Hrun|]. split; [reflexivity|].
        split; [apply cache_kept_after, Hcache|].
        split; [simpl; rewrite Hsent; reflexivity|].
        right. exists w3. split; [reflexivity|]. split; [apply Hin; reflexivity|].
        left. apply chain_error_only.
      * eexists _, _, _. split; [exact Hrun|]. split; [reflexivity|].
        split; [apply cache_kept_after, Hcache|].
        split; [simpl; rewrite Hsent; reflexivity|].
        right. exists w3. split; [reflexivity|]. split; [apply Hin; reflexivity|].
        right. exists wei. reflexivity.
  - eexists _, st1, []. split; [exact Hrun|]. split; [reflexivity|].
    split; [exact Hcache|]. split; [rewrite app_nil_r; exact Hsent|].
    left. split; [reflexivity | apply chain_error_only].
Qed.

(** A token resolution returns a record of its chain, keeps the cache, and
    sends nothing, the balance query alone, or the four queries in order;
    the record is populated exactly in the last case. *)
Lemma token_effect (wallet_address token_address : string) (chain : Z) (st : State) :
  exists r st' new,
    get_token_balance net rpc_urls wallet_address token_address chain st = (inr r, st') /\
    chain_id r = Some chain /\ cache_kept chain st st' /\
    sent st' = sent st ++ new /\
    ((new = [] /\ error_only r) \/
     (exists w3,
        new = [CallBalanceOf w3 (strip token_address) (strip wallet_address)] /\
        error_only r) \/
     (exists w3 raw dec sym nam,
        new = token_queries w3 (strip token_address) (strip wallet_address) /\
        r = token_record chain token_address raw dec sym nam /\ (0 <= dec)%Z)).
Proof.
  destruct (get_w3_spec chain st) as (o & st1 & Hw3 & Hsent & Hcache & _ & Hin).
  destruct (token_outcome wallet_address token_address chain st)
    as (o' & st1' & Hw3' & Hrun).
  rewrite Hw3 in Hw3'. injection Hw3' as <- <-.
  assert (Hquiet : forall r, error_only r -> chain_id r = Some chain ->
            get_token_balance net rpc_urls wallet_address token_address chain st
            = (inr r, st1) ->
            exists r st' new,
              get_token_balance net rpc_urls wallet_address token_address chain st
              = (inr r, st') /\
              chain_id r = Some chain /\ cache_kept chain st st' /\
              sent st' = sent st ++ new /\
              ((new = [] /\ error_only r) \/
               (exists w3,
                  new = [CallBalanceOf w3 (strip token_address) (strip wallet_address)] /\
                  error_only r) \/
               (exists w3 raw dec sym nam,
                  new = token_queries w3 (strip token_address) (strip wallet_address) /\
                  r = token_record chain token_address raw dec sym nam /\ (0 <= dec)%Z))).
  { intros r Hr Hc Heq. exists r, st1, []. split; [exact Heq|]. split; [exact Hc|].
    split; [exact Hcache|]. split; [rewrite app_nil_r; exact Hsent|].
    left. split; [reflexivity | exact Hr]. }
  destruct o as [w3|]; cbv zeta in Hrun.
  - unfold _normalize_address in Hrun.
    destruct (negb (String.prefix "0x" (strip wallet_address)) || _);
      [apply (Hquiet _ (token_error_only _ _ _) eq_refl Hrun)|].
    destruct (negb (String.prefix "0x" (strip token_address)) || _);
      [apply (Hquiet _ (token_error_only _ _ _) eq_refl Hrun)|].
    destruct (eth_contract net w3 (strip token_address));
      [apply (Hquiet _ (token_error_only _ _ _) eq_refl Hrun)|].
    destruct (answer_uint net (sent st1) _) as [e|raw].
    + eexists _, _, _. split; [exact Hrun|]. split; [reflexivity|].
      split; [apply cache_kept_after, Hcache|].
      split; [simpl; rewrite Hsent; reflexivity|].
      right. left. exists w3. split; [reflexivity | apply token_error_only].
    + eexists _, _, (token_queries w3 (strip token_address) (strip wallet_address)).
      split; [exact Hrun|]. split; [reflexivity|].
      split; [exact Hcache|].
      split; [simpl; rewrite Hsent, <- !app_assoc; reflexivity|].
      right. right. eexists w3, raw, _, _, _. split; [reflexivity|].
      split; [reflexivity|].
      destruct (answer_uint net _ (CallDecimals w3 (strip token_address))); lia.
  - apply (Hquiet _ (chain_error_only _ _) eq_refl Hrun).
Qed.

(** *** What the resolution of a wallet does *)

Lemma resolved_effect (wallet_address : string) (chain : Z) (addresses : list string)
    (st st' : State) (rs : list Balance) :
  resolved net rpc_urls wallet_address chain addresses st rs st' ->
  Forall (fun r => chain_id r = Some chain) rs /\
  cache_kept chain st st' /\
  exists new, sent st' = sent st ++ new /\ (length new <= 4 * length addresses)%nat.
Proof.
  induction 1 as [st|a rest st st1 st2 r rs Hr _ (IHall & IHcache & new2 & IHsent & IHlen)].
  - split; [constructor|]. split; [apply cache_kept_refl|].
    exists []. split; [rewrite app_nil_r; reflexivity | simpl; lia].
  - destruct (token_effect wallet_address a chain st)
      as (r0 & st0 & new1 & Hrun & Hchain & Hcache & Hsent & Hshape).
    rewrite Hr in Hrun. injection Hrun as <- <-.
    split; [constructor; assumption|].
    split; [eapply cache_kept_trans; eassumption|].
    exists (new1 ++ new2). split; [rewrite IHsent, Hsent, app_assoc; reflexivity|].
    rewrite length_app. simpl.
    assert (length new1 <= 4)%nat.
    { destruct Hshape as [[-> _]|[(w3 & -> & _)|(w3 & raw & dec & sym & nam & -> & _)]];
        simpl; lia. }
    lia.
Qed.

Lemma wallet_effect (wallet_address : string) (chain : Z)
    (token_addresses : option (list string)) (st : State) :
  exists balances st' new,
    get_wallet_tokens net rpc_urls wallet_address chain token_addresses st
    = (inr balances, st') /\
    Forall (fun r => chain_id r = Some chain /\ failed r = false) balances /\
    (length balances <= 1 + length (default [] token_addresses))%nat /\
    cache_kept chain st st' /\
    sent st' = sent st ++ new /\
    (length new <= 1 + 4 * length (default [] token_addresses))%nat.
Proof.
  destruct (wallet_tokens_spec net rpc_urls wallet_address chain token_addresses st)
    as (native & st1 & rs & st2 & Hn & Hrs & Hlen & Hrun).
  destruct (native_effect wallet_address chain st)
    as (r0 & st0 & new1 & Hn' & Hchain & Hcache & Hsent & Hshape).
  rewrite Hn in Hn'. injection Hn' as <- <-.
  destruct (resolved_effect _ _ _ _ _ _ Hrs) as (Hall & Hcache2 & new2 & Hsent2 & Hlen2).
  eexists _, st2, (new1 ++ new2). split; [exact Hrun|].
  split; [|split; [|split; [|split]]].
  - apply Forall_app. split.
    + destruct (failed native) eqn:Hf; constructor; [auto | constructor].
    + rewrite Forall_forall in Hall. apply Forall_forall. intros r Hr.
      apply list_elem_of_In, filter_In in Hr. destruct Hr as [Hin Hkept].
      split; [apply Hall, list_elem_of_In, Hin|].
      apply kept_iff in Hkept. tauto.
  - rewrite length_app.
    assert (length (List.filter kept rs) <= length rs)%nat by apply List.filter_length_le.
    destruct (failed native); simpl; lia.
  - eapply cache_kept_trans; eassumption.
  - rewrite Hsent2, Hsent, app_assoc. reflexivity.
  - rewrite length_app.
    assert (length new1 <= 1)%nat.
    { destruct Hshape as [[-> _]|(w3 & -> & _)]; simpl; lia. }
    lia.
Qed.

(** X1. [_get_w3] caches the instance it hands out: the instance is in the
    cache afterwards, the entries of the other chains are as before,
    nothing is sent, and the next call for the chain returns the same
    instance and leaves the state as it is. *)
Theorem get_w3_caches_its_instance (chain : Z) (st st' : State) (w3 : Web3) :
  _get_w3 net rpc_urls chain st = (inr (Some w3), st') ->
  w3_instances st' !! chain = Some w3 /\
  (forall c, c <> chain -> w3_instances st' !! c = w3_instances st !! c) /\
  sent st' = sent st /\
  _get_w3 net rpc_urls chain st' = (inr (Some w3), st').
Proof.
  intros Hrun.
  destruct (get_w3_spec chain st) as (o & st1 & Hw3 & Hsent & (_ & Hother) & _ & Hin).
  rewrite Hrun in Hw3. injection Hw3 as <- <-.
  specialize (Hin w3 eq_refl).
  split; [exact Hin|]. split; [exact Hother|]. split; [exact Hsent|].
  unfold _get_w3. rewrite Hin. reflexivity.
Qed.

(** *** A chain without instance *)

Lemma unavailable_state (chain : Z) (st : State) :
  w3_of net rpc_urls chain st = None ->
  _get_w3 net rpc_urls chain st = (inr None, st).
Proof.
  intros Hnone. unfold w3_of in Hnone.
  destruct (get_w3_spec chain st) as (o & st1 & Hw3 & _ & _ & Hsame & _).
  rewrite Hw3 in Hnone. simpl in Hnone. subst o.
  destruct (Hsame eq_refl) as [-> _]. exact Hw3.
Qed.

Lemma native_unavailable (wallet_address : string) (chain : Z) (st : State) :
  w3_of net rpc_urls chain st = None ->
  get_native_balance net rpc_urls wallet_address chain st
  = (inr (chain_error chain (not_supported_msg chain)), st).
Proof.
  intros Hnone. pose proof (unavailable_state chain st Hnone) as Hw3.
  destruct (native_outcome wallet_address chain st) as (o & st1 & Hw3' & Hrun).
  rewrite Hw3 in Hw3'. injection Hw3' as <- <-. exact Hrun.
Qed.

Lemma token_unavailable (wallet_address token_address : string) (chain : Z)
    (st : State) :
  w3_of net rpc_urls chain st = None ->
  get_token_balance net rpc_urls wallet_address token_address chain st
  = (inr (chain_error chain (not_supported_msg chain)), st).
Proof.
  intros Hnone. pose proof (unavailable_state chain st Hnone) as Hw3.
  destruct (token_outcome wallet_address token_address chain st)
    as (o & st1 & Hw3' & Hrun).
  rewrite Hw3 in Hw3'. injection Hw3' as <- <-. exact Hrun.
Qed.

Lemma wallet_unavailable (wallet_address : string) (chain : Z)
    (token_addresses : option (list string)) (st : State) :
  w3_of net rpc_urls chain st = None ->
  get_wallet_tokens net rpc_urls wallet_address chain token_addresses st
  = (inr [], st).
Proof.
  intros Hnone.
  assert (Hloop : forall addresses,
            for_each_token net rpc_urls wallet_address chain [] addresses st
            = (inr [], st)).
  { induction addresses as [|a rest IH]; [reflexivity|].
    cbn [for_each_token]. rewrite run_bind.
    rewrite (add_token_run net rpc_urls _ _ _ _ _ _ _
               (token_unavailable wallet_address a chain st Hnone)).
    exact IH. }
  unfold get_wallet_tokens.
  rewrite run_bind, (native_unavailable wallet_address chain st Hnone).
  cbv beta match.
  change (failed (chain_error chain (not_supported_msg chain))) with true.
  destruct token_addresses as [[|a rest]|]; cbv beta match; simpl negb;
    cbv beta match; try reflexivity.
  apply Hloop.
Qed.

(** A chain is without instance when nothing is cached for it and its
    URL is missing or empty, or the constructor raises on it. *)
Lemma unavailable_by_configuration (chain : Z) (st : State) :
  w3_instances st !! chain = None ->
  (rpc_urls !! chain = None \/ rpc_urls !! chain = Some EmptyString \/
   exists url e, rpc_urls !! chain = Some url /\ web3_new net url = inl e) ->
  w3_of net rpc_urls chain st = None.
Proof.
  intros Hcache Hconf. unfold w3_of, _get_w3. rewrite Hcache.
  destruct Hconf as [-> | [-> | (url & e & -> & Hnew)]]; [reflexivity | reflexivity |].
  destruct (Py.truthy_str (Some url)); [rewrite Hnew|]; reflexivity.
Qed.

(** X2. On a chain with nothing cached and without usable endpoint (no
    URL, an empty URL, or a constructor that raises) both resolutions
    return the record with the chain identifier and the not-supported
    error, whatever the addresses, and [get_wallet_tokens] returns the
    empty list; the state is left as it is: the failure is not cached and
    nothing is sent. *)
Theorem unavailable_chain_contributes_nothing (wallet_address token_address : string)
    (chain : Z) (token_addresses : option (list string)) (st : State) :
  w3_instances st !! chain = None ->
  (rpc_urls !! chain = None \/ rpc_urls !! chain = Some EmptyString \/
   exists url e, rpc_urls !! chain = Some url /\ web3_new net url = inl e) ->
  get_native_balance net rpc_urls wallet_address chain st
  = (inr (chain_error chain (not_supported_msg chain)), st) /\
  get_token_balance net rpc_urls wallet_address token_address chain st
  = (inr (chain_error chain (not_supported_msg chain)), st) /\
  get_wallet_tokens net rpc_urls wallet_address chain token_addresses st
  = (inr [], st).
Proof.
  intros Hcache Hconf.
  pose proof (unavailable_by_configuration chain st Hcache Hconf) as Hnone.
  split; [apply native_unavailable, Hnone|].
  split; [apply token_unavailable, Hnone | apply wallet_unavailable, Hnone].
Qed.

(** X3. The list that [get_wallet_tokens] returns holds only records of
    the chain asked for that are not failed, and at most one record more
    than there are token addresses. *)
Theorem wallet_tokens_are_valid_records_of_the_chain (wallet_address : string)
    (chain : Z) (token_addresses : option (list string)) (st : State) :
  exists balances st',
    get_wallet_tokens net rpc_urls wallet_address chain token_addresses st
    = (inr balances, st') /\
    Forall (fun r => chain_id r = Some chain /\ failed r = false) balances /\
    (length balances <= 1 + length (default [] token_addresses))%nat.
Proof.
  destruct (wallet_effect wallet_address chain token_addresses st)
    as (balances & st' & new & Hrun & Hall & Hlen & _).
  exists balances, st'. auto.
Qed.

(** X4. [get_wallet_tokens] only adds to the state: no cached instance is
    lost or replaced and no entry appears for another chain, the requests
    sent before stay the start of the requests sent, and at most one
    request plus four per token address are added. *)
Theorem wallet_tokens_keep_cache_and_bound_requests (wallet_address : string)
    (chain : Z) (token_addresses : option (list string)) (st : State) :
  exists balances st' new,
    get_wallet_tokens net rpc_urls wallet_address chain token_addresses st
    = (inr balances, st') /\
    (forall c w, w3_instances st !! c = Some w -> w3_instances st' !! c = Some w) /\
    (forall c, c <> chain -> w3_instances st' !! c = w3_instances st !! c) /\
    sent st' = sent st ++ new /\
    (length new <= 1 + 4 * length (default [] token_addresses))%nat.
Proof.
  destruct (wallet_effect wallet_address chain token_addresses st)
    as (balances & st' & new & Hrun & _ & _ & (Hkeep & Hother) & Hsent & Hlen).
  exists balances, st', new. auto.
Qed.

Lemma error_only_not_populated (r : Balance) : error_only r -> ~ populated r.
Proof.
  intros (Herr & _) (Hnone & _). rewrite Hnone in Herr. destruct Herr as [x Hx].
  discriminate.
Qed.

Lemma token_record_populated (chain : Z) (token_address : string) (raw : N) (dec : Z)
    (sym nam : string) :
  populated (token_record chain token_address raw dec sym nam).
Proof. unfold populated. simpl. eauto 10. Qed.

(** X5. The requests of one resolution.  [get_native_balance] sends
    nothing or the one balance query.  [get_token_balance] sends nothing,
    or [balanceOf] alone, or [balanceOf], [decimals], [symbol] and [name] in
    this order; its record is populated exactly when the four were sent and
    is an error record otherwise.  The queries carry the trimmed addresses. *)
Theorem resolution_requests (wallet_address token_address : string) (chain : Z)
    (st : State) :
  (exists r st' new,
     get_native_balance net rpc_urls wallet_address chain st = (inr r, st') /\
     sent st' = sent st ++ new /\
     (new = [] \/ exists w3, new = [EthGetBalance w3 (strip wallet_address)])) /\
  (exists r st' new,
     get_token_balance net rpc_urls wallet_address token_address chain st = (inr r, st') /\
     sent st' = sent st ++ new /\
     (new = [] \/
      (exists w3, new = [CallBalanceOf w3 (strip token_address) (strip wallet_address)]) \/
      (exists w3, new = token_queries w3 (strip token_address) (strip wallet_address))) /\
     (populated r <-> length new = 4%nat) /\
     (error_only r <-> length new <> 4%nat)).
Proof.
  split.
  - destruct (native_effect wallet_address chain st)
      as (r & st' & new & Hrun & _ & _ & Hsent & Hshape).
    exists r, st', new. split; [exact Hrun|]. split; [exact Hsent|].
    destruct Hshape as [[-> _]|(w3 & -> & _)]; eauto.
  - destruct (token_effect wallet_address token_address chain st)
      as (r & st' & new & Hrun & _ & _ & Hsent & Hshape).
    exists r, st', new. split; [exact Hrun|]. split; [exact Hsent|].
    destruct Hshape
      as [[-> Herr]|[(w3 & -> & Herr)|(w3 & raw & dec & sym & nam & -> & -> & _)]].
    + split; [auto|]. pose proof (error_only_not_populated _ Herr).
      simpl. split; split; intros; try discriminate; try tauto.
    + split; [eauto|]. pose proof (error_only_not_populated _ Herr).
      simpl. split; split; intros; try discriminate; try tauto.
    + split; [eauto|]. pose proof (token_record_populated chain token_address raw dec sym nam)
        as Hpop.
      simpl. split; split; intros; try tauto.
      exfalso. exact (error_only_not_populated _ H Hpop).
Qed.

(** *** Scaled balances *)

(** A scaled balance is zero exactly when the integer balance is. *)
Lemma scaled_zero (raw : N) (dec : Z) : (scaled raw dec == 0)%Q <-> raw = 0%N.
Proof.
  unfold scaled. assert (H : (0 < 10 ^ dec)%Q) by (apply Qpower_0_lt; reflexivity).
  split.
  - intros Hz. unfold Qdiv in Hz. apply Qmult_integral in Hz.
    destruct Hz as [Hz|Hz].
    + unfold Qeq in Hz. simpl in Hz. lia.
    + apply Qinv_lt_0_compat in H. rewrite Hz in H. exfalso. apply (Qlt_irrefl _ H).
  - intros ->. unfold Qdiv. change (inject_Z (Z.of_N 0)) with 0%Q. ring.
Qed.

Lemma scaled_nonneg (raw : N) (dec : Z) : (0 <= scaled raw dec)%Q.
Proof.
  unfold scaled. assert (H : (0 < 10 ^ dec)%Q) by (apply Qpower_0_lt; reflexivity).
  apply Qle_shift_div_l; [exact H|].
  assert (Hraw : (0 <= inject_Z (Z.of_N raw))%Q).
  { change 0%Q with (inject_Z 0). rewrite <- Zle_Qle. lia. }
  lra.
Qed.

(** Every chain of the table has 18 decimals, which is also the default. *)
Lemma native_decimals (chain : Z) :
  default 18%Z (ci_decimals <$> CHAIN_CONFIG !! chain) = 18%Z.
Proof.
  destruct (CHAIN_CONFIG !! chain) as [ci|] eqn:Hci; [|reflexivity].
  apply elem_of_list_to_map_2 in Hci.
  repeat (apply elem_of_cons in Hci; destruct Hci as [Hci|Hci];
          [injection Hci as _ ->; reflexivity|]).
  inversion Hci.
Qed.

(** X6. A native record without error is whole: on every chain, in the
    table or not, it has the type native, no contract address, 18 decimals,
    the integer balance that the node answered, and a balance that is not
    negative and is zero exactly when that integer is. *)
Theorem errorless_native_record_is_whole (wallet_address : string) (chain : Z)
    (st st' : State) (r : Balance) :
  get_native_balance net rpc_urls wallet_address chain st = (inr r, st') ->
  error r = None ->
  exists (wei : N) (q : Q),
    token_type r = Some "native" /\ contract_address r = None /\
    balance_wei r = Some (Z.of_N wei) /\ decimals r = Some 18%Z /\
    balance r = Some q /\ (0 <= q)%Q /\ ((q == 0)%Q <-> wei = 0%N).
Proof.
  intros Hrun Hok.
  destruct (native_effect wallet_address chain st)
    as (r0 & st0 & new & Hrun' & _ & _ & _ & Hshape).
  rewrite Hrun in Hrun'. injection Hrun' as <- <-.
  assert (Hnot : ~ error_only r).
  { intros (Herr & _). rewrite Hok in Herr. destruct Herr as [x Hx]. discriminate. }
  destruct Hshape as [[_ Herr]|(w3 & _ & _ & [Herr|(wei & ->)])]; try contradiction.
  exists wei, (scaled wei 18). unfold native_record. simpl.
  rewrite native_decimals.
  split; [reflexivity|]. split; [reflexivity|]. split; [reflexivity|].
  split; [reflexivity|]. split; [reflexivity|].
  split; [apply scaled_nonneg | apply scaled_zero].
Qed.

(** X7. A token record without error is whole: it has the type erc20,
    the lowercased address it was asked for, the raw balance that
    [balanceOf] answered, decimals that are not negative, and a balance that
    is not negative and is zero when the raw balance is. *)
Theorem errorless_token_record_is_whole (wallet_address token_address : string)
    (chain : Z) (st st' : State) (r : Balance) :
  get_token_balance net rpc_urls wallet_address token_address chain st = (inr r, st') ->
  error r = None ->
  exists (raw : N) (dec : Z) (q : Q),
    token_type r = Some "erc20" /\
    contract_address r = Some (lower token_address) /\
    balance_raw r = Some (Z.of_N raw) /\ decimals r = Some dec /\ (0 <= dec)%Z /\
    balance r = Some q /\ (0 <= q)%Q /\ (raw = 0%N -> (q == 0)%Q).
Proof.
  intros Hrun Hok.
  destruct (token_effect wallet_address token_address chain st)
    as (r0 & st0 & new & Hrun' & _ & _ & _ & Hshape).
  rewrite Hrun in Hrun'. injection Hrun' as <- <-.
  assert (Hnot : ~ error_only r).
  { intros (Herr & _). rewrite Hok in Herr. destruct Herr as [x Hx]. discriminate. }
  destruct Hshape
    as [[_ Herr]|[(w3 & _ & Herr)|(w3 & raw & dec & sym & nam & _ & -> & Hdec)]];
    try contradiction.
  exists raw, dec, (scaled raw dec). unfold token_record. simpl.
  split; [reflexivity|]. split; [reflexivity|]. split; [reflexivity|].
  split; [reflexivity|]. split; [exact Hdec|]. split; [reflexivity|].
  split; [apply scaled_nonneg | apply scaled_zero].
Qed.

End Fetcher.

End FetcherExtras.
(** ** Addresses and whitespace *)

Module AddressFacts.

Import BalanceFetcher FetcherTerms ResolutionTerms FetcherProofs.

Local Open Scope list_scope.

Lemma lstrip_spaces (ws s : string) :
  all_space ws = true -> lstrip (ws +:+ s) = lstrip s.
Proof.
  induction ws as [|c ws IH]; simpl; [reflexivity|].
  intros H. apply andb_true_iff in H. destruct H as [Hc Hws].
  rewrite Hc. apply IH, Hws.
Qed.

Lemma lstrip_all_space (s : string) : all_space s = true -> lstrip s = EmptyString.
Proof.
  induction s as [|c s IH]; simpl; [reflexivity|].
  intros H. apply andb_true_iff in H. destruct H as [Hc Hs]. rewrite Hc. apply IH, Hs.
Qed.

Lemma lstrip_empty_all_space (s : string) : lstrip s = EmptyString -> all_space s = true.
Proof.
  induction s as [|c s IH]; simpl; [reflexivity|].
  destruct (is_space c); [exact IH | discriminate].
Qed.

Lemma all_space_app (s t : string) :
  all_space s = true -> all_space t = true -> all_space (s +:+ t) = true.
Proof.
  induction s as [|c s IH]; simpl; [auto|].
  intros H Ht. apply andb_true_iff in H. destruct H as [Hc Hs].
  rewrite Hc. simpl. apply IH; assumption.
Qed.

Lemma lstrip_app (s t : string) :
  lstrip s <> EmptyString -> lstrip (s +:+ t) = lstrip s +:+ t.
Proof.
  induction s as [|c s IH]; simpl; [congruence|].
  destruct (is_space c); [exact IH | reflexivity].
Qed.

Lemma rstrip_all_space (ws : string) : all_space ws = true -> rstrip ws = EmptyString.
Proof.
  induction ws as [|c ws IH]; simpl; [reflexivity|].
  intros H. apply andb_true_iff in H. destruct H as [Hc Hws].
  rewrite (IH Hws), Hc. reflexivity.
Qed.

Lemma rstrip_spaces (s ws : string) :
  all_space ws = true -> rstrip (s +:+ ws) = rstrip s.
Proof.
  intros Hws. induction s as [|c s IH]; simpl.
  - apply rstrip_all_space, Hws.
  - rewrite IH. reflexivity.
Qed.

Lemma rstrip_idempotent (s : string) : rstrip (rstrip s) = rstrip s.
Proof.
  induction s as [|c s IH]; simpl; [reflexivity|].
  destruct (rstrip s) as [|d r] eqn:Hr.
  - destruct (is_space c) eqn:Hc; simpl; [reflexivity|]. rewrite Hc. reflexivity.
  - simpl in *. rewrite IH. reflexivity.
Qed.

Lemma lstrip_starts_clean (s : string) : starts_clean (lstrip s).
Proof.
  induction s as [|c s IH]; simpl; [exact I|].
  destruct (is_space c) eqn:Hc; [exact IH | exact Hc].
Qed.

Lemma lstrip_clean (s : string) : starts_clean s -> lstrip s = s.
Proof. destruct s as [|c s]; simpl; [reflexivity|]. intros ->. reflexivity. Qed.

Lemma rstrip_starts_clean (s : string) : starts_clean s -> starts_clean (rstrip s).
Proof.
  destruct s as [|c s]; simpl; [auto|]. intros Hc.
  destruct (rstrip s); [rewrite Hc|]; exact Hc.
Qed.

(** [strip] neither sees surrounding whitespace nor leaves any. *)
Lemma strip_padded (ws1 s ws2 : string) :
  all_space ws1 = true -> all_space ws2 = true ->
  strip (ws1 +:+ s +:+ ws2) = strip s.
Proof.
  intros H1 H2. unfold strip. rewrite (lstrip_spaces _ _ H1).
  destruct (lstrip s) as [|c t] eqn:Hs.
  - rewrite lstrip_all_space; [reflexivity|].
    apply all_space_app; [apply lstrip_empty_all_space, Hs | exact H2].
  - rewrite lstrip_app by (rewrite Hs; discriminate).
    rewrite Hs. apply rstrip_spaces, H2.
Qed.

Lemma strip_idempotent (s : string) : strip (strip s) = strip s.
Proof.
  unfold strip.
  rewrite (lstrip_clean (rstrip (lstrip s)))
    by apply rstrip_starts_clean, lstrip_starts_clean.
  apply rstrip_idempotent.
Qed.

(** X8. An address that [_normalize_address] accepts comes back trimmed:
    the result is the trimmed argument, has 42 characters and starts with
    [0x], and normalizing it again returns it unchanged. *)
Theorem normalize_address_idempotent (address a : string) :
  _normalize_address address = inr a ->
  a = strip address /\ String.prefix "0x" a = true /\ String.length a = 42%nat /\
  strip a = a /\ _normalize_address a = inr a.
Proof.
  unfold _normalize_address.
  destruct (String.prefix "0x" (strip address)) eqn:Hp; simpl; [|discriminate].
  destruct (String.length (strip address) =? 42)%nat eqn:Hl; simpl; [|discriminate].
  intros [= <-]. rewrite strip_idempotent, Hp, Hl. simpl.
  apply Nat.eqb_eq in Hl. auto.
Qed.

(** X9. Whitespace around an address is not seen: the padded address is
    normalized to the same result, or refused with the same message, as
    the address itself, and [get_native_balance] does for a padded wallet
    address what it does for the address itself. *)
Theorem normalize_address_ignores_padding (ws1 address ws2 : string) :
  all_space ws1 = true -> all_space ws2 = true ->
  _normalize_address (ws1 +:+ address +:+ ws2) = _normalize_address address /\
  forall net rpc_urls chain st,
    get_native_balance net rpc_urls (ws1 +:+ address +:+ ws2) chain st
    = get_native_balance net rpc_urls address chain st.
Proof.
  intros H1 H2.
  assert (Hn : _normalize_address (ws1 +:+ address +:+ ws2) = _normalize_address address).
  { unfold _normalize_address. rewrite (strip_padded _ _ _ H1 H2). reflexivity. }
  split; [exact Hn|]. intros net rpc_urls chain st.
  destruct (FetcherExtras.native_outcome net rpc_urls (ws1 +:+ address +:+ ws2) chain st)
    as (o & st1 & Hw3 & ->).
  destruct (FetcherExtras.native_outcome net rpc_urls address chain st)
    as (o' & st1' & Hw3' & ->).
  rewrite Hw3 in Hw3'. injection Hw3' as <- <-. rewrite Hn. reflexivity.
Qed.

End AddressFacts.
(** ** The aggregator: groups, counts and prices *)

Module AggregatorExtras.

Import PortfolioAggregator Order AggregatorTerms GroupTerms PyFacts AggregatorProofs.

Local Open Scope list_scope.
Local Open Scope Q_scope.

(** *** Updates of an insertion-ordered dictionary *)

Section Upsert.

Context {K V : Type} `{EqDecision K}.

(** An update turns an invariant [P] of the bindings into [P'] when the
    keys are distinct, the updated value gets [P'], and the other bindings
    go from [P] to [P']. *)
Lemma upsert_inv (P P' : K -> V -> Prop) (k : K) (dflt : V) (f : V -> V)
    (d : list (K * V)) :
  NoDup (map fst d) ->
  Forall (fun kv => P (fst kv) (snd kv)) d ->
  (forall v, P k v -> P' k (f v)) ->
  (k ∉ map fst d -> P' k (f dflt)) ->
  (forall k' v, k' <> k -> P k' v -> P' k' v) ->
  Forall (fun kv => P' (fst kv) (snd kv)) (Py.upsert k dflt f d).
Proof.
  intros Hnd Hall Hupd Hnew Hother.
  induction d as [|[k' v] d IH]; simpl.
  - constructor; [|constructor]. simpl. apply Hnew. apply not_elem_of_nil.
  - simpl in Hnd. apply NoDup_cons in Hnd. destruct Hnd as [Hk' Hnd].
    apply Forall_cons in Hall. destruct Hall as [Hv Hall]. simpl in Hv.
    destruct (decide (k = k')) as [->|Hne].
    + constructor; [simpl; apply Hupd, Hv|].
      rewrite Forall_forall in Hall. apply Forall_forall. intros [k2 v2] Hin.
      simpl. apply Hother; [|apply (Hall _ Hin)].
      intros ->. apply Hk'. apply list_elem_of_fmap. exists (k', v2). auto.
    + constructor;
        [simpl; apply Hother; [intros Heq; apply Hne; symmetry; exact Heq | exact Hv]|].
      apply IH; [exact Hnd | exact Hall |].
      intros Hnotin. apply Hnew. intros Hin. apply elem_of_cons in Hin.
      destruct Hin as [Heq|Hin]; [exact (Hne Heq) | exact (Hnotin Hin)].
Qed.

Lemma upsert_NoDup (k : K) (dflt : V) (f : V -> V) (d : list (K * V)) :
  NoDup (map fst d) -> NoDup (map fst (Py.upsert k dflt f d)).
Proof. intros Hnd. rewrite upsert_keys. apply see_NoDup, Hnd. Qed.

Lemma upsert_key_in (k : K) (dflt : V) (f : V -> V) (d : list (K * V)) (x : K) :
  x ∈ map fst (Py.upsert k dflt f d) <-> x ∈ map fst d \/ x = k.
Proof. rewrite upsert_keys. apply see_elem_of. Qed.

End Upsert.

Lemma sum_snoc (xs : list Q) (x : Q) : Py.sum (xs ++ [x]) == Py.sum xs + x.
Proof.
  induction xs as [|y xs IH]; simpl.
  - rewrite sum_cons, !sum_nil. lra.
  - rewrite !sum_cons, IH. lra.
Qed.

(** *** The content of the chain groups *)

Lemma records_of_chain_snoc (c : Z) (pre : list Balance) (b : Balance) :
  records_of_chain c (pre ++ [b])
  = records_of_chain c pre ++ (if bool_decide (chain_id b = Some c) then [b] else []).
Proof. unfold records_of_chain. rewrite List.filter_app. reflexivity. Qed.

Lemma chain_group_update (c : Z) (pre : list Balance) (b : Balance) (g : ChainGroup) :
  chain_id b = Some c -> chain_group_of c pre g ->
  chain_group_of c (pre ++ [b]) (add_to_chain b c g).
Proof.
  intros Hc (Hid & Htok & Hval & _). unfold chain_group_of.
  rewrite records_of_chain_snoc, bool_decide_eq_true_2 by exact Hc.
  cbn [cg_chain_id cg_tokens cg_value_usd cg_chain_name add_to_chain].
  split; [reflexivity|]. split; [rewrite Htok, map_app; reflexivity|].
  split; [rewrite Hval, map_app; simpl; rewrite sum_snoc; reflexivity|].
  exists b. split; [apply last_snoc | reflexivity].
Qed.

Lemma chain_group_new (c : Z) (pre : list Balance) (b : Balance) :
  chain_id b = Some c -> records_of_chain c pre = [] ->
  chain_group_of c (pre ++ [b]) (add_to_chain b c default_chain_group).
Proof.
  intros Hc Hnone. unfold chain_group_of.
  rewrite records_of_chain_snoc, bool_decide_eq_true_2, Hnone by exact Hc.
  cbn [cg_chain_id cg_tokens cg_value_usd cg_chain_name add_to_chain
       default_chain_group app map].
  split; [reflexivity|]. split; [reflexivity|].
  split; [rewrite sum_cons, sum_nil; lra|].
  exists b. split; reflexivity.
Qed.

Lemma chain_group_other (c k : Z) (pre : list Balance) (b : Balance) (g : ChainGroup) :
  chain_id b = Some c -> k <> c -> chain_group_of k pre g ->
  chain_group_of k (pre ++ [b]) g.
Proof.
  intros Hc Hne Hg. unfold chain_group_of in *.
  rewrite records_of_chain_snoc, bool_decide_eq_false_2, app_nil_r; [exact Hg|].
  rewrite Hc. intros [= ->]. apply Hne. reflexivity.
Qed.

Lemma group_by_chain_groups (bs pre : list Balance) (acc by_chain : list (Z * ChainGroup)) :
  NoDup (map fst acc) ->
  (forall b c, In b pre -> chain_id b = Some c -> c ∈ map fst acc) ->
  Forall (fun kv => chain_group_of (fst kv) pre (snd kv)) acc ->
  group_by_chain acc bs = inr by_chain ->
  Forall (fun kv => chain_group_of (fst kv) (pre ++ bs) (snd kv)) by_chain.
Proof.
  revert pre acc. induction bs as [|b bs IH]; intros pre acc Hnd Hcov Hall; simpl.
  - intros [= <-]. rewrite app_nil_r. exact Hall.
  - destruct (chain_step acc b) as [e|acc'] eqn:Hstep; [discriminate|].
    apply chain_step_inv in Hstep. destruct Hstep as (c & Hc & ->).
    intros Hg. change (b :: bs) with ([b] ++ bs). rewrite app_assoc.
    apply (IH (pre ++ [b]) (Py.upsert c default_chain_group (add_to_chain b c) acc));
      [apply upsert_NoDup, Hnd | | | exact Hg].
    + intros b' c' Hin Hc'. apply upsert_key_in.
      apply in_app_or in Hin. destruct Hin as [Hin|[<-|[]]].
      * left. apply (Hcov b' c' Hin Hc').
      * right. congruence.
    + apply (upsert_inv (fun k g => chain_group_of k pre g)
               (fun k g => chain_group_of k (pre ++ [b]) g)); [exact Hnd | exact Hall | | |].
      * intros v Hv. apply chain_group_update; assumption.
      * intros Hnotin. apply chain_group_new; [exact Hc|].
        unfold records_of_chain.
        destruct (List.filter _ pre) as [|b' l] eqn:Hf; [reflexivity|].
        exfalso. apply Hnotin.
        assert (Hin : In b' (List.filter (fun b => bool_decide (chain_id b = Some c)) pre))
          by (rewrite Hf; left; reflexivity).
        apply filter_In in Hin. destruct Hin as [Hin Hb'].
        apply bool_decide_eq_true_1 in Hb'. apply (Hcov b' c Hin Hb').
      * intros k' v Hne Hv. apply (chain_group_other c); assumption.
Qed.

(** *** The content of the symbol groups *)

Lemma records_of_symbol_snoc (k : string) (pre : list Balance) (b : Balance) :
  records_of_symbol k (pre ++ [b])
  = records_of_symbol k pre ++ (if bool_decide (symbol_key b = k) then [b] else []).
Proof. unfold records_of_symbol. rewrite List.filter_app. reflexivity. Qed.

Lemma token_group_update (pre : list Balance) (b : Balance) (g : TokenGroup) :
  token_group_of (symbol_key b) pre g ->
  token_group_of (symbol_key b) (pre ++ [b]) (add_to_token b g).
Proof.
  intros (Hid & _ & Hch & Hbal & Hval). unfold token_group_of.
  rewrite records_of_symbol_snoc, bool_decide_eq_true_2 by reflexivity.
  cbn [tg_symbol tg_chains tg_balance tg_value_usd add_to_token].
  split; [reflexivity|]. split; [intros H; apply app_eq_nil in H; destruct H; discriminate|].
  split; [rewrite Hch, map_app; reflexivity|].
  split; [rewrite Hbal, map_app; simpl; rewrite sum_snoc; reflexivity|].
  rewrite Hval, map_app. simpl. rewrite sum_snoc. reflexivity.
Qed.

Lemma token_group_new (pre : list Balance) (b : Balance) :
  records_of_symbol (symbol_key b) pre = [] ->
  token_group_of (symbol_key b) (pre ++ [b]) (add_to_token b default_token_group).
Proof.
  intros Hnone. unfold token_group_of.
  rewrite records_of_symbol_snoc, bool_decide_eq_true_2, Hnone by reflexivity.
  cbn [tg_symbol tg_chains tg_balance tg_value_usd add_to_token
       default_token_group app map].
  split; [reflexivity|]. split; [discriminate|]. split; [reflexivity|].
  split; rewrite sum_cons, sum_nil; unfold get_balance; lra.
Qed.

Lemma token_group_other (k : string) (pre : list Balance) (b : Balance) (g : TokenGroup) :
  k <> symbol_key b -> token_group_of k pre g -> token_group_of k (pre ++ [b]) g.
Proof.
  intros Hne Hg. unfold token_group_of in *.
  rewrite records_of_symbol_snoc, bool_decide_eq_false_2, app_nil_r; [exact Hg|].
  intros Heq. apply Hne. symmetry. exact Heq.
Qed.

Lemma group_by_token_groups (bs pre : list Balance) (acc : list (string * TokenGroup)) :
  NoDup (map fst acc) ->
  (forall b, In b pre -> symbol_key b ∈ map fst acc) ->
  Forall (fun kv => token_group_of (fst kv) pre (snd kv)) acc ->
  Forall (fun kv => token_group_of (fst kv) (pre ++ bs) (snd kv))
    (fold_left token_step bs acc).
Proof.
  revert pre acc. induction bs as [|b bs IH]; intros pre acc Hnd Hcov Hall; simpl.
  - rewrite app_nil_r. exact Hall.
  - change (b :: bs) with ([b] ++ bs). rewrite app_assoc. unfold token_step at 2.
    apply (IH (pre ++ [b])
             (Py.upsert (symbol_key b) default_token_group (add_to_token b) acc));
      [apply upsert_NoDup, Hnd | |].
    + intros b' Hin. apply upsert_key_in.
      apply in_app_or in Hin. destruct Hin as [Hin|[<-|[]]].
      * left. apply (Hcov b' Hin).
      * right. reflexivity.
    + apply (upsert_inv (fun k g => token_group_of k pre g)
               (fun k g => token_group_of k (pre ++ [b]) g)); [exact Hnd | exact Hall | | |].
      * intros v Hv. apply token_group_update. exact Hv.
      * intros Hnotin. apply token_group_new. unfold records_of_symbol.
        destruct (List.filter _ pre) as [|b' l] eqn:Hf; [reflexivity|].
        exfalso. apply Hnotin.
        assert (Hin : In b' (List.filter
                  (fun b0 => bool_decide (symbol_key b0 = symbol_key b)) pre))
          by (rewrite Hf; left; reflexivity).
        apply filter_In in Hin. destruct Hin as [Hin Hb'].
        apply bool_decide_eq_true_1 in Hb'. rewrite <- Hb'. apply (Hcov b' Hin).
      * intros k' v Hne Hv. apply token_group_other; assumption.
Qed.

(** X10. Every group of the chain breakdown holds exactly the enriched
    records of its chain: its token entries are those of these records in
    the order of the input, its value is the sum of their values, and its
    chain name is the one given by the last of them. *)
Theorem chain_group_holds_the_records_of_its_chain (self : Aggregator)
    (wallet : string) (balances : list Balance) (s : PortfolioSummary) (g : ChainGroup) :
  aggregate_portfolio self wallet balances = inr s ->
  In g (breakdown_by_chain s) ->
  chain_group_of (cg_chain_id g) (enriched_of self balances) g.
Proof.
  intros Hs Hin.
  destruct (aggregate_breakdowns self wallet balances s Hs) as (d & Hd & Hbc & _).
  rewrite Hbc in Hin.
  apply (Permutation_in _ (Permutation_sym (sorted_reverse_Permutation _ _))) in Hin.
  unfold chain_groups_of in Hin. rewrite Hd in Hin. unfold Py.values in Hin.
  apply in_map_iff in Hin. destruct Hin as ([c g'] & <- & Hin). simpl.
  pose proof (group_by_chain_groups (enriched_of self balances) [] [] d
                (NoDup_nil_2) (fun b c H => match H with end) (Forall_nil_2 _) Hd) as Hall.
  rewrite Forall_forall in Hall. specialize (Hall _ (proj2 (list_elem_of_In _ _) Hin)).
  simpl in Hall. destruct Hall as (Hid & Hrest). subst.
  split; [reflexivity | exact Hrest].
Qed.

(** X11. Every group of the token breakdown holds exactly the enriched
    records of its symbol (["UNKNOWN"] for a record without symbol), on
    whatever chain they are: its chain names are those of these records in
    the order of the input, its balance is the sum of their balances and
    its value the sum of their values. *)
Theorem token_group_holds_the_records_of_its_symbol (self : Aggregator)
    (wallet : string) (balances : list Balance) (s : PortfolioSummary) (g : TokenGroup) :
  aggregate_portfolio self wallet balances = inr s ->
  In g (breakdown_by_token s) ->
  token_group_of (tg_symbol g) (enriched_of self balances) g.
Proof.
  intros Hs Hin.
  destruct (aggregate_breakdowns self wallet balances s Hs) as (d & _ & _ & Hbt & _).
  rewrite Hbt in Hin.
  apply (Permutation_in _ (Permutation_sym (sorted_reverse_Permutation _ _))) in Hin.
  unfold token_groups_of, Py.values in Hin. rewrite group_by_token_fold in Hin.
  apply in_map_iff in Hin. destruct Hin as ([k g'] & <- & Hin). simpl.
  pose proof (group_by_token_groups (enriched_of self balances) [] []
                (NoDup_nil_2) (fun b H => match H with end) (Forall_nil_2 _)) as Hall.
  rewrite Forall_forall in Hall. specialize (Hall _ (proj2 (list_elem_of_In _ _) Hin)).
  simpl in Hall. destruct Hall as (Hid & Hrest). subst.
  split; [reflexivity | exact Hrest].
Qed.

(** *** Counts *)

Lemma see_length {K} `{EqDecision K} (seen : list K) (k : K) :
  (length (see seen k) <= S (length seen))%nat.
Proof.
  unfold see. destruct (decide (k ∈ seen)); [lia|]. rewrite length_app. simpl. lia.
Qed.

Lemma first_seen_from_length {K} `{EqDecision K} (ks seen : list K) :
  (length (first_seen_from seen ks) <= length seen + length ks)%nat.
Proof.
  unfold first_seen_from. revert seen.
  induction ks as [|k ks IH]; intros seen; simpl; [lia|].
  specialize (IH (see seen k)). pose proof (see_length seen k). lia.
Qed.

Lemma first_seen_size (ks : list Z) :
  size (list_to_set ks : gset Z) = length (first_seen ks).
Proof.
  assert (Heq : (list_to_set ks : gset Z) = list_to_set (first_seen ks)).
  { apply set_eq. intros x. rewrite !elem_of_list_to_set.
    unfold first_seen. rewrite first_seen_from_elem_of.
    split; [auto | intros [H|H]; [inversion H | exact H]]. }
  rewrite Heq. apply size_list_to_set.
  apply first_seen_from_NoDup. constructor.
Qed.

Lemma omap_chain_id_length (bs : list Balance) :
  (length (omap chain_id bs) <= length bs)%nat.
Proof.
  induction bs as [|b bs IH]; [reflexivity|].
  cbn [omap list_omap]. destruct (chain_id b); simpl; lia.
Qed.

Lemma sorted_reverse_length {A} (key : A -> Q) (l : list A) :
  length (Py.sorted_reverse key l) = length l.
Proof. symmetry. apply Permutation_length, sorted_reverse_Permutation. Qed.

(** X12. The counts of a returned summary agree with its content:
    [tokens_count] is the number of valid records, [chains_count] is the
    number of groups of the chain breakdown, the token breakdown has one
    group per distinct symbol, and neither breakdown has more groups than
    there are valid records. *)
Theorem counts_agree_with_breakdowns (self : Aggregator) (wallet : string)
    (balances : list Balance) (s : PortfolioSummary) :
  aggregate_portfolio self wallet balances = inr s ->
  tokens_count s = length (valid_of balances) /\
  chains_count s = length (breakdown_by_chain s) /\
  length (breakdown_by_token s)
  = length (first_seen (map symbol_key (valid_of balances))) /\
  (chains_count s <= tokens_count s)%nat /\
  (length (breakdown_by_token s) <= tokens_count s)%nat.
Proof.
  intros Hs.
  destruct (valid_of balances) as [|b0 bs0] eqn:Hv.
  { rewrite (aggregate_no_valid _ _ _ Hv) in Hs. injection Hs as <-.
    simpl. repeat split; lia. }
  destruct (aggregate_some_valid self wallet balances s) as (d & Hd & ->);
    [rewrite Hv; discriminate | exact Hs |].
  rewrite <- Hv.
  cbn [tokens_count chains_count breakdown_by_chain breakdown_by_token].
  pose proof (group_by_chain_spec _ _ _ Hd) as (_ & Hkeys & _).
  pose proof (group_by_token_spec (enriched_of self balances) []) as (Htkeys & _).
  rewrite <- group_by_token_fold in Htkeys.
  assert (Hc : length (Py.sorted_reverse cg_value_usd (Py.values d))
               = length (first_seen (omap chain_id (valid_of balances)))).
  { rewrite sorted_reverse_length. unfold Py.values. rewrite length_map.
    rewrite <- (length_map fst d), Hkeys. unfold enriched_of.
    rewrite enriched_chain_ids. reflexivity. }
  assert (Ht : length (Py.sorted_reverse tg_value_usd
                 (Py.values (group_by_token (enriched_of self balances))))
               = length (first_seen (map symbol_key (valid_of balances)))).
  { rewrite sorted_reverse_length. unfold Py.values. rewrite length_map.
    rewrite <- (length_map fst (group_by_token _)), Htkeys. unfold enriched_of.
    rewrite enriched_symbol_keys. reflexivity. }
  split; [reflexivity|]. split; [|split; [exact Ht|split]].
  - rewrite Hc. unfold count_chains. apply first_seen_size.
  - unfold count_chains. rewrite first_seen_size.
    pose proof (first_seen_from_length (omap chain_id (valid_of balances)) []) as H1.
    pose proof (omap_chain_id_length (valid_of balances)) as H2.
    unfold first_seen. simpl in H1. lia.
  - rewrite Ht.
    pose proof (first_seen_from_length (map symbol_key (valid_of balances)) []) as H.
    rewrite length_map in H. simpl in H. exact H.
Qed.

(** *** Failed records *)

Lemma valid_of_idempotent (balances : list Balance) :
  valid_of (valid_of balances) = valid_of balances.
Proof.
  unfold valid_of. induction balances as [|b bs IH]; simpl; [reflexivity|].
  destruct (failed b) eqn:Hb; simpl; [exact IH|]. rewrite Hb. simpl. rewrite IH.
  reflexivity.
Qed.

(** X13. As long as one record is valid, the failed records of the input
    do not show in the summary: the result is that for the valid records
    alone. *)
Theorem failed_records_do_not_show (self : Aggregator) (wallet : string)
    (balances : list Balance) :
  valid_of balances <> [] ->
  aggregate_portfolio self wallet balances
  = aggregate_portfolio self wallet (valid_of balances).
Proof.
  intros Hne. unfold aggregate_portfolio.
  fold (valid_of balances). fold (valid_of (valid_of balances)).
  rewrite valid_of_idempotent.
  destruct (valid_of balances) as [|b bs]; [congruence | reflexivity].
Qed.

(** *** Prices *)

(** The price of a token, with the test of the status written out. *)
Lemma get_token_price_cases (self : Aggregator) (a : string) (c : option Z)
    (sym : option string) :
  _get_token_price self a c sym
  = match price_oracle_url self with
    | Some url =>
        if Py.truthy_str (Some url) && negb (String.eqb a "native") then
          match oracle_post self url a c with
          | OracleResponse status price =>
              if decide (status = 200%Z) then price else _get_fallback_price sym
          | OracleRaises => _get_fallback_price sym
          end
        else _get_fallback_price sym
    | None => _get_fallback_price sym
    end.
Proof.
  unfold _get_token_price.
  destruct (price_oracle_url self) as [url|]; [|reflexivity].
  destruct (Py.truthy_str (Some url) && negb (String.eqb a "native")); [|reflexivity].
  destruct (oracle_post self url a c) as [|status price]; [reflexivity|].
  destruct (decide (status = 200%Z)) as [->|Hne]; [reflexivity|].
  destruct status as [|p|p]; try reflexivity.
  do 8 (try (destruct p as [p|p|]; try reflexivity; try (exfalso; apply Hne; reflexivity))).
Qed.

(** X14. A record without contract address (absent, empty, or the word
    [native]) is priced from the fallback table by its symbol: the oracle
    is not asked, so that two aggregators, whatever their oracle, enrich
    the record in the same way. *)
Theorem record_without_address_is_priced_from_the_table (self self' : Aggregator)
    (b : Balance) :
  contract_address b = None \/ contract_address b = Some EmptyString \/
  contract_address b = Some "native" ->
  resolved_price self b = _get_fallback_price (symbol b) /\
  enrich self b = enrich self' b.
Proof.
  intros Haddr.
  assert (Hnative : address_or_native b = "native").
  { unfold address_or_native. destruct Haddr as [-> | [-> | ->]]; reflexivity. }
  assert (Hp : forall s, resolved_price s b = _get_fallback_price (symbol b)).
  { intros s. unfold resolved_price. rewrite get_token_price_cases, Hnative.
    destruct (price_oracle_url s) as [url|]; [|reflexivity].
    rewrite andb_false_r. reflexivity. }
  split; [apply Hp|]. unfold enrich. rewrite !Hp. reflexivity.
Qed.

(** X15. For a record with a contract address and an aggregator with an
    oracle URL, a response of status 200 decides the price, also when it
    carries none: the record then has no price and the value 0, whatever the
    fallback table has for its symbol.  Every other outcome of the request
    leaves the price to the table. *)
Theorem oracle_response_decides_the_price (self : Aggregator) (url a : string)
    (b : Balance) :
  price_oracle_url self = Some url -> url <> EmptyString ->
  contract_address b = Some a -> a <> EmptyString -> a <> "native" ->
  (forall price, oracle_post self url a (chain_id b) = OracleResponse 200 price ->
     resolved_price self b = price /\
     (price = None ->
      price_usd (enrich self b) = None /\ value_usd (enrich self b) = Some 0)) /\
  (oracle_post self url a (chain_id b) = OracleRaises ->
   resolved_price self b = _get_fallback_price (symbol b)) /\
  (forall status price,
     oracle_post self url a (chain_id b) = OracleResponse status price ->
     status <> 200%Z ->
     resolved_price self b = _get_fallback_price (symbol b)).
Proof.
  intros Hurl Hu Haddr Ha Hnat.
  assert (Haddress : address_or_native b = a).
  { unfold address_or_native. rewrite Haddr. simpl.
    destruct (String.eqb a EmptyString) eqn:He; [|reflexivity].
    apply String.eqb_eq in He. contradiction. }
  assert (Hasked : resolved_price self b
                   = match oracle_post self url a (chain_id b) with
                     | OracleResponse status price =>
                         if decide (status = 200%Z) then price
                         else _get_fallback_price (symbol b)
                     | OracleRaises => _get_fallback_price (symbol b)
                     end).
  { unfold resolved_price. rewrite get_token_price_cases, Hurl, Haddress. simpl.
    destruct (String.eqb url EmptyString) eqn:He;
      [apply String.eqb_eq in He; contradiction|].
    destruct (String.eqb a "native") eqn:Hn;
      [apply String.eqb_eq in Hn; contradiction|].
    reflexivity. }
  split; [|split].
  - intros price Hreply. rewrite Hreply in Hasked. simpl in Hasked.
    split; [exact Hasked|]. intros ->. unfold enrich. rewrite Hasked. auto.
  - intros Hreply. rewrite Hreply in Hasked. exact Hasked.
  - intros status price Hreply Hne. rewrite Hreply in Hasked.
    destruct (decide (status = 200%Z)); [contradiction | exact Hasked].
Qed.

(** *** Signs *)

Lemma round_half_even_between (x : Q) :
  (Qfloor x <= Py.round_half_even x <= Qfloor x + 1)%Z.
Proof.
  unfold Py.round_half_even.
  destruct (x - inject_Z (Qfloor x) ?= 1 # 2); [destruct (Z.even _)| |]; lia.
Qed.

Lemma round_half_even_mono (x y : Q) :
  x <= y -> (Py.round_half_even x <= Py.round_half_even y)%Z.
Proof.
  intros Hxy. pose proof (Qfloor_resp_le x y Hxy) as Hf.
  pose proof (round_half_even_between x) as Hx.
  pose proof (round_half_even_between y) as Hy.
  destruct (Z_lt_le_dec (Qfloor x) (Qfloor y)) as [Hlt|Hge]; [lia|].
  assert (Heq : Qfloor y = Qfloor x) by lia.
  unfold Py.round_half_even. rewrite Heq.
  destruct (x - inject_Z (Qfloor x) ?= 1 # 2) eqn:Hcx;
    destruct (y - inject_Z (Qfloor x) ?= 1 # 2) eqn:Hcy;
    try (destruct (Z.even (Qfloor x)); lia);
    repeat match goal with
           | H : (_ ?= _) = Eq |- _ => apply Qeq_alt in H
           | H : (_ ?= _) = Lt |- _ => apply Qlt_alt in H
           | H : (_ ?= _) = Gt |- _ => apply Qgt_alt in H
           end;
    exfalso; lra.
Qed.

Lemma round2_mono (x y : Q) : x <= y -> Py.round2 x <= Py.round2 y.
Proof.
  intros Hxy. unfold Py.round2, Qdiv.
  apply Qmult_le_compat_r; [|apply Qle_bool_imp_le; reflexivity].
  rewrite <- Zle_Qle. apply round_half_even_mono. lra.
Qed.

Lemma round2_nonneg (x : Q) : 0 <= x -> 0 <= Py.round2 x.
Proof.
  intros Hx. apply (Qle_trans _ (Py.round2 0)); [|apply round2_mono, Hx].
  apply Qle_bool_imp_le. reflexivity.
Qed.

Lemma sum_nonneg (xs : list Q) : Forall (fun x => 0 <= x) xs -> 0 <= Py.sum xs.
Proof.
  induction 1 as [|x xs Hx _ IH]; [rewrite sum_nil; lra|].
  rewrite sum_cons. lra.
Qed.

Lemma fallback_price_positive (sym : option string) (p : Q) :
  _get_fallback_price sym = Some p -> 0 < p.
Proof.
  unfold _get_fallback_price, fallback_prices. destruct sym as [s|]; [|discriminate].
  intros H. apply elem_of_list_to_map_2 in H.
  repeat (apply elem_of_cons in H; destruct H as [H|H];
          [injection H as _ ->; reflexivity|]).
  inversion H.
Qed.

(** An aggregator whose oracle never answers a negative price. *)
Lemma resolved_price_nonneg (self : Aggregator) (b : Balance) (p : Q) :
  (forall url a c q, oracle_post self url a c = OracleResponse 200 (Some q) -> 0 <= q) ->
  resolved_price self b = Some p -> 0 <= p.
Proof.
  intros Horacle. unfold resolved_price. rewrite get_token_price_cases.
  assert (Hfb : _get_fallback_price (symbol b) = Some p -> 0 <= p).
  { intros H. apply fallback_price_positive in H. lra. }
  destruct (price_oracle_url self) as [url|]; [|exact Hfb].
  destruct (_ && _); [|exact Hfb].
  destruct (oracle_post self url _ _) as [|status price] eqn:Hreply; [exact Hfb|].
  destruct (decide (status = 200%Z)) as [->|_]; [|exact Hfb].
  intros ->. apply (Horacle _ _ _ _ Hreply).
Qed.

Lemma enriched_value_nonneg (self : Aggregator) (b : Balance) :
  (forall url a c q, oracle_post self url a c = OracleResponse 200 (Some q) -> 0 <= q) ->
  (forall q, balance b = Some q -> 0 <= q) ->
  0 <= get_value (enrich self b).
Proof.
  intros Horacle Hbal. unfold enrich, get_value.
  destruct (resolved_price self b) as [p|] eqn:Hp; [|simpl; lra].
  destruct (Py.truthy_num (balance b)); [|simpl; lra].
  simpl. pose proof (resolved_price_nonneg self b p Horacle Hp) as H0.
  destruct (balance b) as [q|]; simpl.
  - specialize (Hbal q eq_refl). apply Qmult_le_0_compat; assumption.
  - lra.
Qed.

(** X16. With balances that are not negative and an oracle that answers
    no negative price, nothing in a returned summary is negative: the
    total, the two subtotals and the value of every group; and neither
    subtotal exceeds the total, before and after rounding. *)
Theorem summary_is_not_negative (self : Aggregator) (wallet : string)
    (balances : list Balance) (s : PortfolioSummary) :
  (forall b q, In b balances -> failed b = false -> balance b = Some q -> 0 <= q) ->
  (forall url a c q, oracle_post self url a c = OracleResponse 200 (Some q) -> 0 <= q) ->
  aggregate_portfolio self wallet balances = inr s ->
  0 <= total_value_usd s /\
  0 <= native_value_usd s /\ 0 <= erc20_value_usd s /\
  native_value_usd s <= total_value_usd s /\
  erc20_value_usd s <= total_value_usd s /\
  Forall (fun g => 0 <= cg_value_usd g) (breakdown_by_chain s) /\
  Forall (fun g => 0 <= tg_value_usd g) (breakdown_by_token s).
Proof.
  intros Hbal Horacle Hs.
  assert (Hvals : Forall (fun b => 0 <= get_value b) (enriched_of self balances)).
  { unfold enriched_of, _enrich_with_prices. rewrite Forall_map, Forall_forall.
    intros b Hb. apply list_elem_of_In, valid_of_In in Hb. destruct Hb as [Hin Hv].
    simpl. apply enriched_value_nonneg; [exact Horacle|].
    intros q Hq. apply (Hbal b q Hin Hv Hq). }
  assert (Hpart : forall p : Balance -> bool,
            Forall (fun x => 0 <= x) (map get_value (List.filter p (enriched_of self balances)))).
  { intros p. rewrite Forall_map, Forall_forall. intros b Hb.
    apply list_elem_of_In, filter_In in Hb. destruct Hb as [Hb _].
    rewrite Forall_forall in Hvals. apply Hvals, list_elem_of_In, Hb. }
  assert (Hsub : forall p : Balance -> bool,
            0 <= Py.sum (map get_value (List.filter p (enriched_of self balances))) /\
            Py.sum (map get_value (List.filter p (enriched_of self balances)))
            <= Py.sum (map get_value (enriched_of self balances))).
  { intros p. split; [apply sum_nonneg, Hpart|].
    rewrite (sum_partition get_value p (enriched_of self balances)).
    pose proof (sum_nonneg _ (Hpart (fun a => negb (p a)))). lra. }
  assert (Hfields :
    0 <= native_value_usd s /\ 0 <= erc20_value_usd s /\
    native_value_usd s <= total_value_usd s /\ erc20_value_usd s <= total_value_usd s).
  { destruct (valid_of balances) as [|b0 bs0] eqn:Hv.
    - rewrite (aggregate_no_valid _ _ _ Hv) in Hs. injection Hs as <-. simpl.
      repeat split; lra.
    - destruct (aggregate_some_valid self wallet balances s) as (d & _ & ->);
        [rewrite Hv; discriminate | exact Hs |].
      cbn [native_value_usd erc20_value_usd total_value_usd].
      destruct (Hsub (is_type "native")) as [Hn0 Hn].
      destruct (Hsub (is_type "erc20")) as [He0 He].
      split; [apply round2_nonneg, Hn0|]. split; [apply round2_nonneg, He0|].
      split; apply round2_mono; assumption. }
  destruct Hfields as (H1 & H2 & H3 & H4).
  split; [exact (Qle_trans _ _ _ H1 H3)|]. split; [exact H1|]. split; [exact H2|]. split; [exact H3|]. split; [exact H4|].
  destruct (aggregate_breakdowns self wallet balances s Hs) as (d & Hd & Hbc & Hbt & _).
  split.
  - rewrite Hbc. apply Forall_forall. intros g Hg. apply list_elem_of_In in Hg.
    apply (Permutation_in _ (Permutation_sym (sorted_reverse_Permutation _ _))) in Hg.
    unfold chain_groups_of in Hg. rewrite Hd in Hg. unfold Py.values in Hg.
    apply in_map_iff in Hg. destruct Hg as ([c g'] & <- & Hg).
    pose proof (group_by_chain_groups (enriched_of self balances) [] [] d
                  (NoDup_nil_2) (fun b c H => match H with end) (Forall_nil_2 _) Hd)
      as Hall.
    rewrite Forall_forall in Hall. specialize (Hall _ (proj2 (list_elem_of_In _ _) Hg)).
    simpl in *. destruct Hall as (_ & _ & Hval & _). rewrite Hval.
    apply sum_nonneg, Hpart.
  - rewrite Hbt. apply Forall_forall. intros g Hg. apply list_elem_of_In in Hg.
    apply (Permutation_in _ (Permutation_sym (sorted_reverse_Permutation _ _))) in Hg.
    unfold token_groups_of, Py.values in Hg. rewrite group_by_token_fold in Hg.
    apply in_map_iff in Hg. destruct Hg as ([k g'] & <- & Hg).
    pose proof (group_by_token_groups (enriched_of self balances) [] []
                  (NoDup_nil_2) (fun b H => match H with end) (Forall_nil_2 _)) as Hall.
    rewrite Forall_forall in Hall. specialize (Hall _ (proj2 (list_elem_of_In _ _) Hg)).
    simpl in *. destruct Hall as (_ & _ & _ & _ & Hval). rewrite Hval.
    apply sum_nonneg, Hpart.
Qed.

End AggregatorExtras.
(** ** The endpoint *)

Module MainProofs.

Import BalanceFetcher PortfolioAggregator FetcherTerms AggregatorTerms ResolutionTerms.
Import FetcherProofs AggregatorProofs.

Local Open Scope list_scope.

(** *** Gathering the chains *)

Lemma flatten_from (results : list (Py.exn + list Balance)) (acc : list Balance) :
  fold_left
    (fun all_balances result =>
       match result with
       | inl _ => all_balances
       | inr balances => all_balances ++ balances
       end)
    results acc
  = acc ++ Main.flatten results.
Proof.
  unfold Main.flatten. revert acc.
  induction results as [|[e|l] results IH]; intros acc; simpl.
  - rewrite app_nil_r. reflexivity.
  - apply IH.
  - rewrite IH, (IH l), app_assoc. reflexivity.
Qed.

Lemma flatten_cons_inr (l : list Balance) (results : list (Py.exn + list Balance)) :
  Main.flatten (inr l :: results) = l ++ Main.flatten results.
Proof. unfold Main.flatten at 1. simpl. apply flatten_from. Qed.






(** *** Chains without instance *)

Lemma gather_unavailable (net : Network) (urls : gmap Z string) (wallet : string)
    (token_addresses : option (list string)) (cs : list Z) (st : State) :
  (forall c, In c cs -> w3_of net urls c st = None) ->
  exists results,
    Main.gather
      (map (fun chain => get_wallet_tokens net urls wallet chain token_addresses) cs) st
    = (results, st) /\
    Main.flatten results = [].
Proof.
  induction cs as [|c cs IH]; intros Hnone; simpl.
  - exists []. split; reflexivity.
  - rewrite (FetcherExtras.wallet_unavailable net urls wallet c token_addresses st)
      by (apply Hnone; left; reflexivity).
    destruct IH as (results & Hg & Hflat); [intros c' Hc'; apply Hnone; right; exact Hc'|].
    rewrite Hg. exists (inr [] :: results). split; [reflexivity|].
    rewrite flatten_cons_inr. exact Hflat.
Qed.

(** X18. When every chain to check is no key of [RPC_URLS] or has no
    instance (an empty URL or a constructor that raises, and nothing
    cached), [get_portfolio] answers with the empty portfolio: totals and
    counts zero, no group, the no-valid-balances message as only warning,
    the wallet address and the time stamp; and the state of the fetcher is
    left as it is, nothing being cached or sent. *)
Theorem unavailable_chains_give_the_empty_portfolio (w : Main.World)
    (request : Main.PortfolioRequest) (st : State) :
  (forall c, In c (Main.chains_to_check w request) ->
     Main.in_RPC_URLS w c = false \/
     w3_of (Main.net w) (Main.rpc_urls w) c st = None) ->
  Main.get_portfolio w request st
  = (inr {| wallet_address := Main.wallet_address request;
            total_value_usd := 0; chains_count := 0; tokens_count := 0;
            native_value_usd := 0; erc20_value_usd := 0;
            breakdown_by_chain := []; breakdown_by_token := [];
            warnings := ["🚫 No valid balances found"];
            timestamp := Main.utcnow w +:+ "Z" |}, st).
Proof.
  intros Hchains. unfold Main.get_portfolio, Main.tasks.
  destruct (gather_unavailable (Main.net w) (Main.rpc_urls w)
              (Main.wallet_address request) (Main.tokens request)
              (List.filter (Main.in_RPC_URLS w) (Main.chains_to_check w request)) st)
    as (results & Hg & Hflat).
  { intros c Hc. apply filter_In in Hc. destruct Hc as [Hin Hkey].
    destruct (Hchains c Hin) as [Hno|Hnone]; [congruence | exact Hnone]. }
  rewrite Hg, Hflat. reflexivity.
Qed.

End MainProofs.

(** ** The further properties on the sample inputs *)

Module Instances.

Import BalanceFetcher PortfolioAggregator Order.
Import FetcherTerms AggregatorTerms ResolutionTerms GroupTerms.

Local Open Scope list_scope.

Lemma get_w3_caches_its_instance_witness :
  _get_w3 Samples.node Samples.endpoints 1 Samples.fresh
  = (inr (Some (mkWeb3 "https://eth.example")), Samples.connected) /\
  w3_instances Samples.connected !! 1%Z = Some (mkWeb3 "https://eth.example") /\
  _get_w3 Samples.node Samples.endpoints 1 Samples.connected
  = (inr (Some (mkWeb3 "https://eth.example")), Samples.connected).
Proof.
  assert (H : _get_w3 Samples.node Samples.endpoints 1 Samples.fresh
              = (inr (Some (mkWeb3 "https://eth.example")), Samples.connected))
    by reflexivity.
  split; [exact H|].
  destruct (FetcherExtras.get_w3_caches_its_instance Samples.node Samples.endpoints
              1 Samples.fresh Samples.connected (mkWeb3 "https://eth.example") H)
    as (Hin & _ & _ & Hagain).
  split; [exact Hin | exact Hagain].
Defined.

Lemma unavailable_chain_contributes_nothing_witness :
  w3_instances Samples.fresh !! 2%Z = None /\
  Samples.endpoints !! 2%Z = None /\
  get_wallet_tokens Samples.node Samples.endpoints Samples.wallet 2
    (Some [Samples.usdc]) Samples.fresh
  = (inr [], Samples.fresh).
Proof.
  assert (H1 : w3_instances Samples.fresh !! 2%Z = None) by reflexivity.
  assert (H2 : Samples.endpoints !! 2%Z = None) by reflexivity.
  split; [exact H1|]. split; [exact H2|].
  destruct (FetcherExtras.unavailable_chain_contributes_nothing Samples.node
              Samples.endpoints Samples.wallet Samples.usdc 2 (Some [Samples.usdc])
              Samples.fresh H1 (or_introl H2)) as (_ & _ & Hw).
  exact Hw.
Defined.

Lemma errorless_native_record_is_whole_witness :
  get_native_balance Samples.node Samples.endpoints Samples.wallet 1 Samples.fresh
  = (inr (native_record 1 2500000000000000000), Scenarios.asked_once) /\
  error (native_record 1 2500000000000000000) = None /\
  exists (wei : N) (q : Q),
    balance_wei (native_record 1 2500000000000000000) = Some (Z.of_N wei) /\
    balance (native_record 1 2500000000000000000) = Some q /\
    (0 <= q)%Q.
Proof.
  assert (H : get_native_balance Samples.node Samples.endpoints Samples.wallet 1
                Samples.fresh
              = (inr (native_record 1 2500000000000000000), Scenarios.asked_once))
    by (vm_compute; reflexivity).
  split; [exact H|]. split; [reflexivity|].
  destruct (FetcherExtras.errorless_native_record_is_whole Samples.node Samples.endpoints
              Samples.wallet 1 Samples.fresh Scenarios.asked_once
              (native_record 1 2500000000000000000) H eq_refl)
    as (wei & q & _ & _ & Hwei & _ & Hq & Hback & _).
  exists wei, q. split; [exact Hwei|]. split; [exact Hq | exact Hback].
Defined.

Lemma errorless_token_record_is_whole_witness :
  get_token_balance Samples.node Samples.endpoints Samples.wallet Samples.usdc 1
    Samples.fresh
  = (inr (token_record 1 Samples.usdc 1500000 18 "USDC" "Unknown Token"),
     Scenarios.asked_token) /\
  error (token_record 1 Samples.usdc 1500000 18 "USDC" "Unknown Token") = None /\
  exists (raw : N) (dec : Z) (q : Q),
    balance_raw (token_record 1 Samples.usdc 1500000 18 "USDC" "Unknown Token")
    = Some (Z.of_N raw) /\
    balance (token_record 1 Samples.usdc 1500000 18 "USDC" "Unknown Token") = Some q /\
    (0 <= dec)%Z /\ (0 <= q)%Q.
Proof.
  assert (H : get_token_balance Samples.node Samples.endpoints Samples.wallet
                Samples.usdc 1 Samples.fresh
              = (inr (token_record 1 Samples.usdc 1500000 18 "USDC" "Unknown Token"),
                 Scenarios.asked_token))
    by (vm_compute; reflexivity).
  split; [exact H|]. split; [reflexivity|].
  destruct (FetcherExtras.errorless_token_record_is_whole Samples.node Samples.endpoints
              Samples.wallet Samples.usdc 1 Samples.fresh Scenarios.asked_token
              (token_record 1 Samples.usdc 1500000 18 "USDC" "Unknown Token") H eq_refl)
    as (raw & dec & q & _ & _ & Hraw & _ & Hdec & Hq & Hpos & _).
  exists raw, dec, q. split; [exact Hraw|]. split; [exact Hq|].
  split; [exact Hdec | exact Hpos].
Defined.

Lemma normalize_address_idempotent_witness :
  _normalize_address Scenarios.padded_wallet = inr Samples.wallet /\
  String.length Samples.wallet = 42%nat /\
  _normalize_address Samples.wallet = inr Samples.wallet.
Proof.
  assert (H : _normalize_address Scenarios.padded_wallet = inr Samples.wallet)
    by reflexivity.
  split; [exact H|].
  destruct (AddressFacts.normalize_address_idempotent Scenarios.padded_wallet
              Samples.wallet H) as (_ & _ & Hlen & _ & Hagain).
  split; [exact Hlen | exact Hagain].
Defined.

Lemma normalize_address_ignores_padding_witness :
  all_space "  " = true /\ all_space " " = true /\
  _normalize_address ("  " +:+ Samples.wallet +:+ " ")
  = _normalize_address Samples.wallet.
Proof.
  split; [reflexivity|]. split; [reflexivity|].
  destruct (AddressFacts.normalize_address_ignores_padding "  " Samples.wallet " "
              eq_refl eq_refl) as (H & _).
  exact H.
Defined.

Lemma first_chain_group_In :
  In Scenarios.first_chain_group (breakdown_by_chain Samples.holdings_summary).
Proof. left. reflexivity. Defined.

Lemma first_token_group_In :
  In Scenarios.first_token_group (breakdown_by_token Samples.holdings_summary).
Proof. left. reflexivity. Defined.

Lemma chain_group_holds_the_records_of_its_chain_witness :
  aggregate_portfolio Samples.table_only Samples.wallet Samples.holdings
  = inr Samples.holdings_summary /\
  In Scenarios.first_chain_group (breakdown_by_chain Samples.holdings_summary) /\
  chain_group_of 1 (enriched_of Samples.table_only Samples.holdings)
    Scenarios.first_chain_group.
Proof.
  split; [exact AggregatorProofs.holdings_aggregate|].
  split; [exact first_chain_group_In|].
  apply (AggregatorExtras.chain_group_holds_the_records_of_its_chain
           Samples.table_only Samples.wallet Samples.holdings Samples.holdings_summary
           Scenarios.first_chain_group AggregatorProofs.holdings_aggregate
           first_chain_group_In).
Defined.

Lemma token_group_holds_the_records_of_its_symbol_witness :
  aggregate_portfolio Samples.table_only Samples.wallet Samples.holdings
  = inr Samples.holdings_summary /\
  In Scenarios.first_token_group (breakdown_by_token Samples.holdings_summary) /\
  token_group_of "ETH" (enriched_of Samples.table_only Samples.holdings)
    Scenarios.first_token_group.
Proof.
  split; [exact AggregatorProofs.holdings_aggregate|].
  split; [exact first_token_group_In|].
  apply (AggregatorExtras.token_group_holds_the_records_of_its_symbol
           Samples.table_only Samples.wallet Samples.holdings Samples.holdings_summary
           Scenarios.first_token_group AggregatorProofs.holdings_aggregate
           first_token_group_In).
Defined.

Lemma counts_agree_with_breakdowns_witness :
  aggregate_portfolio Samples.table_only Samples.wallet Samples.holdings
  = inr Samples.holdings_summary /\
  tokens_count Samples.holdings_summary = 4%nat /\
  chains_count Samples.holdings_summary
  = length (breakdown_by_chain Samples.holdings_summary).
Proof.
  split; [exact AggregatorProofs.holdings_aggregate|].
  destruct (AggregatorExtras.counts_agree_with_breakdowns Samples.table_only
              Samples.wallet Samples.holdings Samples.holdings_summary
              AggregatorProofs.holdings_aggregate) as (Ht & Hc & _).
  split; [exact Ht | exact Hc].
Defined.

Lemma failed_records_do_not_show_witness :
  valid_of Samples.holdings <> [] /\
  aggregate_portfolio Samples.table_only Samples.wallet Samples.holdings
  = aggregate_portfolio Samples.table_only Samples.wallet (valid_of Samples.holdings).
Proof.
  assert (H : valid_of Samples.holdings <> []) by discriminate.
  split; [exact H|].
  apply (AggregatorExtras.failed_records_do_not_show Samples.table_only Samples.wallet
           Samples.holdings H).
Defined.

Lemma record_without_address_is_priced_from_the_table_witness :
  contract_address (Samples.eth 2) = None /\
  resolved_price Scenarios.priceless (Samples.eth 2) = Some 3000%Q /\
  enrich Scenarios.priceless (Samples.eth 2) = enrich Samples.table_only (Samples.eth 2).
Proof.
  split; [reflexivity|].
  destruct (AggregatorExtras.record_without_address_is_priced_from_the_table
              Scenarios.priceless Samples.table_only (Samples.eth 2)
              (or_introl eq_refl)) as (Hp & He).
  split; [exact Hp | exact He].
Defined.

Lemma oracle_response_decides_the_price_witness :
  price_oracle_url Scenarios.priceless = Some "https://oracle.example" /\
  contract_address Scenarios.usdc_on_bnb = Some Scenarios.usdc_address /\
  oracle_post Scenarios.priceless "https://oracle.example" Scenarios.usdc_address
    (chain_id Scenarios.usdc_on_bnb) = OracleResponse 200 None /\
  _get_fallback_price (symbol Scenarios.usdc_on_bnb) = Some 1%Q /\
  resolved_price Scenarios.priceless Scenarios.usdc_on_bnb = None /\
  value_usd (enrich Scenarios.priceless Scenarios.usdc_on_bnb) = Some 0%Q.
Proof.
  split; [reflexivity|]. split; [reflexivity|]. split; [reflexivity|].
  split; [reflexivity|].
  destruct (AggregatorExtras.oracle_response_decides_the_price Scenarios.priceless
              "https://oracle.example" Scenarios.usdc_address Scenarios.usdc_on_bnb
              eq_refl ltac:(discriminate) eq_refl ltac:(discriminate)
              ltac:(discriminate)) as (H200 & _).
  destruct (H200 None eq_refl) as (Hp & Hnone).
  split; [exact Hp|]. exact (proj2 (Hnone eq_refl)).
Defined.

Lemma holdings_balances_nonneg (b : Balance) (q : Q) :
  In b Samples.holdings -> failed b = false -> balance b = Some q -> (0 <= q)%Q.
Proof.
  intros Hin _ Hq. simpl in Hin.
  destruct Hin as [<-|[<-|[<-|[<-|[<-|[]]]]]]; simpl in Hq;
    try discriminate; injection Hq as <-; apply Qle_bool_imp_le; reflexivity.
Defined.

Lemma table_only_never_answers (url a : string) (c : option Z) (q : Q) :
  oracle_post Samples.table_only url a c = OracleResponse 200 (Some q) -> (0 <= q)%Q.
Proof. intros H. discriminate H. Defined.

Lemma summary_is_not_negative_witness :
  aggregate_portfolio Samples.table_only Samples.wallet Samples.holdings
  = inr Samples.holdings_summary /\
  (0 <= total_value_usd Samples.holdings_summary)%Q /\
  (native_value_usd Samples.holdings_summary
   <= total_value_usd Samples.holdings_summary)%Q.
Proof.
  split; [exact AggregatorProofs.holdings_aggregate|].
  destruct (AggregatorExtras.summary_is_not_negative Samples.table_only Samples.wallet
              Samples.holdings Samples.holdings_summary holdings_balances_nonneg
              table_only_never_answers
              AggregatorProofs.holdings_aggregate) as (H0 & _ & _ & Hn & _).
  split; [exact H0 | exact Hn].
Defined.

Lemma unknown_chain_is_not_configured (c : Z) :
  In c (Main.chains_to_check Scenarios.world Scenarios.unknown_chain_request) ->
  Main.in_RPC_URLS Scenarios.world c = false \/
  w3_of (Main.net Scenarios.world) (Main.rpc_urls Scenarios.world) c Samples.fresh = None.
Proof. intros [<-|[]]. left. reflexivity. Defined.

Lemma unavailable_chains_give_the_empty_portfolio_witness :
  Main.chains_to_check Scenarios.world Scenarios.unknown_chain_request = [999%Z] /\
  Main.in_RPC_URLS Scenarios.world 999 = false /\
  exists response,
    Main.get_portfolio Scenarios.world Scenarios.unknown_chain_request Samples.fresh
    = (inr response, Samples.fresh) /\
    tokens_count response = 0%nat /\
    warnings response = ["🚫 No valid balances found"].
Proof.
  split; [reflexivity|]. split; [reflexivity|].
  eexists. split.
  - apply (MainProofs.unavailable_chains_give_the_empty_portfolio Scenarios.world
             Scenarios.unknown_chain_request Samples.fresh
             unknown_chain_is_not_configured).
  - split; reflexivity.
Defined.



End Instances.

(** * The sums of the aggregator on floats *)

(** ** Float sums *)

Module FloatFacts.

Import Float FloatTerms PyFacts.

Local Open Scope list_scope.
Local Open Scope Q_scope.











End FloatFacts.

(** ** The aggregator on floats *)

Module FloatProofs.

Import Float FloatAggregator FloatTerms PyFacts FloatFacts.

Local Open Scope list_scope.
Local Open Scope Q_scope.

(** *** Enrichment *)





(** *** The shape of a returned summary *)



(** *** Totals *)




(** *** Sums over the groups of a partition *)




Section Partition.

Context {A K : Type} (p : K -> A -> bool) (f : A -> Q).



End Partition.

(** *** Grouping by chain *)







(** *** Grouping by symbol *)






(** *** The breakdowns of a summary *)






End FloatProofs.

(** ** The properties of the float sums on sample inputs *)

Module FloatInstances.

Import Float FloatAggregator FloatTerms FloatSamples FloatProofs.

Local Open Scope list_scope.
Local Open Scope Q_scope.






End FloatInstances.
